(** * RoadPlugin: hook dispatch and plugin lifecycle

    A shallow embedding of [src/roadplugin/plugin.py]: the hook manager
    (priority-ordered registration, fan-out and filter dispatch), the plugin
    loader, registry and manager (load / enable / disable / unload), and the
    [plugin] class decorator.

    The dictionaries that the manager keeps for itself are finite maps
    ([gmap]), lists are lists, enums are inductive types.  Code that may raise
    is a computation that ends in [Return] or [Raise]; everything a handler or
    a lifecycle callback may touch outside the manager (and the logging sink)
    is an abstract [World] that is threaded through every call.  Objects that
    the manager only passes on (the arguments and results of handlers, the
    configuration dicts) are abstract values: a dict that several parties
    hold is one value, and its contents are in the world. *)

From Stdlib Require Import ZArith Sorted.
From stdpp Require Import gmap strings list fin_maps sorting.

Local Open Scope string_scope.
Local Open Scope Z_scope.
Local Open Scope list_scope.

(** ** Enumerations *)

(** [class PluginState(str, Enum)] *)
Inductive PluginState := DISCOVERED | LOADED | ENABLED | DISABLED | ERROR.

(** [class HookPriority(int, Enum)] *)
Inductive HookPriority := HIGHEST | HIGH | NORMAL | LOW | LOWEST.

(** [HookPriority.value] *)
Definition priority_value (p : HookPriority) : Z :=
  match p with
  | HIGHEST => 0
  | HIGH => 25
  | NORMAL => 50
  | LOW => 75
  | LOWEST => 100
  end.

#[global] Instance PluginState_eq_dec : EqDecision PluginState.
Proof. solve_decision. Defined.

#[global] Instance HookPriority_eq_dec : EqDecision HookPriority.
Proof. solve_decision. Defined.

(** Levels of the [logging] calls the module makes. *)
Inductive LogLevel := INFO | WARNING | LOG_ERROR.

(** ** Sorting

    [list.sort(key=...)] is a stable sort.  Its result is the only permutation
    of the input that is ordered by key and keeps equal keys in input order, so
    a stable insertion sort computes the same list. *)

Fixpoint insert_by_key {A} (key : A -> Z) (x : A) (l : list A) : list A :=
  match l with
  | [] => [x]
  | y :: l' => if key x <=? key y then x :: y :: l' else y :: insert_by_key key x l'
  end.

Definition list_sort {A} (key : A -> Z) (l : list A) : list A :=
  foldr (insert_by_key key) [] l.

(** ** Strings

    [str.startswith], [str.endswith] and the slice [s[:-3]]. *)

Definition startswith (p s : string) : bool := String.prefix p s.

Definition endswith (suffix s : string) : bool :=
  if (String.length suffix <=? String.length s)%nat
  then String.eqb
         (String.substring (String.length s - String.length suffix)
                           (String.length suffix) s)
         suffix
  else false.

Definition drop_last (k : nat) (s : string) : string :=
  String.substring 0 (String.length s - k) s.

(** ** The runtime around the manager *)

(** What the module takes from its surroundings.
    - [Value]: the Python objects that go through the manager without the
      manager looking inside, with [None]: what is passed to and returned by
      hook handlers, coroutine objects among them, and the dicts given to
      [set_config].  A mutable object is a value by its identity, and its
      contents are part of the world;
    - [Exn]: instances of [Exception], which is what every
      [except Exception] of the module catches, and their [str()] as
      interpolated into log messages; signals outside [Exception]
      (interpreter exit, keyboard interrupt, task cancellation) are not
      modelled;
    - [World]: what handlers and callbacks act on outside the manager,
      including the logging sink: [emit lvl msg] is [logger.<lvl>(msg)], and
      [sys_modules_del name] is
      [if name in sys.modules: del sys.modules[name]]. *)
Class Runtime := {
  Value : Type;
  PyNone : Value;
  Exn : Type;
  exn_str : Exn -> string;
  World : Type;
  emit : LogLevel -> string -> World -> World;
  sys_modules_del : string -> World -> World
}.

(** ** Computations that may raise *)

Inductive result `{Runtime} (A : Type) : Type :=
| Return (a : A)
| Raise (e : Exn).
Arguments Return {_ A} a.
Arguments Raise {_ A} e.

(** A computation over the world. *)
Definition M `{Runtime} (A : Type) : Type := World -> result A * World.

Definition ret `{Runtime} {A} (a : A) : M A := fun w => (Return a, w).

Definition bind `{Runtime} {A B} (c : M A) (k : A -> M B) : M B :=
  fun w =>
    match c w with
    | (Return a, w') => k a w'
    | (Raise e, w') => (Raise e, w')
    end.

(** [try: body except Exception as e: handler(e)] *)
Definition try_except `{Runtime} {A} (body : M A) (handler : Exn -> M A) : M A :=
  fun w =>
    match body w with
    | (Return a, w') => (Return a, w')
    | (Raise e, w') => handler e w'
    end.

Definition logger `{Runtime} (lvl : LogLevel) (msg : string) : M unit :=
  fun w => (Return tt, emit lvl msg w).

(** [raise e] *)
Definition raise `{Runtime} {A} (e : Exn) : M A := fun w => (Raise e, w).

(** Awaiting.  Calling a coroutine function ([async def]) returns a coroutine
    object without running the body; the body runs when that object is
    awaited.  [awaitable v] is what awaiting the object [v] does when [v] can
    be awaited (a coroutine object, a future, anything with [__await__]), and
    [await_error v] is the [TypeError] that [await v] raises when it
    cannot. *)
Class Awaiting `{Runtime} := {
  awaitable : Value -> option (M Value);
  await_error : Value -> Exn
}.

(** [await v] *)
Definition await `{Awaiting} (v : Value) : M Value :=
  match awaitable v with
  | Some completion => completion
  | None => raise (await_error v)
  end.

Notation "'let*' x ':=' c 'in' k" := (bind c (fun x => k))
  (at level 10, x name, c at level 100, k at level 200).
Notation "'run' c 'in' k" := (bind c (fun _ => k))
  (at level 10, c at level 100, k at level 200).

(** [for x in l: s = body(x, s)], the loop-carried variables being [s]. *)
Fixpoint for_each `{Runtime} {A S} (l : list A) (body : A -> S -> M S) (s : S) : M S :=
  match l with
  | [] => ret s
  | x :: l' => let* s' := body x s in for_each l' body s'
  end.

Section Model.

Context `{Awaiting}.

(** ** Hook registrations *)

(** [@dataclass class HookRegistration].  [handler] is what the call
    [handler( *args, **kwargs)] does: it returns an object or raises.  For a
    coroutine function the call returns a coroutine object and nothing else
    happens until that object is awaited.  Keyword arguments are a map from
    names to values.  [async_handler] is a field like the others: whoever
    builds the registration sets it, [Plugin.register_hook] from
    [asyncio.iscoroutinefunction(handler)]. *)
Record HookRegistration := {
  name : string;
  handler : list Value -> gmap string Value -> M Value;
  plugin_name : string;
  priority : HookPriority;
  async_handler : bool
}.

(** [class HookManager]: [self.hooks : Dict[str, List[HookRegistration]]]. *)
Record HookManager := { hooks : gmap string (list HookRegistration) }.

(** [HookManager.__init__] *)
Definition HookManager_init : HookManager := {| hooks := ∅ |}.

(** The sort key [lambda h: h.priority.value]. *)
Definition sort_key (h : HookRegistration) : Z := priority_value (priority h).

(** [HookManager.register] *)
Definition HookManager_register (registration : HookRegistration)
    (self : HookManager) : HookManager :=
  let hooks1 :=
    match hooks self !! name registration with
    | None => <[name registration := []]> (hooks self)
    | Some _ => hooks self
    end in
  let appended := default [] (hooks1 !! name registration) ++ [registration] in
  {| hooks := <[name registration := list_sort sort_key appended]> hooks1 |}.

(** [HookManager.unregister]: one pass over the keys, replacing each list by
    the handlers of other plugins and adding up the lengths lost. *)
Definition HookManager_unregister (owner : string) (self : HookManager)
    : nat * HookManager :=
  let step (name0 : string) (handlers : list HookRegistration)
           (acc : nat * gmap string (list HookRegistration)) :=
    let original_len := length handlers in
    let kept := filter (fun h => plugin_name h ≠ owner) handlers in
    ((acc.1 + (original_len - length kept))%nat, <[name0 := kept]> acc.2) in
  let '(count, hooks') := map_fold step (0%nat, hooks self) (hooks self) in
  (count, {| hooks := hooks' |}).

(** The branch on [registration.async_handler]:
    [await registration.handler( *args, **kwargs)] or
    [registration.handler( *args, **kwargs)]. *)
Definition call_handler (registration : HookRegistration)
    (args : list Value) (kwargs : gmap string Value) : M Value :=
  if async_handler registration
  then let* returned := handler registration args kwargs in await returned
  else handler registration args kwargs.

(** [HookManager.execute] *)
Definition HookManager_execute (self : HookManager) (name0 : string)
    (args : list Value) (kwargs : gmap string Value) : M (list Value) :=
  let handlers := default [] (hooks self !! name0) in
  for_each handlers (fun registration results =>
    try_except
      (let* result := call_handler registration args kwargs in
       ret (results ++ [result]))
      (fun e =>
         run logger LOG_ERROR ("Hook " +:+ name0 +:+ " handler error: " +:+ exn_str e) in
         ret (results ++ [PyNone]))) [].

(** [HookManager.execute_filter] *)
Definition HookManager_execute_filter (self : HookManager) (name0 : string)
    (value : Value) (args : list Value) (kwargs : gmap string Value) : M Value :=
  let handlers := default [] (hooks self !! name0) in
  for_each handlers (fun registration value =>
    try_except
      (call_handler registration (value :: args) kwargs)
      (fun e =>
         run logger LOG_ERROR ("Filter hook " +:+ name0 +:+ " error: " +:+ exn_str e) in
         ret value)) value.

(** [HookManager.list_hooks] *)
Definition HookManager_list_hooks (self : HookManager) : gmap string nat :=
  length <$> hooks self.

(** A sequence of [register] calls, in order. *)
Definition register_all (regs : list HookRegistration) (self : HookManager)
    : HookManager :=
  foldl (fun hm registration => HookManager_register registration hm) self regs.

(** The hook managers that [register] and [unregister] can produce, which
    are the only two methods that write [self.hooks]. *)
Inductive built : HookManager -> Prop :=
| built_init : built HookManager_init
| built_register registration self :
    built self -> built (HookManager_register registration self)
| built_unregister owner self :
    built self -> built (HookManager_unregister owner self).2.

(** A list of registrations in non-decreasing order of priority value. *)
Definition by_priority (handlers : list HookRegistration) : Prop :=
  StronglySorted
    (fun a b => priority_value (priority a) <= priority_value (priority b)) handlers.

(** *** Dispatch as the specification words it *)

(** A sum over the hook names of a measure of their handler lists. *)
Definition sum_over (f : list HookRegistration -> nat)
    (m : gmap string (list HookRegistration)) : nat :=
  map_fold (fun _ handlers acc => (acc + f handlers)%nat) 0%nat m.

(** The number of registrations, across all hook names, owned by [owner]. *)
Definition owned_count (owner : string) (self : HookManager) : nat :=
  sum_over (fun handlers => length (filter (fun h => plugin_name h = owner) handlers))
           (hooks self).

(** The number of registrations across all hook names. *)
Definition total_count (self : HookManager) : nat :=
  sum_over length (hooks self).

(** One handler invoked as the specification has it: the handler is called
    with the arguments, and when the registration says that it is
    asynchronous the dispatcher waits for what the call returned to complete,
    the outcome being that of the completion.  A call that raises, a
    completion that raises and the wait for something that cannot be waited
    for are the three ways in which the invocation fails. *)
Definition invoke (registration : HookRegistration)
    (args : list Value) (kwargs : gmap string Value) (w : World)
    : result Value * World :=
  match handler registration args kwargs w with
  | (Raise e, w1) => (Raise e, w1)
  | (Return returned, w1) =>
    if async_handler registration
    then match awaitable returned with
         | Some completion => completion w1
         | None => (Raise (await_error returned), w1)
         end
    else (Return returned, w1)
  end.

(** Fan-out: each handler is invoked in turn, in the world the one before
    left, and there is one result per handler; a handler whose invocation
    fails is logged and contributes [None]. *)
Fixpoint fan_out (name0 : string) (handlers : list HookRegistration)
    (args : list Value) (kwargs : gmap string Value) (w : World)
    : list Value * World :=
  match handlers with
  | [] => ([], w)
  | registration :: rest =>
    match invoke registration args kwargs w with
    | (Return v, w1) =>
        let '(vs, w2) := fan_out name0 rest args kwargs w1 in (v :: vs, w2)
    | (Raise e, w1) =>
        let '(vs, w2) :=
          fan_out name0 rest args kwargs
            (emit LOG_ERROR ("Hook " +:+ name0 +:+ " handler error: " +:+ exn_str e) w1) in
        (PyNone :: vs, w2)
    end
  end.

(** Filter chain: each handler is invoked in turn on the current value; the
    outcome of the invocation is the next value, and a handler whose
    invocation fails is logged and leaves the value as it was. *)
Fixpoint filter_chain (name0 : string) (handlers : list HookRegistration)
    (value : Value) (args : list Value) (kwargs : gmap string Value) (w : World)
    : Value * World :=
  match handlers with
  | [] => (value, w)
  | registration :: rest =>
    match invoke registration (value :: args) kwargs w with
    | (Return v, w1) => filter_chain name0 rest v args kwargs w1
    | (Raise e, w1) =>
        filter_chain name0 rest value args kwargs
          (emit LOG_ERROR ("Filter hook " +:+ name0 +:+ " error: " +:+ exn_str e) w1)
    end
  end.

(** A registration whose invocation on [args] gives [v] and leaves the world
    alone: a function registered as synchronous that returns [v], or a
    coroutine function registered as asynchronous whose coroutine, once
    awaited, returns [v]. *)
Definition returns_value (registration : HookRegistration)
    (args : list Value) (kwargs : gmap string Value) (v : Value) : Prop :=
  forall w,
    if async_handler registration
    then exists coroutine completion,
           handler registration args kwargs w = (Return coroutine, w)
           /\ awaitable coroutine = Some completion
           /\ completion w = (Return v, w)
    else handler registration args kwargs w = (Return v, w).

(** ** Plugins *)

(** [@dataclass class PluginInfo] *)
Record PluginInfo := {
  info_name : string;
  version : string;
  description : string;
  author : string;
  dependencies : list string;
  info_hooks : list string;
  config_schema : gmap string Value
}.

(** [PluginInfo(name=...)] with the defaults of the other fields. *)
Definition PluginInfo_default (name0 : string) : PluginInfo :=
  {| info_name := name0; version := "0.1.0"; description := EmptyString;
     author := EmptyString;
     dependencies := []; info_hooks := []; config_schema := ∅ |}.

(** The dict that a context has in [config].  [PluginManager.load] passes
    [self._configs.get(name, {})]: when a configuration is stored under the
    name, the context gets that very object, not a copy, so that what the
    plugin writes into it shows in [manager._configs], and what the caller of
    [set_config] writes into it later shows in the context.  Such a dict is
    known by its identity, its contents being part of the world
    ([shared_dict]).  Otherwise the context gets a new empty dict that
    nothing else refers to, given by its contents ([own_dict]). *)
Inductive ConfigDict :=
| shared_dict (d : Value)
| own_dict (items : gmap string Value).

(** [@dataclass class PluginContext] *)
Record PluginContext := {
  ctx_plugin_name : string;
  config : ConfigDict;
  data : gmap string Value
}.

(** The attributes of a plugin instance that the plugin's own code works on,
    [self.context] and [self._hooks].  [self.state] is kept apart: only
    [Plugin.__init__] and the manager assign it. *)
Record PluginAttrs := {
  context : PluginContext;
  _hooks : list HookRegistration
}.

(** What running a method of a plugin does: it works on the instance and the
    world and returns or raises; what it did to the instance before raising
    stays done.  For the four lifecycle callbacks this is the call and the
    [await] together ([await plugin.on_load()]): a callback that a subclass
    defines without [async] ends, once its body has run, in the [TypeError]
    of the [await]. *)
Definition method : Type := PluginAttrs -> World -> result unit * PluginAttrs * World.

(** A method whose body is [pass]. *)
Definition pass : method := fun attrs w => (Return tt, attrs, w).

(** A subclass of [Plugin]: the class attribute [info], what its [__init__]
    does after [Plugin.__init__], and the four lifecycle callbacks. *)
Record PluginClass := {
  info : PluginInfo;
  init : method;
  on_load : method;
  on_enable : method;
  on_disable : method;
  on_unload : method
}.

(** [class Plugin], the base class. *)
Definition Plugin_base : PluginClass :=
  {| info := PluginInfo_default "base_plugin"; init := pass;
     on_load := pass; on_enable := pass; on_disable := pass; on_unload := pass |}.

(** A plugin instance. *)
Record Plugin := {
  plugin_class : PluginClass;
  attrs : PluginAttrs;
  state : PluginState
}.

Definition set_attrs (a : PluginAttrs) (p : Plugin) : Plugin :=
  {| plugin_class := plugin_class p; attrs := a; state := state p |}.

Definition set_state (s : PluginState) (p : Plugin) : Plugin :=
  {| plugin_class := plugin_class p; attrs := attrs p; state := s |}.

(** [plugin_class(context)]: [Plugin.__init__] followed by the rest of the
    subclass's [__init__]. *)
Definition instantiate (cls : PluginClass) (context0 : PluginContext)
    (w : World) : result Plugin * World :=
  match init cls {| context := context0; _hooks := [] |} w with
  | (Return _, a, w') => (Return {| plugin_class := cls; attrs := a; state := LOADED |}, w')
  | (Raise e, _, w') => (Raise e, w')
  end.

(** [Plugin.register_hook]; [is_coroutine] is
    [asyncio.iscoroutinefunction(handler)]. *)
Definition register_hook (cls : PluginClass) (name0 : string)
    (handler0 : list Value -> gmap string Value -> M Value) (is_coroutine : bool)
    (priority0 : HookPriority) (a : PluginAttrs) : PluginAttrs :=
  {| context := context a;
     _hooks := _hooks a ++
       [ {| name := name0; handler := handler0;
            plugin_name := info_name (info cls);
            priority := priority0; async_handler := is_coroutine |} ] |}.

(** [Plugin.get_hooks] *)
Definition get_hooks (p : Plugin) : list HookRegistration := _hooks (attrs p).

(** ** Loader *)

(** The [try] block of [PluginLoader.load] up to the scan: importing the
    module [name] (from [path] when one is given) and collecting, in [dir()]
    order, its attributes that are proper subclasses of [Plugin]; or the
    exception that the import raised. *)
Variable import_module :
  string -> option string -> World -> result (list PluginClass) * World.

(** [class PluginLoader] *)
Record PluginLoader := {
  plugin_dirs : list string;
  _loaded : gmap string PluginClass
}.

(** [PluginLoader.load] *)
Definition PluginLoader_load (name0 : string) (path : option string)
    (self : PluginLoader) (w : World) : option PluginClass * PluginLoader * World :=
  match _loaded self !! name0 with
  | Some cls => (Some cls, self, w)
  | None =>
    match import_module name0 path w with
    | (Return (attr :: _), w1) =>
        (Some attr,
         {| plugin_dirs := plugin_dirs self; _loaded := <[name0 := attr]> (_loaded self) |},
         w1)
    | (Return [], w1) =>
        (None, self, emit WARNING ("No Plugin class found in " +:+ name0) w1)
    | (Raise e, w1) =>
        (None, self,
         emit LOG_ERROR ("Failed to load plugin " +:+ name0 +:+ ": " +:+ exn_str e) w1)
    end
  end.

(** [PluginLoader.unload] *)
Definition PluginLoader_unload (name0 : string) (self : PluginLoader) (w : World)
    : bool * PluginLoader * World :=
  match _loaded self !! name0 with
  | Some _ =>
      (true,
       {| plugin_dirs := plugin_dirs self; _loaded := delete name0 (_loaded self) |},
       sys_modules_del name0 w)
  | None => (false, self, w)
  end.

(** ** Registry *)

(** [class PluginRegistry] *)
Record PluginRegistry := { plugins : gmap string Plugin }.

(** [PluginRegistry.register] *)
Definition PluginRegistry_register (p : Plugin) (self : PluginRegistry) : PluginRegistry :=
  {| plugins := <[info_name (info (plugin_class p)) := p]> (plugins self) |}.

(** [PluginRegistry.unregister]: [self.plugins.pop(name, None)] *)
Definition PluginRegistry_unregister (name0 : string) (self : PluginRegistry)
    : option Plugin * PluginRegistry :=
  (plugins self !! name0, {| plugins := delete name0 (plugins self) |}).

(** [PluginRegistry.get] *)
Definition PluginRegistry_get (name0 : string) (self : PluginRegistry) : option Plugin :=
  plugins self !! name0.

(** ** Manager *)

(** [class PluginManager]; [mgr_hooks] is [self.hooks].  [_configs] maps a
    name to the dict object that was given to [set_config]: the object itself,
    known by its identity.  Its contents are part of the world, since the
    caller of [set_config], the manager and the contexts made by [load] all
    hold the same object and any of them may write into it. *)
Record PluginManager := {
  loader : PluginLoader;
  registry : PluginRegistry;
  mgr_hooks : HookManager;
  _configs : gmap string Value
}.

(** [PluginManager.__init__] *)
Definition PluginManager_init (dirs : list string) : PluginManager :=
  {| loader := {| plugin_dirs := dirs; _loaded := ∅ |};
     registry := {| plugins := ∅ |};
     mgr_hooks := HookManager_init;
     _configs := ∅ |}.

(** [PluginManager.set_config] *)
Definition PluginManager_set_config (plugin_name0 : string)
    (config0 : Value) (self : PluginManager) : PluginManager :=
  {| loader := loader self; registry := registry self; mgr_hooks := mgr_hooks self;
     _configs := <[plugin_name0 := config0]> (_configs self) |}.

(** An assignment to an attribute of the plugin object that the registry
    holds under [name0]: the object is shared, so the registry sees it. *)
Definition update_plugin (name0 : string) (p : Plugin) (self : PluginManager)
    : PluginManager :=
  {| loader := loader self;
     registry := {| plugins := <[name0 := p]> (plugins (registry self)) |};
     mgr_hooks := mgr_hooks self;
     _configs := _configs self |}.

(** The context that [load] creates:
    [PluginContext(plugin_name=name, config=self._configs.get(name, {}))].
    The configuration stored under the name is handed over as it is, the same
    object; without one the context gets the new [{}]. *)
Definition load_context (name0 : string) (self : PluginManager) : PluginContext :=
  {| ctx_plugin_name := name0;
     config := match _configs self !! name0 with
               | Some d => shared_dict d
               | None => own_dict ∅
               end;
     data := ∅ |}.

(** [PluginManager.load] *)
Definition PluginManager_load (name0 : string) (path : option string)
    (self : PluginManager) (w : World) : option Plugin * PluginManager * World :=
  let '(plugin_class0, loader1, w1) := PluginLoader_load name0 path (loader self) w in
  let self1 :=
    {| loader := loader1; registry := registry self; mgr_hooks := mgr_hooks self;
       _configs := _configs self |} in
  match plugin_class0 with
  | None => (None, self1, w1)
  | Some cls =>
    let context0 := load_context name0 self in
    let failed (e : Exn) (w' : World) :=
      (None, self1,
       emit LOG_ERROR ("Failed to instantiate plugin " +:+ name0 +:+ ": " +:+ exn_str e) w') in
    match instantiate cls context0 w1 with
    | (Raise e, w2) => failed e w2
    | (Return plugin0, w2) =>
      match on_load cls (attrs plugin0) w2 with
      | (Raise e, _, w3) => failed e w3
      | (Return _, attrs3, w3) =>
        let plugin3 := set_attrs attrs3 plugin0 in
        let hooks3 :=
          foldl (fun hm hook => HookManager_register hook hm)
                (mgr_hooks self1) (get_hooks plugin3) in
        (Some plugin3,
         {| loader := loader1;
            registry := PluginRegistry_register plugin3 (registry self1);
            mgr_hooks := hooks3;
            _configs := _configs self1 |},
         emit INFO ("Loaded plugin: " +:+ name0) w3)
      end
    end
  end.

(** [PluginManager.enable] *)
Definition PluginManager_enable (name0 : string) (self : PluginManager) (w : World)
    : bool * PluginManager * World :=
  match PluginRegistry_get name0 (registry self) with
  | None => (false, self, w)
  | Some plugin0 =>
    if decide (state plugin0 = ENABLED) then (true, self, w)
    else
      match on_enable (plugin_class plugin0) (attrs plugin0) w with
      | (Return _, attrs1, w1) =>
          (true,
           update_plugin name0 (set_state ENABLED (set_attrs attrs1 plugin0)) self,
           emit INFO ("Enabled plugin: " +:+ name0) w1)
      | (Raise e, attrs1, w1) =>
          (false,
           update_plugin name0 (set_state ERROR (set_attrs attrs1 plugin0)) self,
           emit LOG_ERROR ("Failed to enable plugin " +:+ name0 +:+ ": " +:+ exn_str e) w1)
      end
  end.

(** [PluginManager.disable] *)
Definition PluginManager_disable (name0 : string) (self : PluginManager) (w : World)
    : bool * PluginManager * World :=
  match PluginRegistry_get name0 (registry self) with
  | None => (false, self, w)
  | Some plugin0 =>
    if decide (state plugin0 = DISABLED) then (true, self, w)
    else
      match on_disable (plugin_class plugin0) (attrs plugin0) w with
      | (Return _, attrs1, w1) =>
          (true,
           update_plugin name0 (set_state DISABLED (set_attrs attrs1 plugin0)) self,
           emit INFO ("Disabled plugin: " +:+ name0) w1)
      | (Raise e, attrs1, w1) =>
          (false,
           update_plugin name0 (set_attrs attrs1 plugin0) self,
           emit LOG_ERROR ("Failed to disable plugin " +:+ name0 +:+ ": " +:+ exn_str e) w1)
      end
  end.

(** The first step of [unload], whose result is dropped:
    [if plugin.state == PluginState.ENABLED: await self.disable(name)]. *)
Definition implicit_disable (name0 : string) (plugin0 : Plugin)
    (self : PluginManager) (w : World) : PluginManager * World :=
  if decide (state plugin0 = ENABLED)
  then let '(_, s, w') := PluginManager_disable name0 self w in (s, w')
  else (self, w).

(** [PluginManager.unload].  After the implicit [disable], [plugin] still
    names the object held by the registry, now as [disable] left it. *)
Definition PluginManager_unload (name0 : string) (self : PluginManager) (w : World)
    : bool * PluginManager * World :=
  match PluginRegistry_get name0 (registry self) with
  | None => (false, self, w)
  | Some plugin0 =>
    let '(self1, w1) := implicit_disable name0 plugin0 self w in
    let plugin1 := default plugin0 (PluginRegistry_get name0 (registry self1)) in
    match on_unload (plugin_class plugin1) (attrs plugin1) w1 with
    | (Return _, _, w2) =>
        let '(_, hooks2) := HookManager_unregister name0 (mgr_hooks self1) in
        let '(_, registry2) := PluginRegistry_unregister name0 (registry self1) in
        let '(_, loader2, w3) := PluginLoader_unload name0 (loader self1) w2 in
        (true,
         {| loader := loader2; registry := registry2; mgr_hooks := hooks2;
            _configs := _configs self1 |},
         emit INFO ("Unloaded plugin: " +:+ name0) w3)
    | (Raise e, attrs2, w2) =>
        (false,
         update_plugin name0 (set_attrs attrs2 plugin1) self1,
         emit LOG_ERROR ("Failed to unload plugin " +:+ name0 +:+ ": " +:+ exn_str e) w2)
    end
  end.

(** [PluginManager.reload] *)
Definition PluginManager_reload (name0 : string) (self : PluginManager) (w : World)
    : option Plugin * PluginManager * World :=
  let '(self1, w1) :=
    match PluginRegistry_get name0 (registry self) with
    | Some _ => let '(_, s, w') := PluginManager_unload name0 self w in (s, w')
    | None => (self, w)
    end in
  PluginManager_load name0 None self1 w1.

(** [PluginManager.execute_hook] *)
Definition PluginManager_execute_hook (self : PluginManager) (name0 : string)
    (args : list Value) (kwargs : gmap string Value) : M (list Value) :=
  HookManager_execute (mgr_hooks self) name0 args kwargs.

(** [PluginManager.filter] *)
Definition PluginManager_filter (self : PluginManager) (name0 : string)
    (value : Value) (args : list Value) (kwargs : gmap string Value) : M Value :=
  HookManager_execute_filter (mgr_hooks self) name0 value args kwargs.

(** *** Discovery *)

(** The file system as [PluginLoader.discover] reads it: [os.path.exists],
    [os.path.isdir], [os.listdir] (which raises on what cannot be listed) and
    [os.path.join]. *)
Record FileSystem := {
  path_exists : string -> bool;
  path_isdir : string -> bool;
  listdir : string -> result (list string);
  path_join : string -> string -> string
}.

(** The body of the inner loop of [discover]: what an entry [item] of
    [plugin_dir] adds to [discovered]. *)
Definition discover_item (fs : FileSystem) (plugin_dir item : string) : list string :=
  let path := path_join fs plugin_dir item in
  if path_isdir fs path && path_exists fs (path_join fs path "__init__.py")
  then [item]
  else if endswith ".py" item && negb (startswith "_" item)
  then [drop_last 3 item]
  else [].

(** [PluginLoader.discover]: an exception of [os.listdir] is not caught. *)
Fixpoint discover_dirs (fs : FileSystem) (dirs : list string) (discovered : list string)
    : result (list string) :=
  match dirs with
  | [] => Return discovered
  | plugin_dir :: rest =>
    if path_exists fs plugin_dir
    then match listdir fs plugin_dir with
         | Return items =>
             discover_dirs fs rest
               (discovered ++ flat_map (discover_item fs plugin_dir) items)
         | Raise e => Raise e
         end
    else discover_dirs fs rest discovered
  end.

Definition PluginLoader_discover (fs : FileSystem) (self : PluginLoader)
    : result (list string) :=
  discover_dirs fs (plugin_dirs self) [].

(** [PluginManager.discover] *)
Definition PluginManager_discover (fs : FileSystem) (self : PluginManager)
    : result (list string) :=
  PluginLoader_discover fs (loader self).

(** The loop of [load_all]: [if await self.load(name): count += 1]. *)
Fixpoint load_each (names : list string) (count : nat) (self : PluginManager)
    (w : World) : nat * PluginManager * World :=
  match names with
  | [] => (count, self, w)
  | name0 :: rest =>
    match PluginManager_load name0 None self w with
    | (Some _, self1, w1) => load_each rest (S count) self1 w1
    | (None, self1, w1) => load_each rest count self1 w1
    end
  end.

(** [PluginManager.load_all] *)
Definition PluginManager_load_all (fs : FileSystem) (self : PluginManager) (w : World)
    : result nat * PluginManager * World :=
  match PluginManager_discover fs self with
  | Return plugins =>
      let '(count, self1, w1) := load_each plugins 0%nat self w in
      (Return count, self1, w1)
  | Raise e => (Raise e, self, w)
  end.

(** The registry stores every plugin under the name of its descriptor. *)
Definition keyed_by_name (self : PluginManager) : Prop :=
  forall n p, PluginRegistry_get n (registry self) = Some p ->
              info_name (info (plugin_class p)) = n.

(** The hook lists of two hook managers agree, a missing name counting as an
    empty list (which is how [execute], [execute_filter] and [unregister]
    read them). *)
Definition same_handlers (a b : HookManager) : Prop :=
  forall n, default [] (hooks a !! n) = default [] (hooks b !! n).

(** Every registered handler is owned by a plugin that the registry holds. *)
Definition hooks_have_owners (self : PluginManager) : Prop :=
  forall n h, h ∈ default [] (hooks (mgr_hooks self) !! n) ->
              is_Some (PluginRegistry_get (plugin_name h) (registry self)).

(** A class whose instances, once loaded, have no hooks but their own: what
    [Plugin.register_hook] gives, which sets [plugin_name=self.info.name]. *)
Definition owns_its_hooks (cls : PluginClass) : Prop :=
  forall context0 w q w2 u a3 w3,
    instantiate cls context0 w = (Return q, w2) ->
    on_load cls (attrs q) w2 = (Return u, a3, w3) ->
    Forall (fun h => plugin_name h = info_name (info cls)) (_hooks a3).

(** The classes the loader has cached own their hooks. *)
Definition cache_owns_its_hooks (self : PluginManager) : Prop :=
  forall n cls, _loaded (loader self) !! n = Some cls -> owns_its_hooks cls.

(** *** The manager as a transition system *)

(** The lifecycle operations of the manager. *)
Inductive operation :=
| Load (name0 : string) (path : option string)
| Enable (name0 : string)
| Disable (name0 : string)
| Unload (name0 : string)
| Reload (name0 : string)
| SetConfig (name0 : string) (config0 : Value).

(** The manager and the world after an operation. *)
Definition perform (op : operation) (self : PluginManager) (w : World)
    : PluginManager * World :=
  match op with
  | Load name0 path => let '(_, s, w') := PluginManager_load name0 path self w in (s, w')
  | Enable name0 => let '(_, s, w') := PluginManager_enable name0 self w in (s, w')
  | Disable name0 => let '(_, s, w') := PluginManager_disable name0 self w in (s, w')
  | Unload name0 => let '(_, s, w') := PluginManager_unload name0 self w in (s, w')
  | Reload name0 => let '(_, s, w') := PluginManager_reload name0 self w in (s, w')
  | SetConfig name0 config0 => (PluginManager_set_config name0 config0 self, w)
  end.

(** The three ways in which loading [name0] fails: the loader yields no
    class; the constructor raises; [on_load] raises. *)
Inductive load_failure (name0 : string) (path : option string)
    (self : PluginManager) (w : World) : Prop :=
| resolution_fails :
    (PluginLoader_load name0 path (loader self) w).1.1 = None ->
    load_failure name0 path self w
| constructor_raises cls loader1 w1 e w2 :
    PluginLoader_load name0 path (loader self) w = (Some cls, loader1, w1) ->
    instantiate cls (load_context name0 self) w1 = (Raise e, w2) ->
    load_failure name0 path self w
| on_load_raises cls loader1 w1 plugin0 w2 e a w3 :
    PluginLoader_load name0 path (loader self) w = (Some cls, loader1, w1) ->
    instantiate cls (load_context name0 self) w1 = (Return plugin0, w2) ->
    on_load cls (attrs plugin0) w2 = (Raise e, a, w3) ->
    load_failure name0 path self w.

(** ** The [plugin] decorator *)

(** The class under the decorator, as far as the lifecycle goes: for each
    lifecycle name, the attribute when [hasattr(cls, ...)] holds.  Its other
    public attributes, which the decorator copies onto the new class, are
    left out. *)
Record PlainClass := {
  cls_on_load : option method;
  cls_on_enable : option method;
  cls_on_disable : option method;
  cls_on_unload : option method
}.

(** [if hasattr(cls, "on_x"): await cls.on_x(self)] *)
Definition forward (m : option method) : method :=
  match m with
  | Some f => f
  | None => pass
  end.

(** [plugin(name, version, description, **kwargs)(cls)], the class
    [DecoratedPlugin(Plugin)]: it defines [info], [on_load], [on_enable] and
    [on_disable]; [__init__] and [on_unload] are those of [Plugin], the
    copying loop skipping names that start with an underscore and the four
    lifecycle names. *)
Definition plugin (name0 version0 description0 author0 : string)
    (dependencies0 hooks0 : list string) (config_schema0 : gmap string Value)
    (cls : PlainClass) : PluginClass :=
  {| info := {| info_name := name0; version := version0; description := description0;
                author := author0; dependencies := dependencies0;
                info_hooks := hooks0; config_schema := config_schema0 |};
     init := init Plugin_base;
     on_load := forward (cls_on_load cls);
     on_enable := forward (cls_on_enable cls);
     on_disable := forward (cls_on_disable cls);
     on_unload := on_unload Plugin_base |}.

End Model.

(** ** A concrete runtime and some plugins

    Integers, strings, [None] and coroutine objects as values, exceptions with
    their message, and a world that is the list of lines written so far: log
    records, module evictions and what the plugins below print. *)

Module Demo.

(** [PCoro k x] is the coroutine object that [add_async k] returns when it is
    called on [x], and [PEcho x] the one that [echo_async] returns. *)
Inductive pyval :=
| PNone
| PInt (z : Z)
| PStr (s : string)
| PCoro (k : Z) (x : pyval)
| PEcho (x : pyval).

#[local] Instance runtime : Runtime := {|
  Value := pyval;
  PyNone := PNone;
  Exn := string;
  exn_str := fun e => e;
  World := list string;
  emit := fun _ msg w => w ++ [msg];
  sys_modules_del := fun name0 w => w ++ ["del " +:+ name0]
|}.

(** A method that prints [label] and then returns, or raises [label]. *)
Definition noted (label : string) (raises : bool) : method :=
  fun a w => (if raises then Raise label else Return tt, a, w ++ [label]).

(** [lambda x: x + k], raising [TypeError] on anything but one integer. *)
Definition add (k : Z) : list Value -> gmap string Value -> M Value :=
  fun args _ w =>
    match args with
    | [PInt x] => (Return (PInt (x + k)), w)
    | _ => (Raise "TypeError", w)
    end.

(** [lambda x: x * 2] *)
Definition double : list Value -> gmap string Value -> M Value :=
  fun args _ w =>
    match args with
    | [PInt x] => (Return (PInt (x * 2)), w)
    | _ => (Raise "TypeError", w)
    end.

(** A handler that always raises. *)
Definition boom : list Value -> gmap string Value -> M Value :=
  fun _ _ w => (Raise "boom", w).

(** [async def add_async(x): print("add_async"); return x + k].  The call
    returns the coroutine object and prints nothing. *)
Definition add_async (k : Z) : list Value -> gmap string Value -> M Value :=
  fun args _ w =>
    match args with
    | [x] => (Return (PCoro k x), w)
    | _ => (Raise "TypeError", w)
    end.

(** [async def echo_async(x): return x] *)
Definition echo_async : list Value -> gmap string Value -> M Value :=
  fun args _ w =>
    match args with
    | [x] => (Return (PEcho x), w)
    | _ => (Raise "TypeError", w)
    end.

(** [type(v).__name__] *)
Definition type_name (v : pyval) : string :=
  match v with
  | PNone => "NoneType"
  | PInt _ => "int"
  | PStr _ => "str"
  | PCoro _ _ | PEcho _ => "coroutine"
  end.

(** Awaiting a coroutine object runs the body of its coroutine function;
    nothing else can be awaited. *)
#[local] Instance awaiting : Awaiting := {|
  awaitable := fun v =>
    match v with
    | PCoro k x => Some (fun w => add k [x] ∅ (w ++ ["add_async"]))
    | PEcho x => Some (fun w => (Return x, w))
    | _ => None
    end;
  await_error := fun v => "object " +:+ type_name v +:+ " can't be used in 'await' expression"
|}.

(** [HookRegistration(name, handler, plugin_name, priority)], the flag
    [async_handler] keeping its default. *)
Definition reg (name0 : string) (h : list Value -> gmap string Value -> M Value)
    (owner : string) (p : HookPriority) : HookRegistration :=
  {| name := name0; handler := h; plugin_name := owner; priority := p;
     async_handler := false |}.

(** [HookRegistration(name, handler, plugin_name, async_handler=True)] *)
Definition reg_async (name0 : string) (h : list Value -> gmap string Value -> M Value)
    (owner : string) : HookRegistration :=
  {| name := name0; handler := h; plugin_name := owner; priority := NORMAL;
     async_handler := true |}.

(** The class [Plugin] under another descriptor name. *)
Definition named (name0 : string) : PluginClass :=
  {| info := PluginInfo_default name0; init := pass;
     on_load := pass; on_enable := pass; on_disable := pass; on_unload := pass |}.

(** An [on_load] that prints a line and registers one hook:
    [self.register_hook("before_request", self.before_request)]. *)
Definition loads_hook (name0 : string) : method :=
  fun a w =>
    (Return tt,
     register_hook (named name0) "before_request" (add 1) false NORMAL a,
     w ++ [name0 +:+ ".on_load"]).

(** A plugin whose [on_load] registers one hook. *)
Definition sample : PluginClass :=
  {| info := PluginInfo_default "sample";
     init := pass;
     on_load := loads_hook "sample";
     on_enable := noted "sample.on_enable" false;
     on_disable := noted "sample.on_disable" false;
     on_unload := noted "sample.on_unload" false |}.

(** A plugin whose [on_enable] raises on the first attempt only: it leaves a
    mark in its scratch data. *)
Definition flaky : PluginClass :=
  {| info := PluginInfo_default "flaky";
     init := pass;
     on_load := pass;
     on_enable := fun a w =>
       match data (context a) !! "tried" with
       | None =>
           (Raise "not yet",
            {| context := {| ctx_plugin_name := ctx_plugin_name (context a);
                             config := config (context a);
                             data := <["tried" := PInt 1]> (data (context a)) |};
               _hooks := _hooks a |},
            w)
       | Some _ => (Return tt, a, w)
       end;
     on_disable := pass;
     on_unload := pass |}.

(** A plugin that registers a hook, refuses to be disabled, and unloads. *)
Definition stubborn : PluginClass :=
  {| info := PluginInfo_default "stubborn";
     init := pass;
     on_load := loads_hook "stubborn";
     on_enable := pass;
     on_disable := noted "stubborn.on_disable" true;
     on_unload := noted "stubborn.on_unload" false |}.

(** A plugin whose [on_unload] raises. *)
Definition clingy : PluginClass :=
  {| info := PluginInfo_default "clingy";
     init := pass;
     on_load := loads_hook "clingy";
     on_enable := pass;
     on_disable := noted "clingy.on_disable" false;
     on_unload := noted "clingy.on_unload" true |}.

(** A plugin whose [on_load] registers a hook and then raises. *)
Definition broken : PluginClass :=
  {| info := PluginInfo_default "broken";
     init := pass;
     on_load := fun a w =>
       (Raise "broken.on_load",
        register_hook (named "broken") "before_request" boom false HIGH a, w);
     on_enable := pass;
     on_disable := pass;
     on_unload := pass |}.

(** A plugin whose descriptor name, [other], is not the name of the module
    that defines it, [modname]; it registers a hook and refuses to be
    disabled. *)
Definition other : PluginClass :=
  {| info := PluginInfo_default "other";
     init := pass;
     on_load := loads_hook "other";
     on_enable := pass;
     on_disable := noted "other.on_disable" true;
     on_unload := noted "other.on_unload" false |}.

(** A plugin that can be neither disabled nor unloaded. *)
Definition stuck : PluginClass :=
  {| info := PluginInfo_default "stuck";
     init := pass;
     on_load := pass;
     on_enable := pass;
     on_disable := noted "stuck.on_disable" true;
     on_unload := noted "stuck.on_unload" true |}.

(** A plain class that supplies only [on_unload], under the decorator. *)
Definition only_unload : PlainClass :=
  {| cls_on_load := None; cls_on_enable := None; cls_on_disable := None;
     cls_on_unload := Some (noted "only_unload.on_unload" false) |}.

(** [@plugin("decorated") class ...] over [only_unload]. *)
Definition decorated : PluginClass :=
  plugin "decorated" "0.1.0" EmptyString EmptyString [] [] ∅ only_unload.

(** The modules that can be imported. *)
Definition import_module (name0 : string) (path : option string) (w : World)
    : result (list PluginClass) * World :=
  if decide (name0 = "sample") then (Return [sample], w)
  else if decide (name0 = "flaky") then (Return [flaky], w)
  else if decide (name0 = "stubborn") then (Return [stubborn], w)
  else if decide (name0 = "clingy") then (Return [clingy], w)
  else if decide (name0 = "broken") then (Return [broken], w)
  else if decide (name0 = "decorated") then (Return [decorated], w)
  else if decide (name0 = "modname") then (Return [other], w)
  else if decide (name0 = "stuck") then (Return [stuck], w)
  else if decide (name0 = "empty") then (Return [], w)
  else (Raise ("No module named " +:+ name0), w).

Definition manager0 : PluginManager := PluginManager_init ["./plugins"].

(** The state of the plugin registered under [name0], if any. *)
Definition state_of (name0 : string) (m : PluginManager) : option PluginState :=
  state <$> PluginRegistry_get name0 (registry m).

(** Owners of the handlers registered for [hook], in dispatch order. *)
Definition owners (hook : string) (m : PluginManager) : list string :=
  plugin_name <$> default [] (hooks (mgr_hooks m) !! hook).

(** The manager and the world after a history of operations, from a new
    manager and an empty world. *)
Definition after (ops : list operation) : PluginManager * World :=
  foldl (fun s op => perform import_module op s.1 s.2) (manager0, []) ops.

(** The [flaky] instance after a first, failed [enable]. *)
Definition flaky_failed : Plugin :=
  {| plugin_class := flaky;
     attrs := {| context := {| ctx_plugin_name := "flaky"; config := own_dict ∅;
                               data := {["tried" := PInt 1]} |};
                 _hooks := [] |};
     state := ERROR |}.

(** The manager after [load("flaky")] and a failed [enable("flaky")]. *)
Definition manager_flaky_error : PluginManager :=
  {| loader := {| plugin_dirs := ["./plugins"]; _loaded := {["flaky" := flaky]} |};
     registry := {| plugins := {["flaky" := flaky_failed]} |};
     mgr_hooks := HookManager_init;
     _configs := ∅ |}.

(** A newly built instance of [cls] for the name [name0]. *)
Definition fresh (cls : PluginClass) (name0 : string) : Plugin :=
  {| plugin_class := cls;
     attrs := {| context := load_context name0 manager0; _hooks := [] |};
     state := LOADED |}.

(** An instance of [cls] in state [s] whose [on_load] was [loads_hook]. *)
Definition hooked (cls : PluginClass) (name0 : string) (s : PluginState) : Plugin :=
  {| plugin_class := cls;
     attrs := register_hook cls "before_request" (add 1) false NORMAL
                (attrs (fresh cls name0));
     state := s |}.

(** Three handlers for hook [x]: [A] at priority high, [C] (raising) at
    normal, [B] at low, registered as [B], [A], [C]. *)
Definition hooks_x : HookManager :=
  register_all [reg "x" (add 2) "B" LOW; reg "x" (add 1) "A" HIGH; reg "x" boom "C" NORMAL]
               HookManager_init.

(** The filter chain [add_one], a raising handler, [double]. *)
Definition hooks_transform : HookManager :=
  register_all [reg "transform" (add 1) "p1" NORMAL; reg "transform" boom "p3" NORMAL;
                reg "transform" double "p2" NORMAL]
               HookManager_init.

(** [flaky_failed] after a second, successful [enable]. *)
Definition flaky_enabled : Plugin := set_state ENABLED flaky_failed.

(** Managers and worlds reached by short histories. *)
Definition sample_loaded : PluginManager * World := after [Load "sample" None].
Definition flaky_loaded : PluginManager * World := after [Load "flaky" None].
Definition stubborn_enabled : PluginManager * World :=
  after [Load "stubborn" None; Enable "stubborn"].
Definition clingy_enabled : PluginManager * World :=
  after [Load "clingy" None; Enable "clingy"].
Definition other_enabled : PluginManager * World :=
  after [Load "modname" None; Enable "other"].
Definition stuck_enabled : PluginManager * World :=
  after [Load "stuck" None; Enable "stuck"].

(** A file system: [./plugins] holds a module, a private module, a package
    and a text file; [./missing] does not exist and cannot be listed. *)
Definition fs : FileSystem :=
  {| path_exists := fun path =>
       bool_decide (path = "./plugins") || bool_decide (path = "./plugins/pkg/__init__.py");
     path_isdir := fun path =>
       bool_decide (path = "./plugins") || bool_decide (path = "./plugins/pkg");
     listdir := fun path =>
       if bool_decide (path = "./plugins")
       then Return ["sample.py"; "_private.py"; "pkg"; "notes.txt"]
       else Raise ("cannot list " +:+ path);
     path_join := fun a b => a +:+ "/" +:+ b |}.

(** A manager over [./plugins] and [./missing]. *)
Definition manager_two_dirs : PluginManager := PluginManager_init ["./plugins"; "./missing"].

(** A directory of four modules, of which the first two fail to load. *)
Definition fs_batch : FileSystem :=
  {| path_exists := fun path => bool_decide (path = "./plugins");
     path_isdir := fun path => bool_decide (path = "./plugins");
     listdir := fun path =>
       if bool_decide (path = "./plugins")
       then Return ["empty.py"; "broken.py"; "flaky.py"; "sample.py"]
       else Raise ("cannot list " +:+ path);
     path_join := fun a b => a +:+ "/" +:+ b |}.

(** A manager over a path that exists and is not a directory. *)
Definition manager_file_dir : PluginManager :=
  PluginManager_init ["./plugins/pkg/__init__.py"].

(** [lambda x: x] and [lambda *args: k]. *)
Definition echo : list Value -> gmap string Value -> M Value :=
  fun args _ w => (Return (hd PNone args), w).

Definition always (k : Z) : list Value -> gmap string Value -> M Value :=
  fun _ _ w => (Return (PInt k), w).

(** Three handlers for hook [y] that always return, the last one a coroutine
    function flagged asynchronous. *)
Definition hooks_total : HookManager :=
  register_all [reg "y" (always 7) "B" LOW; reg "y" echo "A" HIGH;
                reg_async "y" echo_async "C"]
               HookManager_init.

(** What the invocation of a registration gives on the single argument [v]
    in the empty world, [None] standing for a failure. *)
Definition returned (r : HookRegistration) (v : Value) : Value :=
  match (invoke r [v] ∅ []).1 with
  | Return x => x
  | Raise _ => PNone
  end.

(** Three registrations for hook [z]: a coroutine function flagged
    asynchronous, a function flagged asynchronous, and a coroutine function
    that is not flagged. *)
Definition hooks_z : HookManager :=
  register_all [reg_async "z" (add_async 2) "A"; reg_async "z" (add 1) "B";
                reg "z" (add_async 3) "C" LOW]
               HookManager_init.

(** Two hooks of a plugin [P]. *)
Definition hooks_of_P : list HookRegistration :=
  [reg "x" (add 1) "P" LOW; reg "y" boom "P" HIGH].

End Demo.

(** ** A runtime with dict objects

    Here a dict is an object of the world, found at its address, and a value
    refers to it by that address: whoever holds the value reads and writes
    the same items. *)

Module Heap.

Inductive pyval := PNone | PInt (z : Z) | PDict (address : N).

Record world := {
  lines : list string;
  dicts : gmap N (gmap string pyval)
}.

Definition print (line : string) (w : world) : world :=
  {| lines := lines w ++ [line]; dicts := dicts w |}.

#[local] Instance runtime : Runtime := {|
  Value := pyval;
  PyNone := PNone;
  Exn := string;
  exn_str := fun e => e;
  World := world;
  emit := fun _ msg w => print msg w;
  sys_modules_del := fun name0 w => print ("del " +:+ name0) w
|}.

(** [d[key] = v] *)
Definition setitem (d : Value) (key : string) (v : Value) (w : World)
    : result unit * World :=
  match d with
  | PDict address =>
      match dicts w !! address with
      | Some items =>
          (Return tt,
           {| lines := lines w; dicts := <[address := <[key := v]> items]> (dicts w) |})
      | None => (Raise "no such object", w)
      end
  | _ => (Raise "TypeError", w)
  end.

(** [self.context.config[key] = v] *)
Definition config_setitem (key : string) (v : Value) : method :=
  fun a w =>
    match config (context a) with
    | shared_dict d => let '(r, w') := setitem d key v w in (r, a, w')
    | own_dict items =>
        (Return tt,
         {| context := {| ctx_plugin_name := ctx_plugin_name (context a);
                          config := own_dict (<[key := v]> items);
                          data := data (context a) |};
            _hooks := _hooks a |},
         w)
    end.

(** A plugin whose [on_load] does [self.context.config["seen"] = 1]. *)
Definition writer : PluginClass :=
  {| info := PluginInfo_default "writer";
     init := pass;
     on_load := config_setitem "seen" (PInt 1);
     on_enable := pass;
     on_disable := pass;
     on_unload := pass |}.

Definition import_module (name0 : string) (path : option string) (w : World)
    : result (list PluginClass) * World :=
  if decide (name0 = "writer") then (Return [writer], w)
  else (Raise ("No module named " +:+ name0), w).

(** [manager._configs.get(name0)] as Python shows it, by its items. *)
Definition config_items (name0 : string) (self : PluginManager) (w : World)
    : option (gmap string pyval) :=
  match _configs self !! name0 with
  | Some (PDict address) => dicts w !! address
  | _ => None
  end.

(** The items of the [config] of the plugin registered under [name0]. *)
Definition plugin_config_items (name0 : string) (self : PluginManager) (w : World)
    : option (gmap string pyval) :=
  match config ∘ context ∘ attrs <$> PluginRegistry_get name0 (registry self) with
  | Some (shared_dict (PDict address)) => dicts w !! address
  | Some (own_dict items) => Some items
  | _ => None
  end.

(** A world in which the dict [{"k": 1}] is at address 0, and the manager
    after [set_config("writer", cfg)], [cfg] being that dict. *)
Definition world0 : World :=
  {| lines := []; dicts := {[0%N := {["k" := PInt 1]}]} |}.

Definition configured : PluginManager :=
  PluginManager_set_config "writer" (PDict 0) (PluginManager_init []).

End Heap.

(** * Properties *)

(** ** The stable sort *)

Section Sorting.

Context {A : Type} (key : A -> Z).

Lemma insert_by_key_sorted x l :
  StronglySorted (fun a b => key a <= key b) l ->
  StronglySorted (fun a b => key a <= key b) (insert_by_key key x l).
Proof.
  induction 1 as [|y l Hl IH Hy]; simpl.
  - repeat constructor.
  - destruct (Z.leb_spec (key x) (key y)) as [Hle|Hgt].
    + constructor; [by constructor|].
      constructor; [done|].
      eapply Forall_impl; [exact Hy|]. simpl. intros; lia.
    + constructor; [done|].
      assert (Hin : forall z, z ∈ insert_by_key key x l -> z = x \/ z ∈ l).
      { clear. induction l as [|a l IH]; simpl; intros z Hz.
        - apply list_elem_of_singleton in Hz. by left.
        - destruct (key x <=? key a).
          + apply elem_of_cons in Hz as [->|Hz]; [by left | by right].
          + apply elem_of_cons in Hz as [->|Hz]; [right; by left|].
            destruct (IH _ Hz) as [->|?]; [by left | right; by right]. }
      apply Forall_forall. intros z Hz.
      destruct (Hin _ Hz) as [->|Hz']; [lia|].
      rewrite Forall_forall in Hy. by apply Hy.
Qed.

Lemma list_sort_sorted l :
  StronglySorted (fun a b => key a <= key b) (list_sort key l).
Proof.
  induction l as [|x l IH]; simpl; [constructor|].
  by apply insert_by_key_sorted.
Qed.

Lemma insert_by_key_filter k x l :
  filter (fun a => key a = k) (insert_by_key key x l) =
  filter (fun a => key a = k) (x :: l).
Proof.
  induction l as [|y l IH]; simpl; [done|].
  destruct (Z.leb_spec (key x) (key y)) as [Hle|Hgt]; [done|].
  rewrite filter_cons, IH, !filter_cons.
  repeat case_decide; try done; lia.
Qed.

(** Stability: the elements of any one key come out in input order. *)
Lemma list_sort_stable k l :
  filter (fun a => key a = k) (list_sort key l) = filter (fun a => key a = k) l.
Proof.
  induction l as [|x l IH]; simpl; [done|].
  by rewrite insert_by_key_filter, !filter_cons, IH.
Qed.

Lemma insert_by_key_Permutation x l : insert_by_key key x l ≡ₚ x :: l.
Proof.
  induction l as [|y l IH]; simpl; [done|].
  destruct (key x <=? key y); [done|].
  by rewrite IH, Permutation_swap.
Qed.

Lemma list_sort_Permutation l : list_sort key l ≡ₚ l.
Proof.
  induction l as [|x l IH]; simpl; [done|].
  by rewrite insert_by_key_Permutation, IH.
Qed.

End Sorting.

(** ** The hook manager *)

Section HookProperties.

Context `{Runtime}.

Implicit Types (self : HookManager) (r registration : HookRegistration).
Implicit Types (regs handlers : list HookRegistration) (n owner : string).

Lemma priority_value_inj p q : priority_value p = priority_value q -> p = q.
Proof. by destruct p, q. Qed.

Lemma filter_by_priority p handlers :
  filter (fun h => priority h = p) handlers =
  filter (fun h => sort_key h = priority_value p) handlers.
Proof.
  apply list_filter_iff. intros h. unfold sort_key.
  split; [by intros ->|apply priority_value_inj].
Qed.

(** What [register] leaves under each hook name. *)
Lemma register_lookup r self n :
  hooks (HookManager_register r self) !! n =
  if decide (name r = n)
  then Some (list_sort sort_key (default [] (hooks self !! n) ++ [r]))
  else hooks self !! n.
Proof.
  unfold HookManager_register; simpl.
  case_decide as Hn.
  - subst n. rewrite lookup_insert_eq.
    destruct (hooks self !! name r) eqn:E; simpl.
    + by rewrite E.
    + by rewrite lookup_insert_eq.
  - rewrite lookup_insert_ne by done.
    destruct (hooks self !! name r) eqn:E; [done|].
    by rewrite lookup_insert_ne.
Qed.

Lemma register_all_snoc regs r self :
  register_all (regs ++ [r]) self = HookManager_register r (register_all regs self).
Proof. unfold register_all. by rewrite foldl_app. Qed.

(** After any [register] call, whatever the list held before, the list of the
    registration's hook name is ordered by priority value. *)
Lemma register_sorted r self :
  StronglySorted (fun a b => sort_key a <= sort_key b)
    (default [] (hooks (HookManager_register r self) !! name r)).
Proof.
  rewrite register_lookup. rewrite decide_True by done. simpl.
  apply list_sort_sorted.
Qed.

(** C4. Starting from an empty hook manager, after any sequence [regs] of
    [register] calls the list stored for a hook name [n] is in non-decreasing
    order of priority value, and for each priority the registrations of that
    priority appear in the order in which they were registered; the list
    holds exactly the registrations made for [n]. *)
Theorem register_keeps_sorted_and_stable regs n :
  let stored := default [] (hooks (register_all regs HookManager_init) !! n) in
  by_priority stored
  /\ (forall p : HookPriority,
        filter (fun h => priority h = p) stored =
        filter (fun h => priority h = p) (filter (fun h => name h = n) regs))
  /\ stored ≡ₚ filter (fun h => name h = n) regs.
Proof.
  simpl. unfold by_priority. induction regs as [|r regs IH] using rev_ind.
  - simpl. rewrite lookup_empty. simpl. split; [constructor|done].
  - rewrite register_all_snoc, register_lookup, filter_app, filter_cons, filter_nil.
    destruct IH as (IHs & IHf & IHp).
    case_decide as Hn; simpl.
    + split; [apply list_sort_sorted|]. split.
      * intros p. specialize (IHf p). rewrite !filter_by_priority in *.
        by rewrite list_sort_stable, !filter_app, IHf.
      * by rewrite list_sort_Permutation, IHp.
    + rewrite app_nil_r. done.
Qed.

(** *** [unregister] *)

Lemma sum_over_empty f : sum_over f ∅ = 0%nat.
Proof. unfold sum_over. by rewrite map_fold_empty. Qed.

Lemma sum_over_insert f (m : gmap string (list HookRegistration)) i x :
  m !! i = None -> sum_over f (<[i := x]> m) = (sum_over f m + f x)%nat.
Proof.
  intros Hi. unfold sum_over.
  rewrite map_fold_insert_L; [done| |done].
  intros. lia.
Qed.

Lemma sum_over_fmap f g (m : gmap string (list HookRegistration)) :
  sum_over f (g <$> m) = sum_over (fun l => f (g l)) m.
Proof.
  induction m as [|i x m Hi IH] using map_ind.
  - by rewrite fmap_empty, !sum_over_empty.
  - rewrite fmap_insert, !sum_over_insert, ?IH; [done..|].
    by rewrite lookup_fmap, Hi.
Qed.

Lemma sum_over_plus f g (m : gmap string (list HookRegistration)) :
  sum_over (fun l => (f l + g l)%nat) m = (sum_over f m + sum_over g m)%nat.
Proof.
  induction m as [|i x m Hi IH] using map_ind.
  - by rewrite !sum_over_empty.
  - rewrite !sum_over_insert, ?IH by done. lia.
Qed.

Lemma sum_over_ext f g (m : gmap string (list HookRegistration)) :
  (forall l, f l = g l) -> sum_over f m = sum_over g m.
Proof.
  intros Hfg. induction m as [|i x m Hi IH] using map_ind.
  - by rewrite !sum_over_empty.
  - by rewrite !sum_over_insert, ?IH, Hfg.
Qed.

Lemma length_filter_split owner handlers :
  length handlers =
  (length (filter (fun h => plugin_name h ≠ owner) handlers) +
   length (filter (fun h => plugin_name h = owner) handlers))%nat.
Proof.
  induction handlers as [|h l IH]; [done|].
  rewrite !filter_cons. simpl.
  destruct (decide (plugin_name h = owner)).
  - rewrite decide_False by naive_solver. simpl. lia.
  - rewrite decide_True by done. simpl. lia.
Qed.

(** The loop of [unregister], from any starting count and map: every list
    visited is replaced by its filtered version, and the count grows by the
    lengths lost. *)
Lemma unregister_loop owner (c0 : nat) (h0 m : gmap string (list HookRegistration)) :
  map_fold
    (fun (name0 : string) handlers (acc : nat * gmap string (list HookRegistration)) =>
       ((acc.1 + (length handlers -
                  length (filter (fun h => plugin_name h ≠ owner) handlers)))%nat,
        <[name0 := filter (fun h => plugin_name h ≠ owner) handlers]> acc.2))
    (c0, h0) m =
  ((c0 + sum_over (fun l => length (filter (fun h => plugin_name h = owner) l)) m)%nat,
   (filter (fun h => plugin_name h ≠ owner) <$> m) ∪ h0).
Proof.
  apply (map_fold_weak_ind (fun acc (m' : gmap string (list HookRegistration)) =>
    acc = ((c0 + sum_over (fun l => length (filter (fun h => plugin_name h = owner) l)) m')%nat,
           (filter (fun h => plugin_name h ≠ owner) <$> m') ∪ h0))).
  - rewrite sum_over_empty, fmap_empty, (left_id_L ∅ (∪)). f_equal. lia.
  - intros i x m' acc Hi ->. simpl.
    rewrite sum_over_insert by done.
    rewrite fmap_insert, <- insert_union_l. f_equal.
    pose proof (length_filter_split owner x). lia.
Qed.

Lemma unregister_unfold owner self :
  HookManager_unregister owner self =
  (owned_count owner self,
   {| hooks := filter (fun h => plugin_name h ≠ owner) <$> hooks self |}).
Proof.
  unfold HookManager_unregister. rewrite unregister_loop. simpl.
  unfold owned_count. do 2 f_equal.
  apply map_eq. intros i. rewrite lookup_union, !lookup_fmap.
  by destruct (hooks self !! i).
Qed.

Lemma unregister_leaves_none_owned owner self :
  owned_count owner (HookManager_unregister owner self).2 = 0%nat.
Proof.
  rewrite unregister_unfold. unfold owned_count. simpl. rewrite sum_over_fmap.
  rewrite (sum_over_ext _ (fun _ => 0%nat)).
  - induction (hooks self) as [|i x m Hi IH] using map_ind.
    + by rewrite sum_over_empty.
    + by rewrite sum_over_insert, IH.
  - intros l. induction l as [|h l IH]; [done|].
    rewrite filter_cons. case_decide; [|done].
    rewrite filter_cons. by rewrite decide_False.
Qed.

Lemma by_priority_filter (P : HookRegistration -> Prop) `{!forall h, Decision (P h)}
    handlers :
  by_priority handlers -> by_priority (filter P handlers).
Proof.
  unfold by_priority. induction 1 as [|h l Hl IH Hh]; [constructor|].
  rewrite filter_cons. case_decide; [|done].
  constructor; [done|].
  apply Forall_forall. intros x Hx. apply list_elem_of_filter in Hx as [_ Hx].
  rewrite Forall_forall in Hh. by apply Hh.
Qed.

(** Every list of a hook manager made by [register] and [unregister] is in
    priority order. *)
Lemma built_by_priority self n :
  built self -> by_priority (default [] (hooks self !! n)).
Proof.
  induction 1 as [|r self Hb IH|owner self Hb IH].
  - simpl. rewrite lookup_empty. constructor.
  - rewrite register_lookup. case_decide; [|done]. apply list_sort_sorted.
  - rewrite unregister_unfold. simpl. rewrite lookup_fmap.
    destruct (hooks self !! n) as [l|]; simpl in *; [|constructor].
    by apply by_priority_filter.
Qed.

Lemma register_all_built regs self : built self -> built (register_all regs self).
Proof.
  revert self. induction regs as [|r regs IH]; intros self Hb; [done|].
  simpl. apply IH. by constructor.
Qed.

(** C7. [unregister owner] replaces the list of every hook name by the
    sublist of its registrations whose owner differs from [owner], in their
    former order and under the same name; the count returned is the number of
    registrations owned by [owner] before the call, none is owned by [owner]
    after it, and the total number of registrations drops by the count. *)
Theorem unregister_removes_exactly_owner owner self :
  let count := (HookManager_unregister owner self).1 in
  let self' := (HookManager_unregister owner self).2 in
  (forall n, hooks self' !! n =
             filter (fun h => plugin_name h ≠ owner) <$> hooks self !! n)
  /\ count = owned_count owner self
  /\ owned_count owner self' = 0%nat
  /\ total_count self = (total_count self' + count)%nat.
Proof.
  rewrite unregister_unfold. simpl. split; [|split; [|split]].
  - intros n. by rewrite lookup_fmap.
  - done.
  - pose proof (unregister_leaves_none_owned owner self) as Hz.
    by rewrite unregister_unfold in Hz.
  - unfold total_count, owned_count. simpl.
    rewrite sum_over_fmap, <- sum_over_plus.
    apply sum_over_ext. intros l. apply length_filter_split.
Qed.

End HookProperties.

(** ** Dispatch *)

Section DispatchProperties.

Context `{Awaiting}.

Implicit Types (self : HookManager) (handlers : list HookRegistration).
Implicit Types (args results : list Value) (kwargs : gmap string Value) (w : World).

(** What the code does with one handler is the invocation of the
    specification. *)
Lemma call_handler_invoke (r : HookRegistration) args kwargs w :
  call_handler r args kwargs w = invoke r args kwargs w.
Proof.
  unfold call_handler, invoke, bind, await, raise.
  destruct (async_handler r), (handler r args kwargs w) as [[v|e] w1]; try done.
  by destruct (awaitable v).
Qed.

(** The loop of [execute] from any list of results gathered so far. *)
Lemma execute_loop name0 handlers args kwargs results w :
  for_each handlers (fun registration results =>
    try_except
      (let* result := call_handler registration args kwargs in
       ret (results ++ [result]))
      (fun e =>
         run logger LOG_ERROR ("Hook " +:+ name0 +:+ " handler error: " +:+ exn_str e) in
         ret (results ++ [PyNone]))) results w =
  (Return (results ++ (fan_out name0 handlers args kwargs w).1),
   (fan_out name0 handlers args kwargs w).2).
Proof.
  revert results w. induction handlers as [|r handlers IH]; intros results w; simpl.
  - unfold ret. by rewrite app_nil_r.
  - unfold bind at 1, try_except, bind at 1, ret, logger.
    rewrite call_handler_invoke.
    destruct (invoke r args kwargs w) as [[v|e] w1]; simpl.
    + rewrite IH. destruct (fan_out name0 handlers args kwargs w1) as [vs w2]. simpl.
      by rewrite <- app_assoc.
    + unfold bind. rewrite IH.
      destruct (fan_out name0 handlers args kwargs _) as [vs w2]. simpl.
      by rewrite <- app_assoc.
Qed.

Lemma fan_out_length name0 handlers args kwargs w :
  length (fan_out name0 handlers args kwargs w).1 = length handlers.
Proof.
  revert w. induction handlers as [|r handlers IH]; intros w; simpl; [done|].
  destruct (invoke r args kwargs w) as [[v|e] w1].
  - specialize (IH w1). destruct (fan_out name0 handlers args kwargs w1). simpl in *. lia.
  - match goal with |- context [fan_out name0 handlers args kwargs ?w'] =>
      specialize (IH w'); destruct (fan_out name0 handlers args kwargs w') end.
    simpl in *. lia.
Qed.

(** Position by position: the result is the outcome of invoking that
    handler, or [None] when the invocation failed, in the world that the
    dispatch of the handlers before it left. *)
Lemma fan_out_lookup name0 handlers args kwargs w i (r : HookRegistration) :
  handlers !! i = Some r ->
  (fan_out name0 handlers args kwargs w).1 !! i =
  Some match (invoke r args kwargs (fan_out name0 (take i handlers) args kwargs w).2).1 with
       | Return v => v
       | Raise _ => PyNone
       end.
Proof.
  revert w i. induction handlers as [|r0 handlers IH]; intros w i Hi; [done|].
  destruct i as [|i]; simpl in *.
  - injection Hi as ->.
    destruct (invoke r args kwargs w) as [[v|e] w1]; simpl.
    + by destruct (fan_out name0 handlers args kwargs w1).
    + by destruct (fan_out name0 handlers args kwargs _).
  - destruct (invoke r0 args kwargs w) as [[v|e] w1]; simpl.
    + specialize (IH w1 i Hi).
      destruct (fan_out name0 handlers args kwargs w1) as [vs w2].
      destruct (fan_out name0 (take i handlers) args kwargs w1) as [vs' w2'].
      exact IH.
    + match goal with |- context [fan_out name0 handlers args kwargs ?w'] =>
        specialize (IH w' i Hi);
        destruct (fan_out name0 handlers args kwargs w') as [vs w2];
        destruct (fan_out name0 (take i handlers) args kwargs w') as [vs' w2'] end.
      exact IH.
Qed.

(** The outcome of an invocation, read off the handler. *)
Lemma invoke_outcome (r : HookRegistration) args kwargs w :
  match (invoke r args kwargs w).1 with
  | Return v => v
  | Raise _ => PyNone
  end =
  match handler r args kwargs w with
  | (Raise _, _) => PyNone
  | (Return returned, w1) =>
      if async_handler r
      then match awaitable returned with
           | Some completion =>
               match (completion w1).1 with
               | Return v => v
               | Raise _ => PyNone
               end
           | None => PyNone
           end
      else returned
  end.
Proof.
  unfold invoke. destruct (handler r args kwargs w) as [[v|e] w1]; [|done].
  destruct (async_handler r); [|done]. by destruct (awaitable v).
Qed.

(** C5. [execute] always returns (it does not raise, whatever the handlers
    do).  It goes through the handlers stored for the name from first to
    last, which is priority order in a hook manager made by [register] and
    [unregister], and calls each one with the arguments in the world that the
    handlers before it left; when the registration is flagged asynchronous,
    what the call returned is awaited.  It returns one result per handler, in
    that order: what the handler returned (once awaited, for a registration
    flagged asynchronous), or [None] when the call raised, when the awaited
    coroutine raised, or when what the call returned could not be awaited.
    When nothing is stored for the name the result is the empty list and the
    world is untouched. *)
Theorem execute_returns_one_result_per_handler self name0 args kwargs w :
  let handlers := default [] (hooks self !! name0) in
  let out := fan_out name0 handlers args kwargs w in
  HookManager_execute self name0 args kwargs w = (Return out.1, out.2)
  /\ (built self -> by_priority handlers)
  /\ length out.1 = length handlers
  /\ (forall i r, handlers !! i = Some r ->
        out.1 !! i =
          Some match handler r args kwargs
                       (fan_out name0 (take i handlers) args kwargs w).2 with
               | (Raise _, _) => PyNone
               | (Return returned, w1) =>
                   if async_handler r
                   then match awaitable returned with
                        | Some completion =>
                            match (completion w1).1 with
                            | Return v => v
                            | Raise _ => PyNone
                            end
                        | None => PyNone
                        end
                   else returned
               end)
  /\ (handlers = [] ->
        HookManager_execute self name0 args kwargs w = (Return [], w)).
Proof.
  simpl. unfold HookManager_execute. rewrite execute_loop. simpl.
  repeat split.
  - apply built_by_priority.
  - apply fan_out_length.
  - intros i r Hi. rewrite <- invoke_outcome. by apply fan_out_lookup.
  - by intros ->.
Qed.

(** The loop of [execute_filter]. *)
Lemma execute_filter_loop name0 handlers value args kwargs w :
  for_each handlers (fun registration value =>
    try_except
      (call_handler registration (value :: args) kwargs)
      (fun e =>
         run logger LOG_ERROR ("Filter hook " +:+ name0 +:+ " error: " +:+ exn_str e) in
         ret value)) value w =
  (Return (filter_chain name0 handlers value args kwargs w).1,
   (filter_chain name0 handlers value args kwargs w).2).
Proof.
  revert value w. induction handlers as [|r handlers IH]; intros value w; simpl; [done|].
  unfold bind at 1, try_except, ret, logger.
  rewrite call_handler_invoke.
  destruct (invoke r (value :: args) kwargs w) as [[v|e] w1]; simpl; [by rewrite IH|].
  unfold bind. by rewrite IH.
Qed.

(** C6. [execute_filter] always returns.  It passes the value through the
    handlers stored for the name from first to last, which is priority order
    in a hook manager made by [register] and [unregister], each handler being
    called with the current value before the extra arguments; when the
    registration is flagged asynchronous, what the call returned is awaited.
    What the handler returned (once awaited, for a registration flagged
    asynchronous) is the value passed on; when the call raised, when the
    awaited coroutine raised or when what the call returned could not be
    awaited, the error is logged, the value stays as it was and the chain
    goes on.  When nothing is stored for the name the value comes back
    unchanged. *)
Theorem execute_filter_threads_value self name0 value args kwargs w :
  let handlers := default [] (hooks self !! name0) in
  let out := filter_chain name0 handlers value args kwargs w in
  let failed e w' :=
    emit LOG_ERROR ("Filter hook " +:+ name0 +:+ " error: " +:+ exn_str e) w' in
  HookManager_execute_filter self name0 value args kwargs w = (Return out.1, out.2)
  /\ (built self -> by_priority handlers)
  /\ (forall r rest, handlers = r :: rest ->
        match handler r (value :: args) kwargs w with
        | (Raise e, w1) => out = filter_chain name0 rest value args kwargs (failed e w1)
        | (Return returned, w1) =>
            if async_handler r
            then match awaitable returned with
                 | Some completion =>
                     match completion w1 with
                     | (Return v, w2) => out = filter_chain name0 rest v args kwargs w2
                     | (Raise e, w2) =>
                         out = filter_chain name0 rest value args kwargs (failed e w2)
                     end
                 | None =>
                     out = filter_chain name0 rest value args kwargs
                             (failed (await_error returned) w1)
                 end
            else out = filter_chain name0 rest returned args kwargs w1
        end)
  /\ (handlers = [] ->
        HookManager_execute_filter self name0 value args kwargs w = (Return value, w)).
Proof.
  simpl. unfold HookManager_execute_filter. rewrite execute_filter_loop.
  repeat split.
  - apply built_by_priority.
  - intros r rest ->. simpl. unfold invoke.
    destruct (handler r (value :: args) kwargs w) as [[v|e] w1]; [|done].
    destruct (async_handler r); [|done].
    destruct (awaitable v) as [c|]; [|done].
    by destruct (c w1) as [[v'|e] w2].
  - by intros ->.
Qed.

End DispatchProperties.

(** ** The lifecycle *)

Section TransitionProperties.

Context `{Runtime}.

Implicit Types (self : PluginManager) (w : World) (p q : Plugin).
Implicit Types (n : string) (cls : PluginClass).

Local Abbreviation get n self := (PluginRegistry_get n (registry self)) (only parsing).

(** Case analysis on the outcome of a lifecycle callback. *)
Local Ltac callback c :=
  let r := fresh "r" in let a := fresh "a" in let w := fresh "w" in
  let e := fresh "e" in let E := fresh "E" in
  destruct c as [[[[]|e] a] w] eqn:E.

Lemma get_update_plugin name0 p self n :
  get n (update_plugin name0 p self) =
  if decide (name0 = n) then Some p else get n self.
Proof.
  unfold PluginRegistry_get, update_plugin; simpl.
  case_decide; [subst; apply lookup_insert_eq | by apply lookup_insert_ne].
Qed.

(** *** [enable] and [disable] on the registry *)

Lemma enable_lookup name0 self w n p :
  get n self = Some p ->
  exists p', get n (PluginManager_enable name0 self w).1.2 = Some p'
    /\ plugin_class p' = plugin_class p
    /\ (state p' = state p
        \/ (n = name0 /\ state p <> ENABLED /\ (state p' = ENABLED \/ state p' = ERROR))).
Proof.
  intros Hn. unfold PluginManager_enable.
  destruct (get name0 self) as [q|] eqn:Hq; [|by eauto].
  case_decide as Hs; [by eauto|].
  callback (on_enable (plugin_class q) (attrs q) w); cbn [fst snd];
    rewrite get_update_plugin; case_decide; subst; eauto;
    rewrite Hq in Hn; injection Hn as ->; eexists; (split; [done|]); simpl; eauto 8.
Qed.

Lemma disable_lookup name0 self w n p :
  get n self = Some p ->
  exists p', get n (PluginManager_disable name0 self w).1.2 = Some p'
    /\ plugin_class p' = plugin_class p
    /\ (state p' = state p
        \/ (n = name0 /\ state p <> DISABLED /\ state p' = DISABLED)).
Proof.
  intros Hn. unfold PluginManager_disable.
  destruct (get name0 self) as [q|] eqn:Hq; [|by eauto].
  case_decide as Hs; [by eauto|].
  callback (on_disable (plugin_class q) (attrs q) w); cbn [fst snd];
    rewrite get_update_plugin; case_decide; subst; eauto;
    rewrite Hq in Hn; injection Hn as ->; eexists; (split; [done|]); simpl; eauto 8.
Qed.

Lemma enable_absent name0 self w n :
  get n self = None -> get n (PluginManager_enable name0 self w).1.2 = None.
Proof.
  intros Hn. unfold PluginManager_enable.
  destruct (get name0 self) as [q|] eqn:Hq; [|done].
  case_decide; [done|].
  callback (on_enable (plugin_class q) (attrs q) w); cbn [fst snd];
    rewrite get_update_plugin; case_decide; subst; congruence.
Qed.

Lemma disable_absent name0 self w n :
  get n self = None -> get n (PluginManager_disable name0 self w).1.2 = None.
Proof.
  intros Hn. unfold PluginManager_disable.
  destruct (get name0 self) as [q|] eqn:Hq; [|done].
  case_decide; [done|].
  callback (on_disable (plugin_class q) (attrs q) w); cbn [fst snd];
    rewrite get_update_plugin; case_decide; subst; congruence.
Qed.

(** [enable] and [disable] touch the registry only. *)
Lemma enable_frame name0 self w :
  let self' := (PluginManager_enable name0 self w).1.2 in
  loader self' = loader self /\ mgr_hooks self' = mgr_hooks self
  /\ _configs self' = _configs self.
Proof.
  simpl. unfold PluginManager_enable.
  destruct (get name0 self) as [q|]; [|done].
  case_decide; [done|].
  by callback (on_enable (plugin_class q) (attrs q) w).
Qed.

Lemma disable_frame name0 self w :
  let self' := (PluginManager_disable name0 self w).1.2 in
  loader self' = loader self /\ mgr_hooks self' = mgr_hooks self
  /\ _configs self' = _configs self.
Proof.
  simpl. unfold PluginManager_disable.
  destruct (get name0 self) as [q|]; [|done].
  case_decide; [done|].
  by callback (on_disable (plugin_class q) (attrs q) w).
Qed.

(** *** [unload] *)

Lemma implicit_disable_lookup name0 q self w n p :
  get n self = Some p ->
  exists p', get n (implicit_disable name0 q self w).1 = Some p'
    /\ plugin_class p' = plugin_class p
    /\ (state p' = state p
        \/ (n = name0 /\ state q = ENABLED /\ state p <> DISABLED /\ state p' = DISABLED)).
Proof.
  intros Hn. unfold implicit_disable. case_decide as Hs; [|by eauto].
  destruct (disable_lookup name0 self w n p Hn) as (p' & Hp' & Hc & Hst).
  destruct (PluginManager_disable name0 self w) as [[b s] w']. simpl in *.
  exists p'. intuition.
Qed.

Lemma implicit_disable_frame name0 q self w :
  let self' := (implicit_disable name0 q self w).1 in
  loader self' = loader self /\ mgr_hooks self' = mgr_hooks self
  /\ _configs self' = _configs self.
Proof.
  simpl. unfold implicit_disable. case_decide; [|done].
  pose proof (disable_frame name0 self w) as Hf.
  by destruct (PluginManager_disable name0 self w) as [[b s] w'].
Qed.

Lemma unload_lookup name0 self w n p p' :
  get n self = Some p ->
  get n (PluginManager_unload name0 self w).1.2 = Some p' ->
  state p' = state p \/ (n = name0 /\ state p = ENABLED /\ state p' = DISABLED).
Proof.
  intros Hn. unfold PluginManager_unload.
  destruct (get name0 self) as [q|] eqn:Hq; [|simpl; intros; left; congruence].
  destruct (implicit_disable_lookup name0 q self w n p Hn) as (p1 & Hp1 & _ & Hst).
  destruct (implicit_disable_lookup name0 q self w name0 q Hq) as (q1 & Hq1 & _ & _).
  destruct (implicit_disable name0 q self w) as [self1 w1]. simpl in Hp1, Hq1.
  rewrite Hq1. simpl.
  callback (on_unload (plugin_class q1) (attrs q1) w1).
  - destruct (HookManager_unregister name0 (mgr_hooks self1)) as [c hooks2].
    destruct (PluginLoader_unload name0 (loader self1) w0) as [[b loader2] w3].
    simpl. unfold PluginRegistry_get. simpl. intros Hd.
    apply lookup_delete_Some in Hd as [Hne Hd].
    unfold PluginRegistry_get in Hp1. rewrite Hp1 in Hd. injection Hd as <-.
    destruct Hst as [?|(? & _)]; [by left | congruence].
  - cbn [fst snd]. rewrite get_update_plugin. case_decide as Hd.
    + subst n. intros [= <-]. simpl.
      rewrite Hq in Hn. injection Hn as <-.
      rewrite Hq1 in Hp1. injection Hp1 as <-.
      destruct Hst as [?|(_ & ? & _ & ?)]; [by left | by right].
    + rewrite Hp1. intros [= <-].
      destruct Hst as [?|(? & _)]; [by left | congruence].
Qed.

Lemma unload_absent name0 self w n :
  get n self = None -> get n (PluginManager_unload name0 self w).1.2 = None.
Proof.
  intros Hn. unfold PluginManager_unload.
  destruct (get name0 self) as [q|] eqn:Hq; [|done].
  assert (Hn1 : get n (implicit_disable name0 q self w).1 = None).
  { unfold implicit_disable. case_decide; [|done].
    pose proof (disable_absent name0 self w n Hn).
    by destruct (PluginManager_disable name0 self w) as [[b s] w']. }
  destruct (implicit_disable_lookup name0 q self w name0 q Hq) as (q1 & Hq1 & _ & _).
  destruct (implicit_disable name0 q self w) as [self1 w1]. simpl in Hn1, Hq1.
  rewrite Hq1. simpl.
  callback (on_unload (plugin_class q1) (attrs q1) w1).
  - destruct (HookManager_unregister name0 (mgr_hooks self1)) as [c hooks2].
    destruct (PluginLoader_unload name0 (loader self1) w0) as [[b loader2] w3].
    simpl. unfold PluginRegistry_get in *. simpl.
    apply lookup_delete_None. by right.
  - cbn [fst snd]. rewrite get_update_plugin. case_decide; [|done].
    subst. unfold PluginRegistry_get in *. congruence.
Qed.

(** *** When a transition callback raises *)

(** C9, as the code has it. When [on_enable] raises, [enable] returns [False]
    and the state becomes [error]. When [on_disable] raises, [disable]
    returns [False] and the state is unchanged. When [on_unload] raises,
    [unload] returns [False], the plugin stays in the registry, and the hook
    manager and the loader are untouched. The state is then the one before
    the call for a plugin that was not [enabled]; a plugin that was [enabled]
    has gone through the implicit disable: it is [disabled] when
    [on_disable] returned, and still [enabled] when [on_disable] raised. *)
Theorem transition_failure_policy :
  (forall name0 self w p e a w1,
     get name0 self = Some p -> state p <> ENABLED ->
     on_enable (plugin_class p) (attrs p) w = (Raise e, a, w1) ->
     (PluginManager_enable name0 self w).1.1 = false
     /\ state <$> get name0 (PluginManager_enable name0 self w).1.2 = Some ERROR)
  /\ (forall name0 self w p e a w1,
        get name0 self = Some p -> state p <> DISABLED ->
        on_disable (plugin_class p) (attrs p) w = (Raise e, a, w1) ->
        (PluginManager_disable name0 self w).1.1 = false
        /\ state <$> get name0 (PluginManager_disable name0 self w).1.2 = Some (state p))
  /\ (forall name0 self w p self1 w1 p1 e a w2,
        get name0 self = Some p ->
        implicit_disable name0 p self w = (self1, w1) ->
        get name0 self1 = Some p1 ->
        on_unload (plugin_class p1) (attrs p1) w1 = (Raise e, a, w2) ->
        (PluginManager_unload name0 self w).1.1 = false
        /\ mgr_hooks (PluginManager_unload name0 self w).1.2 = mgr_hooks self
        /\ loader (PluginManager_unload name0 self w).1.2 = loader self
        /\ exists p', get name0 (PluginManager_unload name0 self w).1.2 = Some p'
             /\ (state p <> ENABLED -> state p' = state p)
             /\ (state p = ENABLED ->
                 match (on_disable (plugin_class p) (attrs p) w).1.1 with
                 | Return _ => state p' = DISABLED
                 | Raise _ => state p' = ENABLED
                 end)).
Proof.
  split; [|split].
  - intros name0 self w p e a w1 Hp Hs Hc.
    unfold PluginManager_enable. rewrite Hp, decide_False, Hc by done.
    cbn [fst snd]. by rewrite get_update_plugin, decide_True.
  - intros name0 self w p e a w1 Hp Hs Hc.
    unfold PluginManager_disable. rewrite Hp, decide_False, Hc by done.
    cbn [fst snd]. by rewrite get_update_plugin, decide_True.
  - intros name0 self w p self1 w1 p1 e a w2 Hp Hd Hp1 Hc.
    destruct (implicit_disable_frame name0 p self w) as (Hl & Hh & _).
    rewrite Hd in Hl, Hh. simpl in Hl, Hh.
    unfold PluginManager_unload. rewrite Hp, Hd, Hp1. simpl. rewrite Hc.
    cbn [fst snd]. repeat split; [done..|].
    exists (set_attrs a p1). rewrite get_update_plugin, decide_True by done.
    split; [done|]. simpl.
    unfold implicit_disable in Hd. split.
    + intros Hs. rewrite decide_False in Hd by done. injection Hd as <- <-.
      rewrite Hp in Hp1. by injection Hp1 as <-.
    + intros Hs. rewrite decide_True in Hd by done.
      unfold PluginManager_disable in Hd. rewrite Hp, decide_False in Hd by congruence.
      callback (on_disable (plugin_class p) (attrs p) w);
        injection Hd as <- <-; rewrite get_update_plugin, decide_True in Hp1 by done;
        injection Hp1 as <-; done.
Qed.

(** C10, as the code has it. Unloading an enabled plugin whose [on_disable]
    raises: the failure of the implicit disable is logged and dropped,
    [on_unload] is called next, on the instance and in the world that the
    failed disable left, and when it returns, [unload] returns [True], with
    the hooks owned by the name unregistered and the instance out of the
    registry. The loader drops what it has cached under the name given to
    [unload], and the module of that name, when there is such an entry, and
    nothing else: the class of the plugin is evicted when it was cached under
    that name, and stays cached under any other name it was loaded as. *)
Theorem unload_goes_on_after_disable_failure name0 self w p e a1 w1 u a2 w2 :
  get name0 self = Some p ->
  state p = ENABLED ->
  on_disable (plugin_class p) (attrs p) w = (Raise e, a1, w1) ->
  on_unload (plugin_class p) a1
    (emit LOG_ERROR ("Failed to disable plugin " +:+ name0 +:+ ": " +:+ exn_str e) w1)
    = (Return u, a2, w2) ->
  (PluginManager_unload name0 self w).1.1 = true
  /\ (PluginManager_unload name0 self w).2 =
     emit INFO ("Unloaded plugin: " +:+ name0)
          match _loaded (loader self) !! name0 with
          | Some _ => sys_modules_del name0 w2
          | None => w2
          end
  /\ get name0 (PluginManager_unload name0 self w).1.2 = None
  /\ mgr_hooks (PluginManager_unload name0 self w).1.2 =
     (HookManager_unregister name0 (mgr_hooks self)).2
  /\ owned_count name0 (mgr_hooks (PluginManager_unload name0 self w).1.2) = 0%nat
  /\ loader (PluginManager_unload name0 self w).1.2 =
     {| plugin_dirs := plugin_dirs (loader self);
        _loaded := delete name0 (_loaded (loader self)) |}
  /\ (forall n, _loaded (loader self) !! n = Some (plugin_class p) ->
        _loaded (loader (PluginManager_unload name0 self w).1.2) !! n =
        if decide (n = name0) then None else Some (plugin_class p)).
Proof.
  intros Hp Hs Hd Hu.
  assert (Hi : implicit_disable name0 p self w =
               (update_plugin name0 (set_attrs a1 p) self,
                emit LOG_ERROR
                  ("Failed to disable plugin " +:+ name0 +:+ ": " +:+ exn_str e) w1)).
  { unfold implicit_disable, PluginManager_disable.
    rewrite decide_True, Hp, decide_False, Hd by (done || congruence). done. }
  unfold PluginManager_unload. rewrite Hp, Hi.
  rewrite get_update_plugin, decide_True by done. simpl. rewrite Hu.
  pose proof (unregister_leaves_none_owned name0 (mgr_hooks self)) as Hz.
  destruct (HookManager_unregister name0 (mgr_hooks self)) as [c hooks2]. simpl in Hz.
  unfold PluginLoader_unload, PluginRegistry_get.
  destruct (loader self) as [dirs cache]. simpl.
  destruct (cache !! name0) eqn:El; simpl.
  all: rewrite ?lookup_delete_eq.
  all: repeat (split; [done|]).
  - intros n Hn. case_decide as Hne; [subst; apply lookup_delete_eq|].
    by rewrite lookup_delete_ne.
  - split; [by rewrite delete_id|].
    intros n Hn. case_decide as Hne; [congruence|done].
Qed.

End TransitionProperties.

(** ** Loading and the transition graph *)

Section LoadProperties.

Context `{Runtime}.
Variable import_module :
  string -> option string -> World -> result (list PluginClass) * World.

Implicit Types (self : PluginManager) (w : World) (p q : Plugin).
Implicit Types (n : string) (cls : PluginClass).

Local Abbreviation get n self := (PluginRegistry_get n (registry self)) (only parsing).

(** Case analysis on the outcome of a lifecycle callback. *)
Local Ltac callback c :=
  let r := fresh "r" in let a := fresh "a" in let w := fresh "w" in
  let e := fresh "e" in let E := fresh "E" in
  destruct c as [[[[]|e] a] w] eqn:E.

(** *** [load] *)

Lemma instantiate_Return cls ctx w p w' :
  instantiate cls ctx w = (Return p, w') -> state p = LOADED /\ plugin_class p = cls.
Proof.
  unfold instantiate. callback (init cls {| context := ctx; _hooks := [] |} w); [|done].
  by intros [= <- _].
Qed.

Lemma load_lookup name0 path self w n p' :
  get n (PluginManager_load import_module name0 path self w).1.2 = Some p' ->
  get n self = Some p' \/ state p' = LOADED.
Proof.
  unfold PluginManager_load.
  destruct (PluginLoader_load import_module name0 path (loader self) w) as [[[cls|] l1] w1];
    [|by left].
  destruct (instantiate cls (load_context name0 self) w1) as [[q|e] w2] eqn:Ei; [|by left].
  apply instantiate_Return in Ei as [Hs Hc].
  callback (on_load cls (attrs q) w2); [|by left].
  cbn [fst snd registry]. unfold PluginRegistry_get, PluginRegistry_register. simpl.
  intros Hl. apply lookup_insert_Some in Hl as [[_ <-]|[_ Hl]]; [by right | by left].
Qed.

Lemma reload_lookup name0 self w n p p' :
  get n self = Some p ->
  get n (PluginManager_reload import_module name0 self w).1.2 = Some p' ->
  state p' = state p \/ state p' = LOADED
  \/ (n = name0 /\ state p = ENABLED /\ state p' = DISABLED).
Proof.
  intros Hn. unfold PluginManager_reload.
  destruct (get name0 self) as [q|] eqn:Hq.
  - pose proof (unload_lookup name0 self w n p) as Hu.
    destruct (PluginManager_unload name0 self w) as [[b self1] w1]. simpl in Hu.
    intros Hl. apply load_lookup in Hl as [Hl|Hl]; [|by auto].
    destruct (Hu p' Hn Hl) as [?|?]; auto.
  - intros Hl. apply load_lookup in Hl as [Hl|Hl]; [|by auto].
    left. congruence.
Qed.

(** *** The transition graph *)

Lemma perform_manager op self w :
  (perform import_module op self w).1 =
  match op with
  | Load name0 path => (PluginManager_load import_module name0 path self w).1.2
  | Enable name0 => (PluginManager_enable name0 self w).1.2
  | Disable name0 => (PluginManager_disable name0 self w).1.2
  | Unload name0 => (PluginManager_unload name0 self w).1.2
  | Reload name0 => (PluginManager_reload import_module name0 self w).1.2
  | SetConfig name0 config0 => PluginManager_set_config name0 config0 self
  end.
Proof.
  destruct op as [m path|m|m|m|m|m c]; simpl; [| | | | |done].
  - by destruct (PluginManager_load import_module m path self w) as [[? ?] ?].
  - by destruct (PluginManager_enable m self w) as [[? ?] ?].
  - by destruct (PluginManager_disable m self w) as [[? ?] ?].
  - by destruct (PluginManager_unload m self w) as [[? ?] ?].
  - by destruct (PluginManager_reload import_module m self w) as [[? ?] ?].
Qed.

(** What one operation may do to the state found under a name. *)
Lemma perform_step op self w n p p' :
  get n self = Some p ->
  get n (perform import_module op self w).1 = Some p' ->
  state p' = state p \/
  match op with
  | Enable m => m = n /\ state p <> ENABLED /\ (state p' = ENABLED \/ state p' = ERROR)
  | Disable m => m = n /\ state p <> DISABLED /\ state p' = DISABLED
  | Unload m => m = n /\ state p = ENABLED /\ state p' = DISABLED
  | Load _ _ => state p' = LOADED
  | Reload m => state p' = LOADED \/ (m = n /\ state p = ENABLED /\ state p' = DISABLED)
  | SetConfig _ _ => False
  end.
Proof.
  intros Hn. rewrite perform_manager. destruct op as [m path|m|m|m|m|m c].
  - intros Hl. apply load_lookup in Hl as [Hl|Hl]; [left; congruence | by right].
  - destruct (enable_lookup m self w n p Hn) as (q & -> & _ & Hst).
    intros [= <-]. destruct Hst as [?|(-> & ? & ?)]; auto.
  - destruct (disable_lookup m self w n p Hn) as (q & -> & _ & Hst).
    intros [= <-]. destruct Hst as [?|(-> & ? & ?)]; auto.
  - intros Hl. destruct (unload_lookup m self w n p p' Hn Hl) as [?|(-> & ? & ?)]; auto.
  - intros Hl.
    destruct (reload_lookup m self w n p p' Hn Hl) as [?|[?|(-> & ? & ?)]]; auto 6.
  - simpl. rewrite Hn. intros [= <-]. by left.
Qed.

(** C1, as the code has it. Under one name of the registry:
    - state [enabled] is entered only by [enable] of that name, and [enable]
      enters it from every state other than [enabled], [error] included,
      when [on_enable] returns;
    - state [error] is entered only by [enable] of that name, when
      [on_enable] raises;
    - state [disabled] is entered only by [disable] of that name, from every
      state other than [disabled], or by the implicit disable of [unload] or
      [reload] of that name on an enabled plugin; when [on_disable] raises
      the state stays as it was;
    - state [loaded] appears only with the fresh instance stored by [load]
      or [reload], and state [discovered] is never entered. *)
Theorem lifecycle_transitions :
  (forall op self w n p p',
     get n self = Some p ->
     get n (perform import_module op self w).1 = Some p' ->
     state p' <> state p ->
     (state p' = ENABLED -> op = Enable n)
     /\ (state p' = ERROR -> op = Enable n)
     /\ (state p' = DISABLED ->
         op = Disable n \/ (state p = ENABLED /\ (op = Unload n \/ op = Reload n)))
     /\ (state p' = LOADED ->
         exists name0, (exists path, op = Load name0 path) \/ op = Reload name0)
     /\ state p' <> DISCOVERED)
  /\ (forall name0 self w p,
        get name0 self = Some p -> state p <> ENABLED ->
        match (on_enable (plugin_class p) (attrs p) w).1.1 with
        | Return _ =>
            (PluginManager_enable name0 self w).1.1 = true /\
            state <$> get name0 (PluginManager_enable name0 self w).1.2 = Some ENABLED
        | Raise _ =>
            (PluginManager_enable name0 self w).1.1 = false /\
            state <$> get name0 (PluginManager_enable name0 self w).1.2 = Some ERROR
        end)
  /\ (forall name0 self w p,
        get name0 self = Some p -> state p <> DISABLED ->
        match (on_disable (plugin_class p) (attrs p) w).1.1 with
        | Return _ =>
            (PluginManager_disable name0 self w).1.1 = true /\
            state <$> get name0 (PluginManager_disable name0 self w).1.2 = Some DISABLED
        | Raise _ =>
            (PluginManager_disable name0 self w).1.1 = false /\
            state <$> get name0 (PluginManager_disable name0 self w).1.2 = Some (state p)
        end).
Proof.
  split; [|split].
  - intros op self w n p p' Hn Hn' Hne.
    destruct (perform_step op self w n p p' Hn Hn') as [?|Hop]; [done|].
    destruct op; repeat split; intros Hs; rewrite ?Hs in Hop;
      try (destruct Hop as (-> & ? & [?|?])); try (destruct Hop as (-> & ? & ?));
      try (destruct Hop as [?|(-> & ? & ?)]);
      try done; try congruence; eauto 6.
  - intros name0 self w p Hp Hs. unfold PluginManager_enable. rewrite Hp.
    rewrite decide_False by done.
    callback (on_enable (plugin_class p) (attrs p) w); cbn [fst snd];
      rewrite get_update_plugin, decide_True by done; done.
  - intros name0 self w p Hp Hs. unfold PluginManager_disable. rewrite Hp.
    rewrite decide_False by done.
    callback (on_disable (plugin_class p) (attrs p) w); cbn [fst snd];
      rewrite get_update_plugin, decide_True by done; done.
Qed.

(** The manager writes its hook manager through [register] and [unregister]
    only. *)
Lemma perform_built op self w :
  built (mgr_hooks self) -> built (mgr_hooks (perform import_module op self w).1).
Proof.
  assert (Hload : forall m path s w0,
            built (mgr_hooks s) ->
            built (mgr_hooks (PluginManager_load import_module m path s w0).1.2)).
  { intros m path s w0 Hb. unfold PluginManager_load.
    destruct (PluginLoader_load import_module m path (loader s) w0) as [[[cls|] l1] w1];
      [|done].
    destruct (instantiate cls (load_context m s) w1) as [[q|e] w2]; [|done].
    callback (on_load cls (attrs q) w2); [|done].
    simpl. by apply (register_all_built (_hooks a) (mgr_hooks s)). }
  assert (Hunload : forall m s w0,
            built (mgr_hooks s) -> built (mgr_hooks (PluginManager_unload m s w0).1.2)).
  { intros m s w0 Hb. unfold PluginManager_unload.
    destruct (PluginRegistry_get m (registry s)) as [q|]; [|done].
    destruct (implicit_disable_frame m q s w0) as (_ & Hh & _).
    destruct (implicit_disable m q s w0) as [s1 w1]. simpl in Hh.
    destruct (PluginRegistry_get m (registry s1)) as [q1|]; simpl.
    - callback (on_unload (plugin_class q1) (attrs q1) w1).
      + pose proof (built_unregister m (mgr_hooks s1)) as Hu. rewrite Hh in Hu.
        specialize (Hu Hb). rewrite Hh.
        destruct (HookManager_unregister m (mgr_hooks s)) as [c h2].
        by destruct (PluginLoader_unload m (loader s1) w2) as [[b l2] w3].
      + simpl. by rewrite Hh.
    - callback (on_unload (plugin_class q) (attrs q) w1).
      + pose proof (built_unregister m (mgr_hooks s1)) as Hu. rewrite Hh in Hu.
        specialize (Hu Hb). rewrite Hh.
        destruct (HookManager_unregister m (mgr_hooks s)) as [c h2].
        by destruct (PluginLoader_unload m (loader s1) w2) as [[b l2] w3].
      + simpl. by rewrite Hh. }
  intros Hb. rewrite perform_manager. destruct op as [m path|m|m|m|m|m c].
  - by apply Hload.
  - by destruct (enable_frame m self w) as (_ & -> & _).
  - by destruct (disable_frame m self w) as (_ & -> & _).
  - by apply Hunload.
  - unfold PluginManager_reload.
    destruct (PluginRegistry_get m (registry self)) as [q|]; [|by apply Hload].
    specialize (Hunload m self w Hb).
    destruct (PluginManager_unload m self w) as [[b s1] w1]. by apply Hload.
  - done.
Qed.

(** *** Loading *)


(** C8. When loading fails, because the loader yields no class or because the
    constructor or [on_load] raises, [load] returns [None] and the registry
    and the hook manager are what they were before the call. *)
Theorem load_failure_keeps_registry_and_hooks name0 path self w :
  load_failure import_module name0 path self w ->
  (PluginManager_load import_module name0 path self w).1.1 = None
  /\ registry (PluginManager_load import_module name0 path self w).1.2 = registry self
  /\ mgr_hooks (PluginManager_load import_module name0 path self w).1.2 = mgr_hooks self.
Proof.
  unfold PluginManager_load.
  intros [Hr | cls l1 w1 e w2 Hl Hi | cls l1 w1 q w2 e a w3 Hl Hi Ho].
  - destruct (PluginLoader_load import_module name0 path (loader self) w)
      as [[[cls|] l1] w1]; [done|]. done.
  - by rewrite Hl, Hi.
  - by rewrite Hl, Hi, Ho.
Qed.

(** Whenever [load] returns [None], the registry and the hook manager are
    unchanged. *)
Lemma load_None_keeps_registry_and_hooks name0 path self w :
  (PluginManager_load import_module name0 path self w).1.1 = None ->
  registry (PluginManager_load import_module name0 path self w).1.2 = registry self
  /\ mgr_hooks (PluginManager_load import_module name0 path self w).1.2 = mgr_hooks self.
Proof.
  unfold PluginManager_load.
  destruct (PluginLoader_load import_module name0 path (loader self) w)
    as [[[cls|] l1] w1]; [|done].
  destruct (instantiate cls (load_context name0 self) w1) as [[q|e] w2]; [|done].
  by callback (on_load cls (attrs q) w2).
Qed.

End LoadProperties.

(** ** The decorator *)

Section DecoratorProperties.

Context `{Runtime}.

(** The lifecycle methods of a decorated class: three forward to the class
    under the decorator, [on_unload] is the one of [Plugin]. *)
Lemma plugin_methods name0 version0 description0 author0 deps hooks0 schema
    (cls : PlainClass) :
  let wrapper := plugin name0 version0 description0 author0 deps hooks0 schema cls in
  on_load wrapper = forward (cls_on_load cls)
  /\ on_enable wrapper = forward (cls_on_enable cls)
  /\ on_disable wrapper = forward (cls_on_disable cls)
  /\ on_unload wrapper = pass.
Proof. done. Qed.

End DecoratorProperties.

(** * Further properties *)

(** ** The stable sort, continued *)

Section StableSort.

Context {A : Type} (key : A -> Z).

Implicit Types l xs ys : list A.

Local Abbreviation sorted := (StronglySorted (fun a b => key a <= key b)).

Lemma sorted_filter (P : A -> Prop) `{!forall x, Decision (P x)} l :
  sorted l -> sorted (filter P l).
Proof.
  induction 1 as [|x l Hl IH Hx]; [constructor|].
  rewrite filter_cons. case_decide; [|done].
  constructor; [done|].
  apply Forall_forall. intros y Hy. apply list_elem_of_filter in Hy as [_ Hy].
  rewrite Forall_forall in Hx. by apply Hx.
Qed.

Lemma filter_key_comm (P : A -> Prop) `{!forall x, Decision (P x)} k l :
  filter (fun a => key a = k) (filter P l) = filter P (filter (fun a => key a = k) l).
Proof.
  rewrite !list_filter_filter. apply list_filter_iff. intros x. tauto.
Qed.

Lemma filter_filter_nil (P Q : A -> Prop)
    `{!forall x, Decision (P x), !forall x, Decision (Q x)} l :
  (forall x, P x -> Q x -> False) -> filter P (filter Q l) = [].
Proof.
  intros HPQ. induction l as [|x l IH]; [done|].
  rewrite filter_cons. case_decide; [|done].
  rewrite filter_cons_False; [done|]. eauto.
Qed.

Lemma filter_all (P : A -> Prop) `{!forall x, Decision (P x)} l :
  Forall P l -> filter P l = l.
Proof.
  induction 1 as [|x l Hx Hl IH]; [done|]. by rewrite filter_cons_True, IH.
Qed.

(** Two lists in key order that agree key by key are equal. *)
Lemma stable_sorted_unique l1 l2 :
  sorted l1 -> sorted l2 ->
  (forall k, filter (fun a => key a = k) l1 = filter (fun a => key a = k) l2) ->
  l1 = l2.
Proof.
  intros H1. revert l2. induction H1 as [|x l1 Hl1 IH Hx]; intros l2 H2 Hf.
  - destruct l2 as [|y l2]; [done|].
    specialize (Hf (key y)). rewrite filter_nil, filter_cons_True in Hf by done. done.
  - destruct l2 as [|y l2].
    { specialize (Hf (key x)). rewrite filter_cons_True in Hf by done. done. }
    apply StronglySorted_inv in H2 as [H2 Hy].
    assert (Hxy : key x = key y).
    { assert (Hx2 : x ∈ y :: l2).
      { pose proof (Hf (key x)) as Hk. rewrite filter_cons_True in Hk by done.
        assert (x ∈ filter (fun a => key a = key x) (y :: l2)) as Hin
          by (rewrite <- Hk; left).
        by apply list_elem_of_filter in Hin as [_ ?]. }
      assert (Hy1 : y ∈ x :: l1).
      { pose proof (Hf (key y)) as Hk. rewrite (filter_cons_True _ y) in Hk by done.
        assert (y ∈ filter (fun a => key a = key y) (x :: l1)) as Hin
          by (rewrite Hk; left).
        by apply list_elem_of_filter in Hin as [_ ?]. }
      rewrite Forall_forall in Hx, Hy.
      apply elem_of_cons in Hx2 as [->|Hx2]; [done|].
      apply elem_of_cons in Hy1 as [->|Hy1]; [done|].
      specialize (Hx _ Hy1). specialize (Hy _ Hx2). lia. }
    assert (x = y) as <-.
    { specialize (Hf (key x)).
      rewrite !filter_cons_True in Hf by done. congruence. }
    f_equal. apply IH; [done|]. intros k. specialize (Hf k).
    rewrite !filter_cons in Hf. case_decide; congruence.
Qed.

Lemma list_sort_unique l l' :
  sorted l' ->
  (forall k, filter (fun a => key a = k) l' = filter (fun a => key a = k) l) ->
  l' = list_sort key l.
Proof.
  intros Hs Hf. apply stable_sorted_unique; [done|apply list_sort_sorted|].
  intros k. by rewrite list_sort_stable.
Qed.

(** Sorting a list that is in key order changes nothing. *)
Lemma list_sort_sorted_id l : sorted l -> list_sort key l = l.
Proof. intros Hs. symmetry. by apply list_sort_unique. Qed.

Lemma list_sort_app_sorted xs ys :
  list_sort key (list_sort key xs ++ ys) = list_sort key (xs ++ ys).
Proof.
  symmetry. apply list_sort_unique; [apply list_sort_sorted|].
  intros k. by rewrite list_sort_stable, !filter_app, list_sort_stable.
Qed.

(** Filtering commutes with the sort. *)
Lemma list_sort_filter (P : A -> Prop) `{!forall x, Decision (P x)} l :
  filter P (list_sort key l) = list_sort key (filter P l).
Proof.
  apply list_sort_unique; [apply sorted_filter, list_sort_sorted|].
  intros k. by rewrite !filter_key_comm, list_sort_stable.
Qed.

(** Where the sort puts a new last element of a list in key order: after
    the elements whose key is at most its own, before the others. *)
Lemma list_sort_snoc l x :
  sorted l ->
  list_sort key (l ++ [x]) =
  filter (fun a => key a <= key x) l ++ x :: filter (fun a => key x < key a) l.
Proof.
  intros Hs. symmetry. apply list_sort_unique.
  - apply StronglySorted_app_2; [|by apply sorted_filter|].
    + intros y z Hy Hz. apply list_elem_of_filter in Hy as [Hy _].
      apply elem_of_cons in Hz as [->|Hz]; [done|].
      apply list_elem_of_filter in Hz as [Hz _]. lia.
    + constructor; [by apply sorted_filter|].
      apply Forall_forall. intros y Hy. apply list_elem_of_filter in Hy as [? _]. lia.
  - intros k. rewrite !filter_app, !filter_cons, filter_nil.
    destruct (decide (key x = k)) as [<-|Hne].
    + rewrite (list_filter_filter_l (fun a => key a = key x)) by (intros; lia).
      rewrite (filter_filter_nil (fun a => key a = key x)) by (intros; lia). done.
    + destruct (decide (k <= key x)).
      * rewrite (list_filter_filter_l (fun a => key a = k)) by (intros; lia).
        rewrite (filter_filter_nil (fun a => key a = k)) by (intros; lia).
        by rewrite !app_nil_r.
      * rewrite (filter_filter_nil (fun a => key a = k)) by (intros; lia).
        rewrite (list_filter_filter_l (fun a => key a = k)) by (intros; lia).
        by rewrite app_nil_r.
Qed.

(** X23. The list the sort returns is characterised by two properties: it
    is in key order, and for every key it holds the elements of that key in
    the order of the input. Any stable sort, [list.sort] among them, returns
    this list. *)
Theorem list_sort_characterised l l' :
  l' = list_sort key l <->
  sorted l' /\
  (forall k, filter (fun a => key a = k) l' = filter (fun a => key a = k) l).
Proof.
  split.
  - intros ->. split; [apply list_sort_sorted|]. intros k. apply list_sort_stable.
  - intros [Hs Hf]. apply stable_sorted_unique; [done|apply list_sort_sorted|].
    intros k. by rewrite list_sort_stable.
Qed.

End StableSort.

(** ** The hook manager, continued *)

Section HookExtras.

Context `{Runtime}.

Implicit Types (self : HookManager) (r : HookRegistration).
Implicit Types (regs handlers : list HookRegistration) (n owner : string).

(** From lists in priority order, a batch of [register] calls leaves under
    each name the stable sort of the old list followed by the batch. *)
Lemma register_all_lookup regs self n :
  by_priority (default [] (hooks self !! n)) ->
  default [] (hooks (register_all regs self) !! n) =
  list_sort sort_key (default [] (hooks self !! n) ++ filter (fun h => name h = n) regs).
Proof.
  intros Hs. induction regs as [|r regs IH] using rev_ind.
  - simpl. rewrite app_nil_r. symmetry. by apply list_sort_sorted_id.
  - rewrite register_all_snoc, register_lookup, filter_app, filter_cons, filter_nil.
    case_decide; simpl.
    + by rewrite IH, list_sort_app_sorted, <- app_assoc.
    + by rewrite IH, app_nil_r.
Qed.

(** X1. In a hook manager made by [register] and [unregister], registering a
    batch of hooks one call after the other stores, under every hook name,
    what a single stable sort by priority of the old list followed by the
    batch's hooks of that name gives: the re-sort at each call adds nothing
    to the final order. *)
Theorem register_all_is_one_sort regs self n :
  built self ->
  default [] (hooks (register_all regs self) !! n) =
  list_sort sort_key (default [] (hooks self !! n) ++ filter (fun h => name h = n) regs).
Proof.
  intros Hb. pose proof (built_by_priority self n Hb) as Hs.
  induction regs as [|r regs IH] using rev_ind.
  - simpl. rewrite app_nil_r. symmetry. by apply list_sort_sorted_id.
  - rewrite register_all_snoc, register_lookup, filter_app, filter_cons, filter_nil.
    case_decide; simpl.
    + by rewrite IH, list_sort_app_sorted, <- app_assoc.
    + by rewrite IH, app_nil_r.
Qed.

(** X2. In a hook manager made by [register] and [unregister], a new
    registration is stored after the handlers of its hook whose priority value
    is at most its own, and before those of greater value, which keep their
    order: among equals, the first registered runs first. *)
Theorem register_position r self :
  built self ->
  let old := default [] (hooks self !! name r) in
  default [] (hooks (HookManager_register r self) !! name r) =
  filter (fun h => priority_value (priority h) <= priority_value (priority r)) old
  ++ r :: filter (fun h => priority_value (priority r) < priority_value (priority h)) old.
Proof.
  intros Hb. cbv zeta. rewrite register_lookup, decide_True by done. simpl.
  apply (list_sort_snoc sort_key). by apply built_by_priority.
Qed.

(** X3. [register] adds one to the handler count that [list_hooks] reports
    for the registration's hook name (starting from zero for a new name) and
    leaves the other counts as they are. *)
Theorem list_hooks_register r self :
  HookManager_list_hooks (HookManager_register r self) =
  <[name r := S (default 0%nat (HookManager_list_hooks self !! name r))]>
    (HookManager_list_hooks self).
Proof.
  apply map_eq. intros n. unfold HookManager_list_hooks.
  rewrite lookup_fmap, register_lookup.
  destruct (decide (name r = n)) as [<-|Hne].
  - rewrite lookup_insert_eq, lookup_fmap. simpl.
    rewrite (list_sort_Permutation sort_key), length_app. simpl.
    destruct (hooks self !! name r); simpl; f_equal; lia.
  - by rewrite lookup_insert_ne, lookup_fmap.
Qed.

(** X4. [unregister] never removes a hook name: [list_hooks] reports the same
    names after it, each with the number of its handlers that other plugins
    own, zero included. *)
Theorem list_hooks_unregister owner self :
  dom (HookManager_list_hooks (HookManager_unregister owner self).2) =
  dom (HookManager_list_hooks self)
  /\ forall n,
       HookManager_list_hooks (HookManager_unregister owner self).2 !! n =
       (fun l => length (filter (fun h => plugin_name h ≠ owner) l)) <$> hooks self !! n.
Proof.
  rewrite unregister_unfold. unfold HookManager_list_hooks. simpl. split.
  - by rewrite !dom_fmap_L.
  - intros n. rewrite !lookup_fmap. by destruct (hooks self !! n).
Qed.

(** X5. A second [unregister] of the same owner removes nothing: it returns 0
    and leaves the hook manager as the first call left it. *)
Theorem unregister_twice owner self :
  HookManager_unregister owner (HookManager_unregister owner self).2 =
  (0%nat, (HookManager_unregister owner self).2).
Proof.
  rewrite (unregister_unfold owner (HookManager_unregister owner self).2).
  rewrite unregister_leaves_none_owned. f_equal.
  rewrite unregister_unfold. simpl. f_equal.
  rewrite <- map_fmap_compose. apply map_fmap_ext. intros i l _. simpl.
  apply list_filter_filter_l. done.
Qed.

(** How [register] changes a sum over the hook names. *)
Lemma sum_over_register f r self :
  (forall l l', l ≡ₚ l' -> f l = f l') ->
  sum_over f (hooks (HookManager_register r self)) =
  (sum_over f (hooks self) + f (default [] (hooks self !! name r) ++ [r])
   - match hooks self !! name r with Some l => f l | None => 0 end)%nat.
Proof.
  intros Hf. unfold HookManager_register.
  destruct (hooks self !! name r) as [l|] eqn:E; simpl.
  - rewrite E. simpl.
    rewrite <- (insert_delete_eq (hooks self)), sum_over_insert by apply lookup_delete_eq.
    rewrite <- (insert_id (hooks self) _ _ E) at 2.
    rewrite <- (insert_delete_eq (hooks self)), sum_over_insert by apply lookup_delete_eq.
    rewrite (Hf _ _ (list_sort_Permutation sort_key (l ++ [r]))). lia.
  - rewrite lookup_insert_eq, insert_insert_eq. simpl.
    rewrite sum_over_insert by done. lia.
Qed.

Lemma owned_count_register owner r self :
  owned_count owner (HookManager_register r self) =
  (owned_count owner self + if decide (plugin_name r = owner) then 1 else 0)%nat.
Proof.
  unfold owned_count. rewrite sum_over_register.
  - rewrite filter_app, length_app, filter_cons, filter_nil.
    destruct (hooks self !! name r) as [l|]; case_decide; simpl; lia.
  - intros l l' Hl. by rewrite Hl.
Qed.

Lemma owned_count_register_all owner regs self :
  owned_count owner (register_all regs self) =
  (owned_count owner self + length (filter (fun h => plugin_name h = owner) regs))%nat.
Proof.
  induction regs as [|r regs IH] using rev_ind; [simpl; lia|].
  rewrite register_all_snoc, owned_count_register, IH.
  rewrite filter_app, length_app, filter_cons, filter_nil.
  case_decide; simpl; lia.
Qed.

Lemma owned_count_zero owner self :
  (forall n h, h ∈ default [] (hooks self !! n) -> plugin_name h ≠ owner) ->
  owned_count owner self = 0%nat.
Proof.
  unfold owned_count. destruct self as [m]. simpl.
  induction m as [|i x m Hi IH] using map_ind; intros Hm.
  - apply sum_over_empty.
  - rewrite sum_over_insert by done. rewrite IH.
    + assert (Hx : filter (fun h => plugin_name h = owner) x = []); [|by rewrite Hx].
      pose proof (Hm i) as Hmi. rewrite lookup_insert_eq in Hmi. simpl in Hmi.
      clear IH Hm. induction x as [|h x IHx]; [done|].
      rewrite filter_cons_False; [|apply Hmi; left].
      apply IHx. intros h' Hh'. apply Hmi. by right.
    + intros n h Hh. apply (Hm n).
      destruct (decide (i = n)) as [<-|?];
        [rewrite Hi in Hh; simpl in Hh; by apply elem_of_nil in Hh|].
      by rewrite lookup_insert_ne.
Qed.

Lemma unregister_register_all_same owner regs self :
  built self ->
  (forall n h, h ∈ default [] (hooks self !! n) -> plugin_name h ≠ owner) ->
  Forall (fun h => plugin_name h = owner) regs ->
  same_handlers (HookManager_unregister owner (register_all regs self)).2 self.
Proof.
  intros Hb Hnone Hall. rewrite unregister_unfold. intros n. simpl. rewrite lookup_fmap.
  pose proof (register_all_lookup regs self n (built_by_priority self n Hb)) as Hl.
  assert (Hk : filter (fun h => plugin_name h ≠ owner) (default [] (hooks self !! n))
               = default [] (hooks self !! n))
    by (apply filter_all; apply Forall_forall, Hnone).
  assert (Hr : filter (fun h => plugin_name h ≠ owner)
                 (filter (fun h => name h = n) regs) = []).
  { clear -Hall. induction Hall as [|h l' Hh Hl IH]; [done|].
    rewrite filter_cons. case_decide; [|done].
    by rewrite filter_cons_False by (intros ?; done). }
  destruct (hooks (register_all regs self) !! n) as [l|] eqn:E; simpl in *.
  - rewrite Hl, list_sort_filter, filter_app, Hr, app_nil_r, Hk.
    apply list_sort_sorted_id. by apply built_by_priority.
  - destruct (default [] (hooks self !! n)) as [|h l'] eqn:El; [done|].
    exfalso. assert (Hp : [] ≡ₚ (h :: l') ++ filter (fun h => name h = n) regs)
      by (by rewrite Hl, list_sort_Permutation).
    simpl in Hp. by apply Permutation_nil_cons in Hp.
Qed.

(** X6. Round trip of a plugin's hooks: in a hook manager made by [register]
    and [unregister] that holds no hook of [owner], registering any hooks
    owned by [owner] and then unregistering [owner] returns the number of
    hooks registered and gives back, under every hook name, the handler list
    there was (a name that was missing now has an empty list). *)
Theorem register_unregister_round_trip owner regs self :
  built self ->
  (forall n h, h ∈ default [] (hooks self !! n) -> plugin_name h ≠ owner) ->
  Forall (fun h => plugin_name h = owner) regs ->
  (HookManager_unregister owner (register_all regs self)).1 = length regs
  /\ same_handlers (HookManager_unregister owner (register_all regs self)).2 self.
Proof.
  intros Hb Hnone Hall. split; [|by apply unregister_register_all_same].
  rewrite unregister_unfold. simpl.
  rewrite owned_count_register_all, owned_count_zero by done. simpl. f_equal.
  induction Hall as [|h l Hh Hl IH]; [done|].
  by rewrite filter_cons_True, IH.
Qed.

End HookExtras.

(** ** Dispatch, continued *)

Section DispatchExtras.

Context `{Awaiting}.

Implicit Types (self : HookManager) (handlers : list HookRegistration).
Implicit Types (args : list Value) (kwargs : gmap string Value) (w : World).

Lemma invoke_returns_value (r : HookRegistration) args kwargs v w :
  returns_value r args kwargs v -> invoke r args kwargs w = (Return v, w).
Proof.
  intros Hr. specialize (Hr w). unfold invoke.
  destruct (async_handler r).
  - destruct Hr as (co & c & -> & -> & ->). done.
  - by rewrite Hr.
Qed.

(** X7. When every handler stored for the name returns a value without
    touching the world (a function registered as synchronous that returns
    it, or a coroutine function registered as asynchronous whose coroutine
    returns it), [execute] returns the list of these values, in the order of
    the stored list, and leaves the world as it is. *)
Theorem execute_with_returning_handlers self name0 args kwargs
    (g : HookRegistration -> Value) w :
  (forall r, r ∈ default [] (hooks self !! name0) -> returns_value r args kwargs (g r)) ->
  HookManager_execute self name0 args kwargs w =
  (Return (g <$> default [] (hooks self !! name0)), w).
Proof.
  intros Hg. unfold HookManager_execute. rewrite execute_loop. simpl.
  induction (default [] (hooks self !! name0)) as [|r l IH]; [done|].
  simpl. rewrite (invoke_returns_value r args kwargs (g r)) by (apply Hg; left).
  assert (IH' : (Return (fan_out name0 l args kwargs w).1,
                 (fan_out name0 l args kwargs w).2) = (Return (g <$> l), w)).
  { apply IH. intros r' Hr'. apply Hg. by right. }
  destruct (fan_out name0 l args kwargs w) as [vs w2]. simpl in IH' |- *.
  by injection IH' as -> ->.
Qed.

(** X8. When every handler stored for the name returns a function of the
    value it receives without touching the world (as a function registered as
    synchronous, or as a coroutine function registered as asynchronous),
    [execute_filter] returns the composition of these functions, applied in
    the order of the stored list, to the initial value. *)
Theorem execute_filter_composes self name0 value args kwargs
    (f : HookRegistration -> Value -> Value) w :
  (forall r, r ∈ default [] (hooks self !! name0) ->
     forall v, returns_value r (v :: args) kwargs (f r v)) ->
  HookManager_execute_filter self name0 value args kwargs w =
  (Return (foldl (fun v r => f r v) value (default [] (hooks self !! name0))), w).
Proof.
  intros Hf. unfold HookManager_execute_filter. rewrite execute_filter_loop.
  revert value. induction (default [] (hooks self !! name0)) as [|r l IH]; intros value;
    [done|].
  simpl. rewrite (invoke_returns_value r (value :: args) kwargs (f r value))
    by (apply Hf; left).
  apply IH. intros r' Hr'. apply Hf. by right.
Qed.


End DispatchExtras.

(** ** The loader *)

Section LoaderExtras.

Context `{Runtime}.
Variable import_module :
  string -> option string -> World -> result (list PluginClass) * World.

Implicit Types (self : PluginLoader) (w : World) (cls : PluginClass).

Lemma loader_load_Some name0 path self w cls self1 w1 :
  PluginLoader_load import_module name0 path self w = (Some cls, self1, w1) ->
  _loaded self1 !! name0 = Some cls
  /\ plugin_dirs self1 = plugin_dirs self
  /\ (forall n, n <> name0 -> _loaded self1 !! n = _loaded self !! n)
  /\ (_loaded self !! name0 = None -> _loaded self1 = <[name0 := cls]> (_loaded self)).
Proof.
  unfold PluginLoader_load.
  destruct (_loaded self !! name0) as [c|] eqn:E.
  - intros [= <- <- <-]. by rewrite E.
  - destruct (import_module name0 path w) as [[[|attr l]|e] w2]; [done| |done].
    intros [= <- <- <-]. simpl. rewrite lookup_insert_eq.
    split; [done|]. split; [done|]. split; [|done].
    intros n Hn. by rewrite lookup_insert_ne.
Qed.

(** X9. The loader memoizes by name. After a [load] that returned a class,
    any later [load] of the same name returns that class and leaves the
    loader and the world untouched, whatever the path given and whatever
    could be imported by then; a [load] that returned [None] has cached
    nothing. *)
Theorem loader_memoizes name0 path self w :
  (forall cls self1 w1,
     PluginLoader_load import_module name0 path self w = (Some cls, self1, w1) ->
     forall import' path' w',
       PluginLoader_load import' name0 path' self1 w' = (Some cls, self1, w'))
  /\ (forall self1 w1,
        PluginLoader_load import_module name0 path self w = (None, self1, w1) ->
        self1 = self).
Proof.
  split.
  - intros cls self1 w1 Hl import' path' w'.
    apply loader_load_Some in Hl as (Hc & _). unfold PluginLoader_load. by rewrite Hc.
  - intros self1 w1. unfold PluginLoader_load.
    destruct (_loaded self !! name0) as [c|]; [done|].
    destruct (import_module name0 path w) as [[[|attr l]|e] w2]; congruence.
Qed.

Lemma loader_unload_after_load name0 self path w cls self1 w1 :
  _loaded self !! name0 = None ->
  PluginLoader_load import_module name0 path self w = (Some cls, self1, w1) ->
  forall w', PluginLoader_unload name0 self1 w' = (true, self, sys_modules_del name0 w').
Proof.
  intros Hn Hl w'. apply loader_load_Some in Hl as (Hc & Hd & _ & Hi).
  unfold PluginLoader_unload. rewrite Hc, Hd, (Hi Hn), delete_insert_id by done.
  by destruct self.
Qed.

(** X10. Loader round trip. [unload] of a name that is not cached returns
    [False] and changes nothing. After a [load] that imported a class for a
    name that was not cached, [unload] of the name returns [True], drops the
    module from [sys.modules] and gives back the loader there was before the
    [load], so that the next [load] imports again. *)
Theorem loader_load_unload name0 self :
  _loaded self !! name0 = None ->
  (forall w, PluginLoader_unload name0 self w = (false, self, w))
  /\ (forall path w cls self1 w1,
        PluginLoader_load import_module name0 path self w = (Some cls, self1, w1) ->
        forall w', PluginLoader_unload name0 self1 w' = (true, self, sys_modules_del name0 w')).
Proof.
  intros Hn. split.
  - intros w. unfold PluginLoader_unload. by rewrite Hn.
  - intros path w cls self1 w1 Hl w'. by eapply loader_unload_after_load.
Qed.

End LoaderExtras.

(** ** The manager, continued *)

Section ManagerExtras.

Context `{Runtime}.

Implicit Types (self : PluginManager) (w : World) (p q : Plugin).
Implicit Types (n : string) (cls : PluginClass).

Local Abbreviation get n self := (PluginRegistry_get n (registry self)) (only parsing).

Local Ltac callback c :=
  let r := fresh "r" in let a := fresh "a" in let w := fresh "w" in
  let e := fresh "e" in let E := fresh "E" in
  destruct c as [[[[]|e] a] w] eqn:E.

(** X11. A name that the registry does not hold: [enable], [disable] and
    [unload] return [False] without calling anything, and leave the manager
    and the world as they are. *)
Theorem unknown_name_is_refused name0 self w :
  get name0 self = None ->
  PluginManager_enable name0 self w = (false, self, w)
  /\ PluginManager_disable name0 self w = (false, self, w)
  /\ PluginManager_unload name0 self w = (false, self, w).
Proof.
  intros Hn. unfold PluginManager_enable, PluginManager_disable, PluginManager_unload.
  by rewrite Hn.
Qed.

Lemma enable_true name0 self w :
  (PluginManager_enable name0 self w).1.1 = true ->
  state <$> get name0 (PluginManager_enable name0 self w).1.2 = Some ENABLED.
Proof.
  unfold PluginManager_enable.
  destruct (get name0 self) as [q|] eqn:Hq; [|done].
  case_decide as Hs; [cbn [fst snd]; intros _; rewrite Hq; simpl; by rewrite Hs|].
  callback (on_enable (plugin_class q) (attrs q) w); cbn [fst snd]; [|done].
  intros _. by rewrite get_update_plugin, decide_True.
Qed.

Lemma disable_true name0 self w :
  (PluginManager_disable name0 self w).1.1 = true ->
  state <$> get name0 (PluginManager_disable name0 self w).1.2 = Some DISABLED.
Proof.
  unfold PluginManager_disable.
  destruct (get name0 self) as [q|] eqn:Hq; [|done].
  case_decide as Hs; [cbn [fst snd]; intros _; rewrite Hq; simpl; by rewrite Hs|].
  callback (on_disable (plugin_class q) (attrs q) w); cbn [fst snd]; [|done].
  intros _. by rewrite get_update_plugin, decide_True.
Qed.

(** X12. Once [enable] has returned [True], the plugin is [enabled] and a
    further [enable] returns [True] without calling [on_enable]: manager and
    world stay as they are. The same holds of [disable], [disabled] and
    [on_disable]. *)
Theorem successful_transition_is_idempotent name0 self w :
  ((PluginManager_enable name0 self w).1.1 = true ->
   forall w',
     PluginManager_enable name0 (PluginManager_enable name0 self w).1.2 w' =
     (true, (PluginManager_enable name0 self w).1.2, w'))
  /\ ((PluginManager_disable name0 self w).1.1 = true ->
      forall w',
        PluginManager_disable name0 (PluginManager_disable name0 self w).1.2 w' =
        (true, (PluginManager_disable name0 self w).1.2, w')).
Proof.
  split; intros Ht w'.
  - apply enable_true in Ht.
    destruct (PluginManager_enable name0 self w) as [[b s] w1]. simpl in *.
    unfold PluginManager_enable.
    destruct (get name0 s) as [q|]; [|done]. simpl in Ht. injection Ht as Ht.
    by rewrite decide_True.
  - apply disable_true in Ht.
    destruct (PluginManager_disable name0 self w) as [[b s] w1]. simpl in *.
    unfold PluginManager_disable.
    destruct (get name0 s) as [q|]; [|done]. simpl in Ht. injection Ht as Ht.
    by rewrite decide_True.
Qed.

Lemma enable_other name0 self w n :
  n <> name0 -> get n (PluginManager_enable name0 self w).1.2 = get n self.
Proof.
  intros Hn. unfold PluginManager_enable.
  destruct (get name0 self) as [q|]; [|done].
  case_decide; [done|].
  callback (on_enable (plugin_class q) (attrs q) w); cbn [fst snd];
    by rewrite get_update_plugin, decide_False.
Qed.

Lemma disable_other name0 self w n :
  n <> name0 -> get n (PluginManager_disable name0 self w).1.2 = get n self.
Proof.
  intros Hn. unfold PluginManager_disable.
  destruct (get name0 self) as [q|]; [|done].
  case_decide; [done|].
  callback (on_disable (plugin_class q) (attrs q) w); cbn [fst snd];
    by rewrite get_update_plugin, decide_False.
Qed.

Lemma implicit_disable_other name0 q self w n :
  n <> name0 -> get n (implicit_disable name0 q self w).1 = get n self.
Proof.
  intros Hn. unfold implicit_disable. case_decide; [|done].
  pose proof (disable_other name0 self w n Hn).
  by destruct (PluginManager_disable name0 self w) as [[b s] w'].
Qed.

Lemma unload_other name0 self w n :
  n <> name0 -> get n (PluginManager_unload name0 self w).1.2 = get n self.
Proof.
  intros Hn. unfold PluginManager_unload.
  destruct (get name0 self) as [q|] eqn:Hq; [|done].
  pose proof (implicit_disable_other name0 q self w n Hn) as Ho.
  destruct (implicit_disable name0 q self w) as [self1 w1]. simpl in Ho.
  set (q1 := default q (get name0 self1)).
  callback (on_unload (plugin_class q1) (attrs q1) w1).
  - destruct (HookManager_unregister name0 (mgr_hooks self1)) as [c hooks2].
    destruct (PluginLoader_unload name0 (loader self1) w0) as [[b loader2] w3].
    simpl. unfold PluginRegistry_get in *. simpl.
    by rewrite lookup_delete_ne.
  - cbn [fst snd]. by rewrite get_update_plugin, decide_False.
Qed.

(** X13. [enable], [disable] and [unload] of one name leave the registry
    entry of every other name exactly as it is; [enable] and [disable] also
    leave the loader and the hook manager as they are. *)
Theorem transitions_are_local name0 self w :
  (forall n, n <> name0 ->
     get n (PluginManager_enable name0 self w).1.2 = get n self
     /\ get n (PluginManager_disable name0 self w).1.2 = get n self
     /\ get n (PluginManager_unload name0 self w).1.2 = get n self)
  /\ (loader (PluginManager_enable name0 self w).1.2 = loader self
      /\ mgr_hooks (PluginManager_enable name0 self w).1.2 = mgr_hooks self)
  /\ (loader (PluginManager_disable name0 self w).1.2 = loader self
      /\ mgr_hooks (PluginManager_disable name0 self w).1.2 = mgr_hooks self).
Proof.
  split; [|split].
  - intros n Hn. by rewrite enable_other, disable_other, unload_other.
  - by destruct (enable_frame name0 self w) as (? & ? & _).
  - by destruct (disable_frame name0 self w) as (? & ? & _).
Qed.

(** The class of the instance found under a name survives [unload]. *)
Lemma unload_lookup_class name0 self w n p p' :
  get n self = Some p ->
  get n (PluginManager_unload name0 self w).1.2 = Some p' ->
  plugin_class p' = plugin_class p.
Proof.
  intros Hn. destruct (decide (n = name0)) as [->|Hne];
    [|rewrite unload_other by done; congruence].
  unfold PluginManager_unload. rewrite Hn.
  destruct (implicit_disable_lookup name0 p self w name0 p Hn) as (p1 & Hp1 & Hc & _).
  destruct (implicit_disable name0 p self w) as [self1 w1]. simpl in Hp1.
  rewrite Hp1. simpl.
  callback (on_unload (plugin_class p1) (attrs p1) w1).
  - destruct (HookManager_unregister name0 (mgr_hooks self1)) as [c hooks2].
    destruct (PluginLoader_unload name0 (loader self1) w0) as [[b loader2] w3].
    simpl. unfold PluginRegistry_get. simpl. by rewrite lookup_delete_eq.
  - cbn [fst snd]. rewrite get_update_plugin, decide_True by done.
    by intros [= <-].
Qed.

(** [unload] of a plugin that is not enabled and whose [on_unload] returns. *)
Lemma unload_returning name0 self w p u a2 w2 :
  get name0 self = Some p ->
  state p <> ENABLED ->
  on_unload (plugin_class p) (attrs p) w = (Return u, a2, w2) ->
  PluginManager_unload name0 self w =
  (true,
   {| loader := (PluginLoader_unload name0 (loader self) w2).1.2;
      registry := {| plugins := delete name0 (plugins (registry self)) |};
      mgr_hooks := (HookManager_unregister name0 (mgr_hooks self)).2;
      _configs := _configs self |},
   emit INFO ("Unloaded plugin: " +:+ name0) (PluginLoader_unload name0 (loader self) w2).2).
Proof.
  intros Hp Hs Hu. unfold PluginManager_unload, implicit_disable.
  rewrite Hp, decide_False by done. rewrite Hp. simpl. rewrite Hu.
  destruct (HookManager_unregister name0 (mgr_hooks self)) as [c hooks2].
  by destruct (PluginLoader_unload name0 (loader self) w2) as [[b l2] w3].
Qed.

End ManagerExtras.

(** ** Loading, continued *)

Section ManagerLoadExtras.

Context `{Runtime}.
Variable import_module :
  string -> option string -> World -> result (list PluginClass) * World.

Implicit Types (self : PluginManager) (w : World) (p q : Plugin).
Implicit Types (n : string) (cls : PluginClass).

Local Abbreviation get n self := (PluginRegistry_get n (registry self)) (only parsing).

Local Ltac callback c :=
  let r := fresh "r" in let a := fresh "a" in let w := fresh "w" in
  let e := fresh "e" in let E := fresh "E" in
  destruct c as [[[[]|e] a] w] eqn:E.

(** What a batch of [register] calls leaves under a name, up to order. *)
Lemma register_all_Permutation (regs : list HookRegistration) (hm : HookManager) n :
  default [] (hooks (register_all regs hm) !! n) ≡ₚ
  default [] (hooks hm !! n) ++ filter (fun h => name h = n) regs.
Proof.
  induction regs as [|r regs IH] using rev_ind.
  - simpl. by rewrite app_nil_r.
  - rewrite register_all_snoc, register_lookup, filter_app, filter_cons, filter_nil.
    case_decide; simpl.
    + by rewrite list_sort_Permutation, IH, <- app_assoc.
    + by rewrite IH, app_nil_r.
Qed.

(** A successful [load], step by step. *)
Lemma load_Some_inv name0 path self w p self' w' :
  PluginManager_load import_module name0 path self w = (Some p, self', w') ->
  exists loader1 w1 q w2 w3,
    PluginLoader_load import_module name0 path (loader self) w
      = (Some (plugin_class p), loader1, w1)
    /\ instantiate (plugin_class p) (load_context name0 self) w1 = (Return q, w2)
    /\ on_load (plugin_class p) (attrs q) w2 = (Return tt, attrs p, w3)
    /\ state p = LOADED
    /\ self' = {| loader := loader1;
                  registry := PluginRegistry_register p (registry self);
                  mgr_hooks := register_all (get_hooks p) (mgr_hooks self);
                  _configs := _configs self |}
    /\ w' = emit INFO ("Loaded plugin: " +:+ name0) w3.
Proof.
  unfold PluginManager_load.
  destruct (PluginLoader_load import_module name0 path (loader self) w)
    as [[[cls|] l1] w1] eqn:El; [|done].
  destruct (instantiate cls (load_context name0 self) w1) as [[q|e] w2] eqn:Ei; [|done].
  pose proof (instantiate_Return _ _ _ _ _ Ei) as [Hs Hc].
  callback (on_load cls (attrs q) w2); [|done].
  intros [= <- <- <-]. simpl. rewrite Hc.
  exists l1, w1, q, w2, w0. by rewrite Ei, E.
Qed.

(** X14. What a successful [load] establishes: the instance returned is in
    state [loaded], it is the one the registry holds under the name of its
    descriptor, every other registry entry is as before, the loader has the
    class cached under the name that was loaded, every hook of the instance
    is in the hook manager under its hook name, and every handler that was
    registered before is still there. *)
Theorem load_success name0 path self w p self' w' :
  PluginManager_load import_module name0 path self w = (Some p, self', w') ->
  state p = LOADED
  /\ get (info_name (info (plugin_class p))) self' = Some p
  /\ (forall n, n <> info_name (info (plugin_class p)) -> get n self' = get n self)
  /\ _loaded (loader self') !! name0 = Some (plugin_class p)
  /\ (forall h, h ∈ get_hooks p -> h ∈ default [] (hooks (mgr_hooks self') !! name h))
  /\ (forall n h, h ∈ default [] (hooks (mgr_hooks self) !! n) ->
                  h ∈ default [] (hooks (mgr_hooks self') !! n)).
Proof.
  intros Hl. apply load_Some_inv in Hl
    as (l1 & w1 & q & w2 & w3 & Hload & _ & _ & Hs & -> & _).
  apply loader_load_Some in Hload as (Hc & _).
  simpl. unfold PluginRegistry_get, PluginRegistry_register. simpl.
  split; [done|]. split; [apply lookup_insert_eq|].
  split; [intros n Hn; by apply lookup_insert_ne|].
  split; [done|]. split.
  - intros h Hh. rewrite register_all_Permutation.
    apply elem_of_app. right. by apply list_elem_of_filter.
  - intros n h Hh. rewrite register_all_Permutation. apply elem_of_app. by left.
Qed.

(** X15. The registry stores every plugin under the name of its descriptor,
    and every operation of the manager keeps it so: [registry.get(name)]
    never returns a plugin whose [info.name] is another name. *)
Theorem registry_is_keyed_by_name op self w :
  keyed_by_name self -> keyed_by_name (perform import_module op self w).1.
Proof.
  assert (Hload : forall m path s w0,
            keyed_by_name s ->
            keyed_by_name (PluginManager_load import_module m path s w0).1.2).
  { intros m path s w0 Hk n p Hn.
    destruct (PluginManager_load import_module m path s w0) as [[[p0|] s'] w'] eqn:El.
    - apply load_Some_inv in El as (l1 & w1 & q & w2 & w3 & _ & _ & _ & _ & -> & _).
      simpl in Hn. unfold PluginRegistry_get, PluginRegistry_register in Hn.
      simpl in Hn. apply lookup_insert_Some in Hn as [[<- <-]|[_ Hn]]; [done|].
      by apply Hk.
    - pose proof (load_None_keeps_registry_and_hooks import_module m path s w0) as Hr.
      rewrite El in Hr. simpl in Hr, Hn. destruct Hr as [Hr _]; [done|].
      rewrite Hr in Hn. by apply Hk. }
  assert (Hunload : forall m s w0,
            keyed_by_name s -> keyed_by_name (PluginManager_unload m s w0).1.2).
  { intros m s w0 Hk n p Hn.
    destruct (get n s) as [p0|] eqn:Hp0.
    - rewrite (unload_lookup_class m s w0 n p0 p Hp0 Hn). by apply Hk.
    - by rewrite unload_absent in Hn. }
  intros Hk. rewrite perform_manager. destruct op as [m path|m|m|m|m|m c].
  - by apply Hload.
  - intros n p Hn. destruct (get n self) as [p0|] eqn:Hp0.
    + destruct (enable_lookup m self w n p0 Hp0) as (p' & Hp' & Hc & _).
      rewrite Hp' in Hn. injection Hn as <-. rewrite Hc. by apply Hk.
    + by rewrite enable_absent in Hn.
  - intros n p Hn. destruct (get n self) as [p0|] eqn:Hp0.
    + destruct (disable_lookup m self w n p0 Hp0) as (p' & Hp' & Hc & _).
      rewrite Hp' in Hn. injection Hn as <-. rewrite Hc. by apply Hk.
    + by rewrite disable_absent in Hn.
  - by apply Hunload.
  - unfold PluginManager_reload.
    destruct (get m self) as [q|]; [|by apply Hload].
    specialize (Hunload m self w Hk).
    destruct (PluginManager_unload m self w) as [[b s1] w1]. by apply Hload.
  - done.
Qed.

(** X16. Round trip of a plugin. Take a manager that has neither an instance
    nor a cached class under [name0], whose hook manager was made by
    [register] and [unregister] and holds no hook owned by [name0]. After a
    successful [load] of a plugin whose descriptor name is [name0] and whose
    hooks are all owned by [name0] (as [register_hook] makes them), an
    [unload] whose [on_unload] returns gives [True] and a manager with the
    registry and the loader there were before the [load], and the same
    handler list under every hook name. *)
Theorem load_unload_round_trip name0 path self w p self1 w1 u a2 w2 :
  built (mgr_hooks self) ->
  get name0 self = None ->
  _loaded (loader self) !! name0 = None ->
  (forall n h, h ∈ default [] (hooks (mgr_hooks self) !! n) -> plugin_name h ≠ name0) ->
  PluginManager_load import_module name0 path self w = (Some p, self1, w1) ->
  info_name (info (plugin_class p)) = name0 ->
  Forall (fun h => plugin_name h = name0) (get_hooks p) ->
  on_unload (plugin_class p) (attrs p) w1 = (Return u, a2, w2) ->
  (PluginManager_unload name0 self1 w1).1.1 = true
  /\ registry (PluginManager_unload name0 self1 w1).1.2 = registry self
  /\ loader (PluginManager_unload name0 self1 w1).1.2 = loader self
  /\ same_handlers (mgr_hooks (PluginManager_unload name0 self1 w1).1.2) (mgr_hooks self)
  /\ (PluginManager_unload name0 self1 w1).2 =
     emit INFO ("Unloaded plugin: " +:+ name0) (sys_modules_del name0 w2).
Proof.
  intros Hb Hreg Hcache Hnone Hl Hname Hown Hu.
  apply load_Some_inv in Hl as (l1 & w0 & q & w3 & w4 & Hload & _ & _ & Hs & -> & _).
  pose proof (loader_unload_after_load import_module name0 (loader self) _ _ _ _ _
                Hcache Hload w2) as Hlu.
  pose proof (unregister_register_all_same name0 (get_hooks p) (mgr_hooks self)
                Hb Hnone Hown) as Hsame.
  erewrite unload_returning; [| |by rewrite Hs|exact Hu].
  2:{ unfold PluginRegistry_get, PluginRegistry_register. simpl.
      rewrite Hname. apply lookup_insert_eq. }
  simpl. rewrite Hlu. simpl. repeat split; [|done].
  unfold PluginRegistry_register. simpl. rewrite Hname.
  unfold PluginRegistry_get in Hreg. rewrite delete_insert_id by done.
  by destruct (registry self).
Qed.

(** A successful [unload]: the registry has no entry under the name, and the
    loader has lost what it had cached under the name and nothing else. *)
Lemma unload_true_inv name0 self w :
  (PluginManager_unload name0 self w).1.1 = true ->
  is_Some (get name0 self)
  /\ get name0 (PluginManager_unload name0 self w).1.2 = None
  /\ loader (PluginManager_unload name0 self w).1.2 =
     {| plugin_dirs := plugin_dirs (loader self);
        _loaded := delete name0 (_loaded (loader self)) |}.
Proof.
  unfold PluginManager_unload.
  destruct (get name0 self) as [q|] eqn:Hq; [|done].
  destruct (implicit_disable_frame name0 q self w) as (Hl & _).
  destruct (implicit_disable name0 q self w) as [self1 w1]. simpl in Hl.
  set (q1 := default q (get name0 self1)).
  callback (on_unload (plugin_class q1) (attrs q1) w1); [|done].
  destruct (HookManager_unregister name0 (mgr_hooks self1)) as [c hooks2].
  unfold PluginLoader_unload. rewrite Hl.
  destruct (loader self) as [dirs cache]. simpl.
  destruct (cache !! name0) eqn:El; simpl; intros _;
    (split; [by eexists|]); unfold PluginRegistry_get; simpl;
    rewrite ?lookup_delete_eq; (split; [done|]); [done|].
  by rewrite delete_id.
Qed.

(** [load] when the loader yields no class. *)
Lemma load_unresolved name0 path self w l1 w1 :
  PluginLoader_load import_module name0 path (loader self) w = (None, l1, w1) ->
  PluginManager_load import_module name0 path self w = (None, self, w1).
Proof.
  intros Hl. unfold PluginManager_load. rewrite Hl.
  assert (l1 = loader self) as ->.
  { revert Hl. unfold PluginLoader_load.
    destruct (_loaded (loader self) !! name0); [done|].
    destruct (import_module name0 path w) as [[[|attr l]|e] w2]; congruence. }
  by destruct self.
Qed.

(** X17. [reload] of a name the registry does not hold is [load] of that name
    with no path. [reload] of a registered plugin whose [unload] succeeds is
    that [unload] followed by [load] with no path, on a manager whose
    registry has no entry under the name and whose loader has nothing cached
    under the name (what it has cached under other names stays, the class of
    the plugin included when it was loaded under another name). So the loader
    imports the module called by that name, with no path, whatever the plugin
    was first loaded from; when this import yields no class, [reload] returns
    [None] and leaves the manager as the [unload] left it, without the
    plugin. *)
Theorem reload_unloads_then_imports name0 self w :
  (get name0 self = None ->
   PluginManager_reload import_module name0 self w =
   PluginManager_load import_module name0 None self w)
  /\ ((PluginManager_unload name0 self w).1.1 = true ->
      PluginManager_reload import_module name0 self w =
      PluginManager_load import_module name0 None
        (PluginManager_unload name0 self w).1.2 (PluginManager_unload name0 self w).2
      /\ get name0 (PluginManager_unload name0 self w).1.2 = None
      /\ _loaded (loader (PluginManager_unload name0 self w).1.2) =
         delete name0 (_loaded (loader self))
      /\ match import_module name0 None (PluginManager_unload name0 self w).2 with
         | (Return (attr :: _), w1) =>
             PluginLoader_load import_module name0 None
               (loader (PluginManager_unload name0 self w).1.2)
               (PluginManager_unload name0 self w).2 =
             (Some attr,
              {| plugin_dirs := plugin_dirs (loader self);
                 _loaded := <[name0 := attr]> (_loaded (loader self)) |},
              w1)
         | (Return [], w1) =>
             PluginManager_reload import_module name0 self w =
             (None, (PluginManager_unload name0 self w).1.2,
              emit WARNING ("No Plugin class found in " +:+ name0) w1)
         | (Raise e, w1) =>
             PluginManager_reload import_module name0 self w =
             (None, (PluginManager_unload name0 self w).1.2,
              emit LOG_ERROR ("Failed to load plugin " +:+ name0 +:+ ": " +:+ exn_str e) w1)
         end).
Proof.
  split.
  - intros Hn. unfold PluginManager_reload. by rewrite Hn.
  - intros Ht. destruct (unload_true_inv name0 self w Ht) as ([q Hq] & Hg & Hc).
    assert (Hr : PluginManager_reload import_module name0 self w =
                 PluginManager_load import_module name0 None
                   (PluginManager_unload name0 self w).1.2
                   (PluginManager_unload name0 self w).2).
    { unfold PluginManager_reload. rewrite Hq.
      by destruct (PluginManager_unload name0 self w) as [[b s] w1]. }
    split; [exact Hr|]. split; [done|]. split; [by rewrite Hc|].
    rewrite Hr.
    destruct (PluginManager_unload name0 self w) as [[b s] w0]. simpl in *.
    assert (Hl : PluginLoader_load import_module name0 None (loader s) w0 =
                 match import_module name0 None w0 with
                 | (Return (attr :: _), w1) =>
                     (Some attr,
                      {| plugin_dirs := plugin_dirs (loader s);
                         _loaded := <[name0 := attr]> (_loaded (loader s)) |}, w1)
                 | (Return [], w1) =>
                     (None, loader s, emit WARNING ("No Plugin class found in " +:+ name0) w1)
                 | (Raise e, w1) =>
                     (None, loader s,
                      emit LOG_ERROR
                        ("Failed to load plugin " +:+ name0 +:+ ": " +:+ exn_str e) w1)
                 end).
    { unfold PluginLoader_load. rewrite Hc. simpl. by rewrite lookup_delete_eq. }
    destruct (import_module name0 None w0) as [[[|attr l]|e] w1].
    + by eapply load_unresolved.
    + rewrite Hl, Hc. simpl. by rewrite insert_delete_eq.
    + by eapply load_unresolved.
Qed.

End ManagerLoadExtras.

(** ** Discovery *)

Section StringFacts.

Lemma string_length_app (s t : string) :
  String.length (s +:+ t) = (String.length s + String.length t)%nat.
Proof. induction s as [|c s IH]; simpl; [done|]. by rewrite IH. Qed.

Lemma substring_all (t : string) : String.substring 0 (String.length t) t = t.
Proof. induction t as [|c t IH]; simpl; [done|]. by rewrite IH. Qed.

Lemma substring_app_l (s t : string) :
  String.substring 0 (String.length s) (s +:+ t) = s.
Proof.
  induction s as [|c s IH]; simpl; [by destruct t|]. by rewrite IH.
Qed.

Lemma substring_app_r (s t : string) :
  String.substring (String.length s) (String.length t) (s +:+ t) = t.
Proof. induction s as [|c s IH]; simpl; [apply substring_all|done]. Qed.

Lemma substring_split (n : nat) (s : string) :
  (n <= String.length s)%nat ->
  String.substring 0 n s +:+ String.substring n (String.length s - n) s = s.
Proof.
  revert s. induction n as [|n IH]; intros s Hn.
  - rewrite Nat.sub_0_r, substring_all. by destruct s.
  - destruct s as [|c s]; simpl in *; [lia|].
    change (String c (String.substring 0 n s
                      +:+ String.substring n (String.length s - n) s) = String c s).
    rewrite IH by lia. done.
Qed.

(** A name that ends with a suffix is its [drop_last] followed by the
    suffix. *)
Lemma endswith_split (suffix s : string) :
  endswith suffix s = true ->
  s = drop_last (String.length suffix) s +:+ suffix.
Proof.
  unfold endswith, drop_last.
  destruct (Nat.leb_spec (String.length suffix) (String.length s)) as [Hle|]; [|done].
  intros He. apply String.eqb_eq in He.
  pose proof (substring_split (String.length s - String.length suffix) s) as Hsp.
  replace (String.length s - (String.length s - String.length suffix))%nat
    with (String.length suffix) in Hsp by lia.
  rewrite He in Hsp. symmetry. apply Hsp. lia.
Qed.

Lemma endswith_app (suffix s : string) : endswith suffix (s +:+ suffix) = true.
Proof.
  unfold endswith. rewrite string_length_app.
  destruct (Nat.leb_spec (String.length suffix)
              (String.length s + String.length suffix)) as [_|]; [|lia].
  replace (String.length s + String.length suffix - String.length suffix)%nat
    with (String.length s) by lia.
  rewrite substring_app_r. apply String.eqb_refl.
Qed.

Lemma drop_last_app (suffix s : string) :
  drop_last (String.length suffix) (s +:+ suffix) = s.
Proof.
  unfold drop_last. rewrite string_length_app.
  replace (String.length s + String.length suffix - String.length suffix)%nat
    with (String.length s) by lia.
  apply substring_app_l.
Qed.

Lemma startswith_underscore_app (s t : string) :
  startswith "_" t = false ->
  startswith "_" (s +:+ t) = startswith "_" s.
Proof.
  intros Hu. destruct s as [|c s]; [exact Hu|].
  change (startswith "_" (String c (s +:+ t)) = startswith "_" (String c s)).
  unfold startswith. cbn [String.prefix].
  destruct (Ascii.ascii_dec _ c); [|reflexivity]. by destruct s, t.
Qed.

End StringFacts.

Section DiscoverProperties.

Context `{Runtime}.

Implicit Types (fs : FileSystem) (dirs names items : list string) (d item n : string).

(** Whether [discover] takes the entry [item] of [d] for a package. *)
Local Abbreviation is_package fs d item :=
  (path_isdir fs (path_join fs d item)
   && path_exists fs (path_join fs (path_join fs d item) "__init__.py")) (only parsing).

Lemma discover_dirs_acc fs dirs acc :
  discover_dirs fs dirs acc =
  match discover_dirs fs dirs [] with
  | Return names => Return (acc ++ names)
  | Raise e => Raise e
  end.
Proof.
  revert acc. induction dirs as [|d dirs IH]; intros acc; simpl.
  - by rewrite app_nil_r.
  - destruct (path_exists fs d); [|done].
    destruct (listdir fs d) as [items|e]; [|done].
    rewrite IH, (IH (flat_map _ _)).
    destruct (discover_dirs fs dirs []); [|done]. by rewrite app_assoc.
Qed.

(** X18. What [discover] returns: a name is discovered exactly when some
    configured directory that exists lists an entry that is either a
    directory holding an [__init__.py], the name being the entry, or an entry
    that ends in [.py] and does not start with an underscore, the name being
    the entry without its last three characters. Directories that do not
    exist contribute nothing. *)
Theorem discover_returns fs (self : PluginLoader) names :
  PluginLoader_discover fs self = Return names ->
  forall n,
    n ∈ names <->
    exists d items item,
      d ∈ plugin_dirs self /\ path_exists fs d = true
      /\ listdir fs d = Return items /\ item ∈ items
      /\ ((is_package fs d item = true /\ n = item)
          \/ (is_package fs d item = false
              /\ endswith ".py" item = true /\ startswith "_" item = false
              /\ n = drop_last 3 item /\ item = n +:+ ".py")).
Proof.
  unfold PluginLoader_discover. generalize (plugin_dirs self). intros dirs.
  assert (Hitem : forall d item n,
            n ∈ discover_item fs d item <->
            ((is_package fs d item = true /\ n = item)
             \/ (is_package fs d item = false
                 /\ endswith ".py" item = true /\ startswith "_" item = false
                 /\ n = drop_last 3 item /\ item = n +:+ ".py"))).
  { intros d item n. unfold discover_item.
    destruct (is_package fs d item).
    - rewrite list_elem_of_singleton. naive_solver.
    - destruct (endswith ".py" item) eqn:He; simpl.
      + destruct (startswith "_" item) eqn:Hs; simpl.
        * rewrite elem_of_nil. naive_solver.
        * rewrite list_elem_of_singleton. split; [|naive_solver].
          intros ->. right. repeat split. by apply (endswith_split ".py").
      + rewrite elem_of_nil. naive_solver. }
  revert names. induction dirs as [|d dirs IH]; intros names; simpl.
  - intros [= <-] n. rewrite elem_of_nil. split; [done|].
    intros (d & items & item & Hd & _). by apply elem_of_nil in Hd.
  - destruct (path_exists fs d) eqn:Hex.
    + destruct (listdir fs d) as [items|e] eqn:Hls; [|done].
      rewrite discover_dirs_acc.
      destruct (discover_dirs fs dirs []) as [rest|e] eqn:Hrest; [|done].
      intros [= <-] n. rewrite elem_of_app, (IH rest eq_refl n).
      rewrite list_elem_of_In, in_flat_map. split.
      * intros [(item & Hin & Hn)|(d' & items' & item & Hd' & Hrestd)].
        -- exists d, items, item. rewrite <- list_elem_of_In in Hin, Hn.
           apply Hitem in Hn. split; [left|]. by repeat split.
        -- exists d', items', item. split; [by right|done].
      * intros (d' & items' & item & Hd' & Hex' & Hls' & Hin & Hn).
        apply elem_of_cons in Hd' as [->|Hd'].
        -- left. rewrite Hls in Hls'. injection Hls' as <-.
           exists item. rewrite <- !list_elem_of_In. split; [done|]. by apply Hitem.
        -- right. by exists d', items', item.
    + intros Hdisc n. rewrite (IH names Hdisc n). split.
      * intros (d' & items' & item & Hd' & Hrestd).
        exists d', items', item. split; [by right|done].
      * intros (d' & items' & item & Hd' & Hex' & Hrestd).
        apply elem_of_cons in Hd' as [->|Hd']; [congruence|].
        by exists d', items', item.
Qed.

(** X19. [discover] raises only what [os.listdir] raises on a configured
    directory that exists, and returns when every such directory can be
    listed; a directory that does not exist is skipped without being
    listed. *)
Theorem discover_raises fs (self : PluginLoader) :
  (forall e, PluginLoader_discover fs self = Raise e ->
     exists d, d ∈ plugin_dirs self /\ path_exists fs d = true
               /\ listdir fs d = Raise e)
  /\ ((forall d, d ∈ plugin_dirs self -> path_exists fs d = true ->
         exists items, listdir fs d = Return items) ->
      exists names, PluginLoader_discover fs self = Return names).
Proof.
  unfold PluginLoader_discover. generalize (plugin_dirs self). intros dirs. split.
  - intros e. induction dirs as [|d dirs IH]; simpl; [done|].
    destruct (path_exists fs d) eqn:Hex.
    + destruct (listdir fs d) as [items|e'] eqn:Hls.
      * rewrite discover_dirs_acc.
        destruct (discover_dirs fs dirs []) as [rest|e'] eqn:Hrest; [done|].
        intros [= <-]. destruct (IH eq_refl) as (d' & Hd' & Hrestd).
        exists d'. split; [by right|done].
      * intros [= <-]. exists d. split; [left|done].
    + intros He. destruct (IH He) as (d' & Hd' & Hrestd).
      exists d'. split; [by right|done].
  - induction dirs as [|d dirs IH]; intros Hall; simpl; [by eexists|].
    destruct IH as [rest Hrest]; [intros d' Hd'; apply Hall; by right|].
    destruct (path_exists fs d) eqn:Hex; [|by eexists].
    destruct (Hall d) as [items Hls]; [left|done|].
    rewrite Hls, discover_dirs_acc, Hrest. by eexists.
Qed.

(** X20. From file name to module name: an entry [s.py] that is not taken for
    a package is discovered as the module [s], unless it starts with an
    underscore, in which case it is not discovered at all. *)
Theorem discover_module_file fs d (s : string) :
  is_package fs d (s +:+ ".py") = false ->
  discover_item fs d (s +:+ ".py") = if startswith "_" s then [] else [s].
Proof.
  intros Hp. unfold discover_item. rewrite Hp.
  rewrite (endswith_app ".py"), (startswith_underscore_app s ".py") by done.
  destruct (startswith "_" s); simpl; [done|].
  by rewrite (drop_last_app ".py").
Qed.

End DiscoverProperties.

(** ** Loading in batches, and who owns the hooks *)

Section BatchProperties.

Context `{Runtime}.
Variable import_module :
  string -> option string -> World -> result (list PluginClass) * World.

Implicit Types (self : PluginManager) (w : World) (p q : Plugin).
Implicit Types (n : string) (cls : PluginClass) (names : list string).

Local Abbreviation get n self := (PluginRegistry_get n (registry self)) (only parsing).

Local Ltac callback c :=
  let r := fresh "r" in let a := fresh "a" in let w := fresh "w" in
  let e := fresh "e" in let E := fresh "E" in
  destruct c as [[[[]|e] a] w] eqn:E.

Lemma load_each_bounds names (c : nat) self w :
  (c <= (load_each import_module names c self w).1.1 <= c + length names)%nat
  /\ (size (plugins (registry (load_each import_module names c self w).1.2))
      <= size (plugins (registry self))
         + ((load_each import_module names c self w).1.1 - c))%nat
  /\ ((load_each import_module names c self w).1.1 = c ->
      registry (load_each import_module names c self w).1.2 = registry self
      /\ mgr_hooks (load_each import_module names c self w).1.2 = mgr_hooks self).
Proof.
  revert c self w. induction names as [|name0 names IH]; intros c self w; simpl.
  - repeat split; lia.
  - destruct (PluginManager_load import_module name0 None self w) as [[[p|] s1] w1] eqn:El.
    + specialize (IH (S c) s1 w1). destruct IH as (Hc & Hsz & _).
      apply load_Some_inv in El as (l1 & w0 & q & w2 & w3 & _ & _ & _ & _ & -> & _).
      match goal with |- context [load_each ?i ?ns ?k ?s ?w'] =>
        set (R := load_each i ns k s w') in * end.
      cbn [registry plugins PluginRegistry_register] in Hsz.
      rewrite map_size_insert in Hsz.
      split; [lia|]. split; [|lia].
      destruct (plugins (registry self) !! info_name (info (plugin_class p)));
        simpl in Hsz; lia.
    + specialize (IH c s1 w1). destruct IH as (Hc & Hsz & Hsame).
      pose proof (load_None_keeps_registry_and_hooks import_module name0 None self w)
        as Hkeep.
      rewrite El in Hkeep. simpl in Hkeep. destruct Hkeep as [Hr Hh]; [done|].
      rewrite Hr in Hsz, Hsame. rewrite Hh in Hsame.
      split; [lia|]. split; [lia|done].
Qed.

(** The loop of [load_all] over two lists in a row. *)
Lemma load_each_app names1 names2 (c : nat) self w :
  load_each import_module (names1 ++ names2) c self w =
  load_each import_module names2
    (load_each import_module names1 c self w).1.1
    (load_each import_module names1 c self w).1.2
    (load_each import_module names1 c self w).2.
Proof.
  revert c self w. induction names1 as [|name0 names1 IH]; intros c self w; simpl; [done|].
  by destruct (PluginManager_load import_module name0 None self w) as [[[p|] s1] w1].
Qed.

(** X21. [load_all] calls [load], with no path, for every name that
    [discover] returns, in the order of the list and whatever became of the
    names before: for a name anywhere in the list, the [load] is made on the
    manager and in the world that the names before it left, the count goes
    up by one exactly when this [load] returns a plugin, and the batch goes
    on with the names after it either way. The count returned is at most
    the number of names discovered, the registry grows by at most that count,
    and when the count is 0 the registry and the hook manager are what they
    were. When [discover] raises, [load_all] raises the same exception and
    nothing is loaded. *)
Theorem load_all_counts fs self w :
  (forall e, PluginManager_discover fs self = Raise e ->
     PluginManager_load_all import_module fs self w = (Raise e, self, w))
  /\ (forall names, PluginManager_discover fs self = Return names ->
        exists count self' w',
          PluginManager_load_all import_module fs self w = (Return count, self', w')
          /\ (forall before name0 later, names = before ++ name0 :: later ->
                exists c1 s1 w1 loaded s2 w2,
                  load_each import_module before 0%nat self w = (c1, s1, w1)
                  /\ PluginManager_load import_module name0 None s1 w1 = (loaded, s2, w2)
                  /\ load_each import_module later
                       (match loaded with Some _ => S c1 | None => c1 end) s2 w2
                     = (count, self', w'))
          /\ (count <= length names)%nat
          /\ (size (plugins (registry self'))
              <= size (plugins (registry self)) + count)%nat
          /\ (count = 0%nat ->
              registry self' = registry self /\ mgr_hooks self' = mgr_hooks self)).
Proof.
  unfold PluginManager_load_all. split.
  - intros e ->. done.
  - intros names ->.
    pose proof (load_each_bounds names 0 self w) as (Hc & Hsz & Hsame).
    destruct (load_each import_module names 0 self w) as [[count self'] w'] eqn:Hall.
    simpl in *. exists count, self', w'.
    split; [done|]. split; [|split; [lia|split; [lia|done]]].
    intros before name0 later ->. rewrite load_each_app in Hall.
    destruct (load_each import_module before 0 self w) as [[c1 s1] w1].
    simpl in Hall.
    destruct (PluginManager_load import_module name0 None s1 w1)
      as [[loaded s2] w2] eqn:Hload.
    assert (Hall' : load_each import_module later
                      (match loaded with Some _ => S c1 | None => c1 end) s2 w2
                    = (count, self', w')) by (by destruct loaded).
    exists c1, s1, w1, loaded, s2, w2. split; [done|]. split; [exact Hload|exact Hall'].
Qed.

(** The classes in the cache after [PluginLoader.load] were there before or
    have just been imported. *)
Lemma loader_load_cached name0 path (l : PluginLoader) w n cls :
  _loaded (PluginLoader_load import_module name0 path l w).1.2 !! n = Some cls ->
  _loaded l !! n = Some cls
  \/ exists classes w', import_module name0 path w = (Return (cls :: classes), w').
Proof.
  unfold PluginLoader_load.
  destruct (_loaded l !! name0) as [c|]; [by left|].
  destruct (import_module name0 path w) as [[[|attr rest]|e] w2] eqn:Ei; simpl;
    [by left| |by left].
  intros Hl. apply lookup_insert_Some in Hl as [[_ <-]|[_ Hl]]; [right; eauto|by left].
Qed.

(** What [unload] does to the hook manager, the loader and the names of the
    registry. *)
Lemma unload_cases name0 self w :
  ((PluginManager_unload name0 self w).1.1 = false
   /\ mgr_hooks (PluginManager_unload name0 self w).1.2 = mgr_hooks self
   /\ loader (PluginManager_unload name0 self w).1.2 = loader self
   /\ forall n, is_Some (get n self) ->
                is_Some (get n (PluginManager_unload name0 self w).1.2))
  \/ ((PluginManager_unload name0 self w).1.1 = true
      /\ mgr_hooks (PluginManager_unload name0 self w).1.2
         = (HookManager_unregister name0 (mgr_hooks self)).2
      /\ (forall n cls,
            _loaded (loader (PluginManager_unload name0 self w).1.2) !! n = Some cls ->
            _loaded (loader self) !! n = Some cls)
      /\ forall n, n <> name0 -> is_Some (get n self) ->
                   is_Some (get n (PluginManager_unload name0 self w).1.2)).
Proof.
  pose proof (unload_other name0 self w) as Hother.
  remember (PluginManager_unload name0 self w) as U eqn:HU.
  unfold PluginManager_unload in HU.
  destruct (get name0 self) as [q|] eqn:Hq; [|subst U; left; by repeat split].
  destruct (implicit_disable_frame name0 q self w) as (Hl & Hh & _).
  destruct (implicit_disable name0 q self w) as [self1 w1]. simpl in Hl, Hh.
  set (q1 := default q (get name0 self1)) in *.
  callback (on_unload (plugin_class q1) (attrs q1) w1).
  - right. rewrite Hh, Hl in HU.
    destruct (HookManager_unregister name0 (mgr_hooks self)) as [c hooks2].
    destruct (PluginLoader_unload name0 (loader self) w0) as [[b l2] w3] eqn:Elu.
    subst U. cbn [fst snd loader mgr_hooks] in *.
    split; [done|]. split; [done|]. split; [|intros n Hn Hs; by rewrite Hother].
    intros n cls Hc. unfold PluginLoader_unload in Elu.
    destruct (_loaded (loader self) !! name0); injection Elu as <- <- <-; [|done].
    simpl in Hc. by apply lookup_delete_Some in Hc as [_ ?].
  - left. subst U. cbn [fst snd] in *. repeat split; [done..|].
    intros n Hs. destruct (decide (n = name0)) as [->|Hne].
    + by rewrite get_update_plugin, decide_True.
    + by rewrite Hother.
Qed.

(** X22. No orphan hooks. Suppose that every class that can be imported owns
    its hooks, that is, registers them with [register_hook]. Then the manager
    keeps this invariant through every operation: each handler in the hook
    manager is owned by a plugin that the registry holds (and the cached
    classes own their hooks). *)
Theorem hooks_keep_their_owners op self w :
  (forall name0 path w0 classes w1,
     import_module name0 path w0 = (Return classes, w1) -> Forall owns_its_hooks classes) ->
  hooks_have_owners self /\ cache_owns_its_hooks self ->
  hooks_have_owners (perform import_module op self w).1
  /\ cache_owns_its_hooks (perform import_module op self w).1.
Proof.
  intros Himp.
  assert (Hload : forall m path s w0,
            hooks_have_owners s /\ cache_owns_its_hooks s ->
            hooks_have_owners (PluginManager_load import_module m path s w0).1.2
            /\ cache_owns_its_hooks (PluginManager_load import_module m path s w0).1.2).
  { intros m path s w0 [Ho Hc].
    assert (Hc' : forall n cls,
              _loaded (PluginLoader_load import_module m path (loader s) w0).1.2 !! n
                = Some cls -> owns_its_hooks cls).
    { intros n cls Hn. apply loader_load_cached in Hn as [Hn|(cs & w' & Hn)].
      - by eapply Hc.
      - apply Himp in Hn. by apply Forall_cons in Hn as [? _]. }
    destruct (PluginManager_load import_module m path s w0) as [[[p|] s'] w'] eqn:El.
    - apply load_Some_inv in El
        as (l1 & w1 & q & w2 & w3 & Hld & Hi & Hol & _ & -> & _).
      rewrite Hld in Hc'. simpl in Hc'. split; [|exact Hc'].
      intros n h Hh. simpl in Hh. rewrite register_all_Permutation in Hh.
      unfold PluginRegistry_get, PluginRegistry_register. simpl.
      apply lookup_insert_is_Some'.
      apply elem_of_app in Hh as [Hh|Hh]; [right; by apply (Ho n)|].
      left. apply list_elem_of_filter in Hh as [_ Hh].
      apply loader_load_Some in Hld as (Hcls & _).
      pose proof (Hc' _ _ Hcls _ _ _ _ _ _ _ Hi Hol) as Hown.
      rewrite Forall_forall in Hown. symmetry. by apply Hown.
    - pose proof (load_None_keeps_registry_and_hooks import_module m path s w0) as Hr.
      rewrite El in Hr. simpl in Hr. destruct Hr as [Hr Hh]; [done|].
      simpl. split.
      + intros n h Hin. rewrite Hh in Hin. rewrite Hr. by apply (Ho n).
      + intros n cls Hn. apply (Hc' n).
        assert (Hls : loader s' = (PluginLoader_load import_module m path (loader s) w0).1.2).
        { revert El. unfold PluginManager_load.
          destruct (PluginLoader_load import_module m path (loader s) w0)
            as [[[cls0|] l1] w1]; [|by intros [= <- _]].
          destruct (instantiate cls0 (load_context m s) w1) as [[q|e] w2];
            [|by intros [= <- _]].
          callback (on_load cls0 (attrs q) w2); [done|by intros [= <- _]]. }
        by rewrite <- Hls. }
  assert (Hunload : forall m s w0,
            hooks_have_owners s /\ cache_owns_its_hooks s ->
            hooks_have_owners (PluginManager_unload m s w0).1.2
            /\ cache_owns_its_hooks (PluginManager_unload m s w0).1.2).
  { intros m s w0 [Ho Hc].
    destruct (unload_cases m s w0) as [(_ & Hh & Hl & Hk)|(_ & Hh & Hl & Hk)].
    - split.
      + intros n h Hin. rewrite Hh in Hin. apply Hk. by apply (Ho n).
      + intros n cls Hn. rewrite Hl in Hn. by eapply Hc.
    - split.
      + intros n h Hin. rewrite Hh, unregister_unfold in Hin. simpl in Hin.
        rewrite lookup_fmap in Hin.
        destruct (hooks (mgr_hooks s) !! n) as [l|] eqn:E; simpl in Hin;
          [|by apply elem_of_nil in Hin].
        apply list_elem_of_filter in Hin as [Hne Hin].
        apply Hk; [done|]. apply (Ho n). by rewrite E.
      + intros n cls Hn. apply Hl in Hn. by eapply Hc. }
  intros [Ho Hc]. rewrite perform_manager. destruct op as [m path|m|m|m|m|m c].
  - by apply Hload.
  - destruct (enable_frame m self w) as (Hl & Hh & _). split.
    + intros n h Hin. rewrite Hh in Hin. destruct (Ho n h Hin) as [p Hp].
      destruct (enable_lookup m self w _ p Hp) as (p' & Hp' & _). by eexists.
    + intros n cls Hn. rewrite Hl in Hn. by eapply Hc.
  - destruct (disable_frame m self w) as (Hl & Hh & _). split.
    + intros n h Hin. rewrite Hh in Hin. destruct (Ho n h Hin) as [p Hp].
      destruct (disable_lookup m self w _ p Hp) as (p' & Hp' & _). by eexists.
    + intros n cls Hn. rewrite Hl in Hn. by eapply Hc.
  - by apply Hunload.
  - unfold PluginManager_reload.
    destruct (get m self) as [q|]; [|by apply Hload].
    specialize (Hunload m self w (conj Ho Hc)).
    destruct (PluginManager_unload m self w) as [[b s1] w1]. by apply Hload.
  - done.
Qed.

End BatchProperties.

(** * The properties at work *)

Section Scenarios.

Import Demo.
#[local] Existing Instance runtime.
#[local] Existing Instance awaiting.

(** The scenarios of the test suite. *)

Example execute_in_priority_order :
  HookManager_execute hooks_x "x" [PInt 10] ∅ [] =
  (Return [PInt 11; PNone; PInt 12], ["Hook x handler error: boom"]).
Proof. vm_compute. reflexivity. Qed.

Example filter_add_one_then_double :
  HookManager_execute_filter hooks_transform "transform" (PInt 5) [] ∅ [] =
  (Return (PInt 12), ["Filter hook transform error: boom"]).
Proof. vm_compute. reflexivity. Qed.

(** A coroutine function flagged asynchronous is awaited; a function flagged
    asynchronous loses its result to the [TypeError] of the [await]; a
    coroutine function that is not flagged is not awaited, and its body does
    not run. *)
Example execute_awaits_by_the_flag :
  plugin_name <$> default [] (hooks hooks_z !! "z") = ["A"; "B"; "C"]
  /\ HookManager_execute hooks_z "z" [PInt 10] ∅ [] =
     (Return [PInt 12; PNone; PCoro 3 (PInt 10)],
      ["add_async"; "Hook z handler error: object int can't be used in 'await' expression"])
  /\ HookManager_execute_filter hooks_z "z" (PInt 10) [] ∅ [] =
     (Return (PCoro 3 (PInt 12)),
      ["add_async"; "Filter hook z error: object int can't be used in 'await' expression"]).
Proof. vm_compute. done. Qed.

Example unregister_counts :
  (HookManager_unregister "A" hooks_x).1 = 1%nat /\
  plugin_name <$> default [] (hooks (HookManager_unregister "A" hooks_x).2 !! "x") = ["C"; "B"].
Proof. vm_compute. done. Qed.

Example manager_flaky_error_reached :
  (after [Load "flaky" None; Enable "flaky"]).1 = manager_flaky_error.
Proof. vm_compute. reflexivity. Qed.

(** *** Hooks *)

Lemma execute_returns_one_result_per_handler_witness :
  (built hooks_x /\ by_priority (default [] (hooks hooks_x !! "x")))
  /\ (default [] (hooks hooks_x !! "x") !! 1%nat = Some (reg "x" boom "C" NORMAL)
      /\ (fan_out "x" (default [] (hooks hooks_x !! "x")) [PInt 10] ∅ []).1 !! 1%nat
         = Some PNone)
  /\ (default [] (hooks hooks_x !! "x") !! 2%nat = Some (reg "x" (add 2) "B" LOW)
      /\ (fan_out "x" (default [] (hooks hooks_x !! "x")) [PInt 10] ∅ []).1 !! 2%nat
         = Some (PInt 12))
  /\ (default [] (hooks hooks_z !! "z") !! 0%nat = Some (reg_async "z" (add_async 2) "A")
      /\ (fan_out "z" (default [] (hooks hooks_z !! "z")) [PInt 10] ∅ []).1 !! 0%nat
         = Some (PInt 12))
  /\ (default [] (hooks hooks_x !! "nonexistent") = []
      /\ HookManager_execute hooks_x "nonexistent" [PInt 10] ∅ [] = (Return [], [])).
Proof.
  assert (Hb : built hooks_x) by (apply register_all_built; constructor).
  split; [split; [exact Hb|]|split; [|split; [|split]]; (split; [reflexivity|])].
  - exact (proj1 (proj2 (execute_returns_one_result_per_handler hooks_x "x" [PInt 10] ∅ []))
             Hb).
  - exact (proj1 (proj2 (proj2 (proj2
             (execute_returns_one_result_per_handler hooks_x "x" [PInt 10] ∅ []))))
           1%nat (reg "x" boom "C" NORMAL) eq_refl).
  - exact (proj1 (proj2 (proj2 (proj2
             (execute_returns_one_result_per_handler hooks_x "x" [PInt 10] ∅ []))))
           2%nat (reg "x" (add 2) "B" LOW) eq_refl).
  - exact (proj1 (proj2 (proj2 (proj2
             (execute_returns_one_result_per_handler hooks_z "z" [PInt 10] ∅ []))))
           0%nat (reg_async "z" (add_async 2) "A") eq_refl).
  - exact (proj2 (proj2 (proj2 (proj2
             (execute_returns_one_result_per_handler hooks_x "nonexistent" [PInt 10] ∅ []))))
           eq_refl).
Defined.

Lemma execute_filter_threads_value_witness :
  (default [] (hooks hooks_transform !! "nonexistent") = []
   /\ HookManager_execute_filter hooks_transform "nonexistent" (PInt 5) [] ∅ [] =
      (Return (PInt 5), []))
  /\ (default [] (hooks hooks_transform !! "transform") =
      [reg "transform" (add 1) "p1" NORMAL; reg "transform" boom "p3" NORMAL;
       reg "transform" double "p2" NORMAL]
      /\ filter_chain "transform" (default [] (hooks hooks_transform !! "transform"))
           (PInt 5) [] ∅ [] =
         filter_chain "transform"
           [reg "transform" boom "p3" NORMAL; reg "transform" double "p2" NORMAL]
           (PInt 6) [] ∅ [])
  /\ (default [] (hooks hooks_z !! "z") =
      [reg_async "z" (add_async 2) "A"; reg_async "z" (add 1) "B";
       reg "z" (add_async 3) "C" LOW]
      /\ filter_chain "z" (default [] (hooks hooks_z !! "z")) (PInt 10) [] ∅ [] =
         filter_chain "z" [reg_async "z" (add 1) "B"; reg "z" (add_async 3) "C" LOW]
           (PInt 12) [] ∅ ["add_async"]).
Proof.
  split; [|split]; (split; [reflexivity|]).
  - exact (proj2 (proj2 (proj2
             (execute_filter_threads_value hooks_transform "nonexistent" (PInt 5) [] ∅ [])))
           eq_refl).
  - exact (proj1 (proj2 (proj2
             (execute_filter_threads_value hooks_transform "transform" (PInt 5) [] ∅ [])))
           (reg "transform" (add 1) "p1" NORMAL)
           [reg "transform" boom "p3" NORMAL; reg "transform" double "p2" NORMAL]
           eq_refl).
  - exact (proj1 (proj2 (proj2
             (execute_filter_threads_value hooks_z "z" (PInt 10) [] ∅ [])))
           (reg_async "z" (add_async 2) "A")
           [reg_async "z" (add 1) "B"; reg "z" (add_async 3) "C" LOW]
           eq_refl).
Defined.

(** *** The lifecycle *)

(** C1 fails on the code: a plugin in state [error] is moved to [enabled] by
    [enable] and to [disabled] by [disable], and [disable] moves a plugin
    that was only loaded to [disabled]. *)
Lemma enable_and_disable_leave_error :
  state_of "flaky" (after [Load "flaky" None; Enable "flaky"]).1 = Some ERROR
  /\ state_of "flaky" (after [Load "flaky" None; Enable "flaky"; Enable "flaky"]).1
     = Some ENABLED
  /\ state_of "flaky" (after [Load "flaky" None; Enable "flaky"; Disable "flaky"]).1
     = Some DISABLED
  /\ state_of "sample" (after [Load "sample" None]).1 = Some LOADED
  /\ state_of "sample" (after [Load "sample" None; Disable "sample"]).1 = Some DISABLED.
Proof. vm_compute. done. Qed.

Lemma lifecycle_transitions_witness :
  (PluginRegistry_get "flaky" (registry manager_flaky_error) = Some flaky_failed
   /\ PluginRegistry_get "flaky"
        (registry (perform import_module (Enable "flaky") manager_flaky_error []).1)
      = Some flaky_enabled
   /\ state flaky_enabled <> state flaky_failed
   /\ (state flaky_enabled = ENABLED -> Enable "flaky" = Enable "flaky"))
  /\ (state flaky_failed <> ENABLED
      /\ (PluginManager_enable "flaky" manager_flaky_error []).1.1 = true
      /\ state <$> PluginRegistry_get "flaky"
                     (registry (PluginManager_enable "flaky" manager_flaky_error []).1.2)
         = Some ENABLED)
  /\ (state flaky_failed <> DISABLED
      /\ (PluginManager_disable "flaky" manager_flaky_error []).1.1 = true
      /\ state <$> PluginRegistry_get "flaky"
                     (registry (PluginManager_disable "flaky" manager_flaky_error []).1.2)
         = Some DISABLED).
Proof.
  assert (Hg : PluginRegistry_get "flaky" (registry manager_flaky_error) = Some flaky_failed)
    by reflexivity.
  assert (Hg' : PluginRegistry_get "flaky"
                  (registry (perform import_module (Enable "flaky") manager_flaky_error []).1)
                = Some flaky_enabled) by reflexivity.
  assert (Hne : state flaky_enabled <> state flaky_failed) by discriminate.
  assert (He : state flaky_failed <> ENABLED) by discriminate.
  assert (Hd : state flaky_failed <> DISABLED) by discriminate.
  split; [|split].
  - repeat (split; [assumption|]).
    exact (proj1 (proj1 (lifecycle_transitions import_module)
                    (Enable "flaky") manager_flaky_error [] "flaky"
                    flaky_failed flaky_enabled Hg Hg' Hne)).
  - split; [assumption|].
    exact (proj1 (proj2 (lifecycle_transitions import_module))
             "flaky" manager_flaky_error [] flaky_failed Hg He).
  - split; [assumption|].
    exact (proj2 (proj2 (lifecycle_transitions import_module))
             "flaky" manager_flaky_error [] flaky_failed Hg Hd).
Defined.



Lemma load_failure_keeps_registry_and_hooks_witness :
  load_failure import_module "broken" None sample_loaded.1 sample_loaded.2
  /\ (PluginManager_load import_module "broken" None sample_loaded.1 sample_loaded.2).1.1
     = None
  /\ registry (PluginManager_load import_module "broken" None
                 sample_loaded.1 sample_loaded.2).1.2 = registry sample_loaded.1
  /\ mgr_hooks (PluginManager_load import_module "broken" None
                  sample_loaded.1 sample_loaded.2).1.2 = mgr_hooks sample_loaded.1.
Proof.
  assert (Hf : load_failure import_module "broken" None sample_loaded.1 sample_loaded.2).
  { exact (on_load_raises import_module "broken" None sample_loaded.1 sample_loaded.2
             broken _ _ (fresh broken "broken") _ "broken.on_load" _ _
             eq_refl eq_refl eq_refl). }
  split; [assumption|].
  exact (load_failure_keeps_registry_and_hooks import_module "broken" None
           sample_loaded.1 sample_loaded.2 Hf).
Defined.

(** C9 fails on the code: [unload] of an enabled plugin whose [on_unload]
    raises returns [False] and leaves the plugin in state [disabled]. *)
Lemma failed_unload_leaves_plugin_disabled :
  state_of "clingy" clingy_enabled.1 = Some ENABLED
  /\ (PluginManager_unload "clingy" clingy_enabled.1 clingy_enabled.2).1.1 = false
  /\ state_of "clingy" (PluginManager_unload "clingy" clingy_enabled.1 clingy_enabled.2).1.2
     = Some DISABLED.
Proof. vm_compute. done. Qed.

(** When [on_disable] raises as well, the plugin is still [enabled] after
    the failed [unload]. *)
Example failed_unload_after_failed_disable :
  state_of "stuck" stuck_enabled.1 = Some ENABLED
  /\ (PluginManager_unload "stuck" stuck_enabled.1 stuck_enabled.2).1.1 = false
  /\ state_of "stuck" (PluginManager_unload "stuck" stuck_enabled.1 stuck_enabled.2).1.2
     = Some ENABLED.
Proof. vm_compute. done. Qed.

Lemma transition_failure_policy_witness :
  (PluginRegistry_get "flaky" (registry flaky_loaded.1) = Some (fresh flaky "flaky")
   /\ (PluginManager_enable "flaky" flaky_loaded.1 flaky_loaded.2).1.1 = false
   /\ state <$> PluginRegistry_get "flaky"
                  (registry (PluginManager_enable "flaky" flaky_loaded.1 flaky_loaded.2).1.2)
      = Some ERROR)
  /\ (PluginRegistry_get "stubborn" (registry stubborn_enabled.1)
      = Some (hooked stubborn "stubborn" ENABLED)
      /\ (PluginManager_disable "stubborn" stubborn_enabled.1 stubborn_enabled.2).1.1 = false
      /\ state <$> PluginRegistry_get "stubborn"
                     (registry (PluginManager_disable "stubborn"
                                  stubborn_enabled.1 stubborn_enabled.2).1.2)
         = Some ENABLED)
  /\ (PluginRegistry_get "clingy" (registry clingy_enabled.1)
      = Some (hooked clingy "clingy" ENABLED)
      /\ (PluginManager_unload "clingy" clingy_enabled.1 clingy_enabled.2).1.1 = false
      /\ mgr_hooks (PluginManager_unload "clingy" clingy_enabled.1 clingy_enabled.2).1.2
         = mgr_hooks clingy_enabled.1
      /\ loader (PluginManager_unload "clingy" clingy_enabled.1 clingy_enabled.2).1.2
         = loader clingy_enabled.1
      /\ exists p',
           PluginRegistry_get "clingy"
             (registry (PluginManager_unload "clingy" clingy_enabled.1 clingy_enabled.2).1.2)
           = Some p'
           /\ state p' = DISABLED)
  /\ (PluginRegistry_get "stuck" (registry stuck_enabled.1) = Some (set_state ENABLED (fresh stuck "stuck"))
      /\ (PluginManager_unload "stuck" stuck_enabled.1 stuck_enabled.2).1.1 = false
      /\ exists p',
           PluginRegistry_get "stuck"
             (registry (PluginManager_unload "stuck" stuck_enabled.1 stuck_enabled.2).1.2)
           = Some p'
           /\ state p' = ENABLED).
Proof.
  split; [|split; [|split]]; (split; [reflexivity|]).
  - exact (proj1 transition_failure_policy
             "flaky" flaky_loaded.1 flaky_loaded.2 (fresh flaky "flaky")
             "not yet" _ _ eq_refl ltac:(discriminate) eq_refl).
  - exact (proj1 (proj2 transition_failure_policy)
             "stubborn" stubborn_enabled.1 stubborn_enabled.2
             (hooked stubborn "stubborn" ENABLED)
             "stubborn.on_disable" _ _ eq_refl ltac:(discriminate) eq_refl).
  - destruct (proj2 (proj2 transition_failure_policy)
                "clingy" clingy_enabled.1 clingy_enabled.2
                (hooked clingy "clingy" ENABLED)
                (implicit_disable "clingy" (hooked clingy "clingy" ENABLED)
                   clingy_enabled.1 clingy_enabled.2).1
                (implicit_disable "clingy" (hooked clingy "clingy" ENABLED)
                   clingy_enabled.1 clingy_enabled.2).2
                (hooked clingy "clingy" DISABLED)
                "clingy.on_unload" _ _ eq_refl eq_refl eq_refl eq_refl)
      as (Hf & Hh & Hl & p' & Hp' & _ & Hs).
    split; [exact Hf|]. split; [exact Hh|]. split; [exact Hl|].
    exists p'. split; [exact Hp'|exact (Hs eq_refl)].
  - destruct (proj2 (proj2 transition_failure_policy)
                "stuck" stuck_enabled.1 stuck_enabled.2
                (set_state ENABLED (fresh stuck "stuck"))
                (implicit_disable "stuck" (set_state ENABLED (fresh stuck "stuck"))
                   stuck_enabled.1 stuck_enabled.2).1
                (implicit_disable "stuck" (set_state ENABLED (fresh stuck "stuck"))
                   stuck_enabled.1 stuck_enabled.2).2
                (set_state ENABLED (fresh stuck "stuck"))
                "stuck.on_unload" _ _ eq_refl eq_refl eq_refl eq_refl)
      as (Hf & _ & _ & p' & Hp' & _ & Hs).
    split; [exact Hf|].
    exists p'. split; [exact Hp'|exact (Hs eq_refl)].
Defined.

(** C10 fails on the code for the cached type: a plugin whose descriptor
    name, [other], is not the name it was loaded as, [modname], is unloaded
    under its descriptor name, which is the name the registry knows; its
    class stays in the loader's cache, under [modname], and nothing is taken
    out of [sys.modules]. *)
Lemma unload_leaves_type_cached_under_load_name :
  state_of "other" other_enabled.1 = Some ENABLED
  /\ _loaded (loader other_enabled.1) !! "modname" = Some other
  /\ (PluginManager_unload "other" other_enabled.1 other_enabled.2).1.1 = true
  /\ state_of "other" (PluginManager_unload "other" other_enabled.1 other_enabled.2).1.2
     = None
  /\ owners "before_request"
       (PluginManager_unload "other" other_enabled.1 other_enabled.2).1.2 = []
  /\ _loaded (loader (PluginManager_unload "other" other_enabled.1 other_enabled.2).1.2)
       !! "modname" = Some other
  /\ (PluginManager_unload "other" other_enabled.1 other_enabled.2).2 =
     ["other.on_load"; "Loaded plugin: modname"; "Enabled plugin: other";
      "other.on_disable"; "Failed to disable plugin other: other.on_disable";
      "other.on_unload"; "Unloaded plugin: other"].
Proof. vm_compute. done. Qed.

Lemma unload_goes_on_after_disable_failure_witness :
  (PluginRegistry_get "stubborn" (registry stubborn_enabled.1)
   = Some (hooked stubborn "stubborn" ENABLED)
   /\ (PluginManager_unload "stubborn" stubborn_enabled.1 stubborn_enabled.2).1.1 = true
   /\ (PluginManager_unload "stubborn" stubborn_enabled.1 stubborn_enabled.2).2 =
      ["stubborn.on_load"; "Loaded plugin: stubborn"; "Enabled plugin: stubborn";
       "stubborn.on_disable"; "Failed to disable plugin stubborn: stubborn.on_disable";
       "stubborn.on_unload"; "del stubborn"; "Unloaded plugin: stubborn"]
   /\ owners "before_request" stubborn_enabled.1 = ["stubborn"]
   /\ owners "before_request"
        (PluginManager_unload "stubborn" stubborn_enabled.1 stubborn_enabled.2).1.2 = []
   /\ _loaded (loader stubborn_enabled.1) !! "stubborn" = Some stubborn
   /\ _loaded (loader (PluginManager_unload "stubborn"
                         stubborn_enabled.1 stubborn_enabled.2).1.2) !! "stubborn" = None)
  /\ (PluginRegistry_get "other" (registry other_enabled.1)
      = Some (hooked other "modname" ENABLED)
      /\ (PluginManager_unload "other" other_enabled.1 other_enabled.2).1.1 = true
      /\ _loaded (loader other_enabled.1) !! "modname" = Some other
      /\ _loaded (loader (PluginManager_unload "other"
                            other_enabled.1 other_enabled.2).1.2) !! "modname" = Some other).
Proof.
  split.
  - assert (Hg : PluginRegistry_get "stubborn" (registry stubborn_enabled.1)
                 = Some (hooked stubborn "stubborn" ENABLED)) by reflexivity.
    pose proof (unload_goes_on_after_disable_failure
                  "stubborn" stubborn_enabled.1 stubborn_enabled.2
                  (hooked stubborn "stubborn" ENABLED) "stubborn.on_disable"
                  _ _ tt _ _ Hg eq_refl eq_refl eq_refl) as (Hok & Hw & _ & Hh & _ & _ & Hc).
    split; [assumption|]. split; [exact Hok|]. split; [exact Hw|].
    split; [reflexivity|]. split; [unfold owners; rewrite Hh; reflexivity|].
    split; [reflexivity|]. exact (Hc "stubborn" eq_refl).
  - assert (Hg : PluginRegistry_get "other" (registry other_enabled.1)
                 = Some (hooked other "modname" ENABLED)) by reflexivity.
    pose proof (unload_goes_on_after_disable_failure
                  "other" other_enabled.1 other_enabled.2
                  (hooked other "modname" ENABLED) "other.on_disable"
                  _ _ tt _ _ Hg eq_refl eq_refl eq_refl) as (Hok & _ & _ & _ & _ & _ & Hc).
    split; [assumption|]. split; [exact Hok|]. split; [reflexivity|].
    exact (Hc "modname" eq_refl).
Defined.

(** *** The decorator *)

(** C3 fails on the code for [on_unload]: the class under the decorator
    supplies an [on_unload] that prints a line, and the [on_unload] of the
    decorated class returns without calling it. *)
Theorem decorated_on_unload_is_not_forwarded (a : PluginAttrs) (w : World) :
  cls_on_unload only_unload = Some (noted "only_unload.on_unload" false)
  /\ noted "only_unload.on_unload" false a w = (Return tt, a, w ++ ["only_unload.on_unload"])
  /\ on_unload decorated a w = (Return tt, a, w)
  /\ (after [Load "decorated" None; Unload "decorated"]).2 =
     ["Loaded plugin: decorated"; "del decorated"; "Unloaded plugin: decorated"].
Proof.
  split; [reflexivity|]. split; [reflexivity|].
  split; [exact (f_equal (fun m : method => m a w)
                   (proj2 (proj2 (proj2
                      (plugin_methods "decorated" "0.1.0" EmptyString EmptyString [] [] ∅ only_unload)))))|].
  vm_compute. reflexivity.
Qed.

End Scenarios.

(** * Configurations are shared, not copied *)

Section SharedConfiguration.

Import Heap.
#[local] Existing Instance runtime.

(** What [on_load] writes into [self.context.config] is in
    [manager._configs] afterwards, the table itself holding the same object
    as before; and what the caller of [set_config] writes into the dict later
    is in the plugin's configuration. Without a stored configuration the
    plugin writes into a dict of its own. *)
Example load_shares_the_configuration :
  config_items "writer" configured world0 = Some {["k" := PInt 1]}
  /\ config_items "writer"
       (PluginManager_load import_module "writer" None configured world0).1.2
       (PluginManager_load import_module "writer" None configured world0).2
     = Some (<["seen" := PInt 1]> {["k" := PInt 1]})
  /\ _configs (PluginManager_load import_module "writer" None configured world0).1.2
     = _configs configured
  /\ (setitem (PDict 0) "later" (PInt 2)
        (PluginManager_load import_module "writer" None configured world0).2).1 = Return tt
  /\ plugin_config_items "writer"
       (PluginManager_load import_module "writer" None configured world0).1.2
       (setitem (PDict 0) "later" (PInt 2)
          (PluginManager_load import_module "writer" None configured world0).2).2
     = Some (<["later" := PInt 2]> (<["seen" := PInt 1]> {["k" := PInt 1]}))
  /\ plugin_config_items "writer"
       (PluginManager_load import_module "writer" None (PluginManager_init []) world0).1.2
       (PluginManager_load import_module "writer" None (PluginManager_init []) world0).2
     = Some {["seen" := PInt 1]}
  /\ dicts (PluginManager_load import_module "writer" None (PluginManager_init []) world0).2
     = dicts world0.
Proof. vm_compute. done. Qed.

End SharedConfiguration.

(** * The further properties at work *)

Section MoreScenarios.

Import Demo.
#[local] Existing Instance runtime.
#[local] Existing Instance awaiting.

Lemma list_sort_characterised_witness :
  [1; 2; 3] = list_sort (fun z : Z => z) [3; 1; 2]
  /\ StronglySorted (fun a b : Z => a <= b) [1; 2; 3]
  /\ filter (fun a : Z => a = 2) [1; 2; 3] = filter (fun a : Z => a = 2) [3; 1; 2].
Proof.
  split; [reflexivity|].
  pose proof (proj1 (list_sort_characterised (fun z : Z => z) [3; 1; 2] [1; 2; 3]) eq_refl)
    as [Hs Hf].
  split; [exact Hs|exact (Hf 2)].
Defined.

Lemma register_all_is_one_sort_witness :
  built hooks_x
  /\ default [] (hooks (register_all hooks_of_P hooks_x) !! "x") =
     list_sort sort_key
       (default [] (hooks hooks_x !! "x") ++ filter (fun h => name h = "x") hooks_of_P).
Proof.
  assert (Hb : built hooks_x) by (apply register_all_built; constructor).
  split; [exact Hb|]. exact (register_all_is_one_sort hooks_of_P hooks_x "x" Hb).
Defined.

Lemma register_position_witness :
  built hooks_x
  /\ plugin_name <$>
       default [] (hooks (HookManager_register (reg "x" (add 5) "D" NORMAL) hooks_x) !! "x")
     = ["A"; "C"; "D"; "B"].
Proof.
  assert (Hb : built hooks_x) by (apply register_all_built; constructor).
  split; [exact Hb|].
  exact (f_equal (fmap plugin_name)
           (register_position (reg "x" (add 5) "D" NORMAL) hooks_x Hb)).
Defined.

Lemma register_unregister_round_trip_witness :
  built hooks_x
  /\ Forall (fun h => plugin_name h = "P") hooks_of_P
  /\ (HookManager_unregister "P" (register_all hooks_of_P hooks_x)).1 = 2%nat
  /\ same_handlers (HookManager_unregister "P" (register_all hooks_of_P hooks_x)).2 hooks_x.
Proof.
  assert (Hb : built hooks_x) by (apply register_all_built; constructor).
  assert (Hall : Forall (fun h => plugin_name h = "P") hooks_of_P)
    by (repeat constructor).
  assert (Hnone : forall n h, h ∈ default [] (hooks hooks_x !! n) -> plugin_name h ≠ "P").
  { intros n h Hh. destruct (decide (n = "x")) as [->|Hne].
    - apply list_elem_of_In in Hh. vm_compute in Hh.
      destruct Hh as [<-|[<-|[<-|[]]]]; discriminate.
    - assert (Hx : hooks hooks_x !! n = None).
      { assert (Hd : dom (hooks hooks_x) = {["x"]}) by (vm_compute; reflexivity).
        apply not_elem_of_dom. rewrite Hd. by apply not_elem_of_singleton. }
      rewrite Hx in Hh. by apply elem_of_nil in Hh. }
  split; [exact Hb|]. split; [exact Hall|].
  exact (register_unregister_round_trip "P" hooks_of_P hooks_x Hb Hnone Hall).
Defined.

Lemma handlers_of_hooks_total r :
  r ∈ default [] (hooks hooks_total !! "y") ->
  r = reg "y" echo "A" HIGH \/ r = reg_async "y" echo_async "C"
  \/ r = reg "y" (always 7) "B" LOW.
Proof.
  intros Hr. apply list_elem_of_In in Hr. vm_compute in Hr.
  destruct Hr as [<-|[<-|[<-|[]]]]; auto.
Qed.

Lemma execute_with_returning_handlers_witness :
  plugin_name <$> default [] (hooks hooks_total !! "y") = ["A"; "C"; "B"]
  /\ (fun r => returned r (PInt 10)) <$> default [] (hooks hooks_total !! "y")
     = [PInt 10; PInt 10; PInt 7]
  /\ HookManager_execute hooks_total "y" [PInt 10] ∅ [] =
     (Return ((fun r => returned r (PInt 10)) <$> default [] (hooks hooks_total !! "y")), []).
Proof.
  split; [reflexivity|]. split; [reflexivity|].
  apply (execute_with_returning_handlers hooks_total "y" [PInt 10] ∅
           (fun r => returned r (PInt 10)) []).
  intros r Hr w'. destruct (handlers_of_hooks_total r Hr) as [->|[->| ->]].
  - reflexivity.
  - exists (PEcho (PInt 10)), (fun w => (Return (PInt 10), w)). by repeat split.
  - reflexivity.
Defined.

Lemma execute_filter_composes_witness :
  HookManager_execute_filter hooks_total "y" (PInt 10) [] ∅ [] =
  (Return (foldl (fun v r => returned r v) (PInt 10) (default [] (hooks hooks_total !! "y"))),
   [])
  /\ foldl (fun v r => returned r v) (PInt 10) (default [] (hooks hooks_total !! "y"))
     = PInt 7.
Proof.
  split; [|reflexivity].
  apply (execute_filter_composes hooks_total "y" (PInt 10) [] ∅ returned []).
  intros r Hr v w'. destruct (handlers_of_hooks_total r Hr) as [->|[->| ->]].
  - reflexivity.
  - exists (PEcho v), (fun w => (Return v, w)). by repeat split.
  - reflexivity.
Defined.


Lemma loader_memoizes_witness :
  PluginLoader_load (fun _ _ w => (Raise "gone", w)) "sample" (Some "elsewhere.py")
    (PluginLoader_load import_module "sample" None (loader manager0) []).1.2 ["later"]
  = (Some sample,
     (PluginLoader_load import_module "sample" None (loader manager0) []).1.2, ["later"])
  /\ (PluginLoader_load import_module "nowhere" None (loader manager0) []).1.2
     = loader manager0.
Proof.
  split.
  - exact (proj1 (loader_memoizes import_module "sample" None (loader manager0) [])
             sample _ _ eq_refl (fun _ _ w => (Raise "gone", w)) (Some "elsewhere.py")
             ["later"]).
  - exact (proj2 (loader_memoizes import_module "nowhere" None (loader manager0) [])
             _ _ eq_refl).
Defined.

Lemma loader_load_unload_witness :
  _loaded (loader manager0) !! "sample" = None
  /\ PluginLoader_unload "sample" (loader manager0) [] = (false, loader manager0, [])
  /\ PluginLoader_unload "sample"
       (PluginLoader_load import_module "sample" None (loader manager0) []).1.2 []
     = (true, loader manager0, ["del sample"]).
Proof.
  assert (Hn : _loaded (loader manager0) !! "sample" = None) by reflexivity.
  split; [exact Hn|]. split.
  - exact (proj1 (loader_load_unload import_module "sample" (loader manager0) Hn) []).
  - exact (proj2 (loader_load_unload import_module "sample" (loader manager0) Hn)
             None [] sample _ _ eq_refl []).
Defined.

Lemma unknown_name_is_refused_witness :
  PluginRegistry_get "ghost" (registry sample_loaded.1) = None
  /\ PluginManager_enable "ghost" sample_loaded.1 [] = (false, sample_loaded.1, [])
  /\ PluginManager_disable "ghost" sample_loaded.1 [] = (false, sample_loaded.1, [])
  /\ PluginManager_unload "ghost" sample_loaded.1 [] = (false, sample_loaded.1, []).
Proof.
  assert (Hn : PluginRegistry_get "ghost" (registry sample_loaded.1) = None) by reflexivity.
  split; [exact Hn|]. exact (unknown_name_is_refused "ghost" sample_loaded.1 [] Hn).
Defined.

Lemma successful_transition_is_idempotent_witness :
  (PluginManager_enable "sample" sample_loaded.1 sample_loaded.2).1.1 = true
  /\ PluginManager_enable "sample"
       (PluginManager_enable "sample" sample_loaded.1 sample_loaded.2).1.2 []
     = (true, (PluginManager_enable "sample" sample_loaded.1 sample_loaded.2).1.2, [])
  /\ (PluginManager_disable "sample" sample_loaded.1 sample_loaded.2).1.1 = true
  /\ PluginManager_disable "sample"
       (PluginManager_disable "sample" sample_loaded.1 sample_loaded.2).1.2 []
     = (true, (PluginManager_disable "sample" sample_loaded.1 sample_loaded.2).1.2, []).
Proof.
  split; [reflexivity|]. split.
  - exact (proj1 (successful_transition_is_idempotent "sample"
                    sample_loaded.1 sample_loaded.2) eq_refl []).
  - split; [reflexivity|].
    exact (proj2 (successful_transition_is_idempotent "sample"
                    sample_loaded.1 sample_loaded.2) eq_refl []).
Defined.

Lemma transitions_are_local_witness :
  "sample" <> "flaky"
  /\ PluginRegistry_get "sample"
       (registry (PluginManager_unload "flaky" sample_loaded.1 sample_loaded.2).1.2)
     = PluginRegistry_get "sample" (registry sample_loaded.1).
Proof.
  assert (Hne : "sample" <> "flaky") by discriminate.
  split; [exact Hne|].
  exact (proj2 (proj2 (proj1 (transitions_are_local "flaky" sample_loaded.1 sample_loaded.2)
                         "sample" Hne))).
Defined.

Lemma load_success_witness :
  PluginManager_load import_module "sample" None manager0 []
  = (Some (hooked sample "sample" LOADED), sample_loaded.1, sample_loaded.2)
  /\ PluginRegistry_get "sample" (registry sample_loaded.1)
     = Some (hooked sample "sample" LOADED)
  /\ _loaded (loader sample_loaded.1) !! "sample" = Some sample.
Proof.
  assert (Hl : PluginManager_load import_module "sample" None manager0 []
               = (Some (hooked sample "sample" LOADED), sample_loaded.1, sample_loaded.2))
    by reflexivity.
  split; [exact Hl|].
  pose proof (load_success import_module "sample" None manager0 [] _ _ _ Hl)
    as (_ & Hg & _ & Hc & _).
  split; [exact Hg|exact Hc].
Defined.

Lemma registry_is_keyed_by_name_witness :
  keyed_by_name manager0
  /\ keyed_by_name (perform import_module (Load "sample" None) manager0 []).1.
Proof.
  assert (Hk : keyed_by_name manager0).
  { intros n p Hn. unfold PluginRegistry_get in Hn. simpl in Hn.
    rewrite lookup_empty in Hn. discriminate. }
  split; [exact Hk|].
  exact (registry_is_keyed_by_name import_module (Load "sample" None) manager0 [] Hk).
Defined.

Lemma load_unload_round_trip_witness :
  (PluginManager_unload "sample" sample_loaded.1 sample_loaded.2).1.1 = true
  /\ registry (PluginManager_unload "sample" sample_loaded.1 sample_loaded.2).1.2
     = registry manager0
  /\ loader (PluginManager_unload "sample" sample_loaded.1 sample_loaded.2).1.2
     = loader manager0
  /\ owners "before_request" sample_loaded.1 = ["sample"]
  /\ owners "before_request"
       (PluginManager_unload "sample" sample_loaded.1 sample_loaded.2).1.2 = [].
Proof.
  assert (Hnone : forall n h,
            h ∈ default [] (hooks (mgr_hooks manager0) !! n) -> plugin_name h ≠ "sample").
  { intros n h Hh. simpl in Hh. rewrite lookup_empty in Hh. by apply elem_of_nil in Hh. }
  assert (Hown : Forall (fun h => plugin_name h = "sample")
                   (get_hooks (hooked sample "sample" LOADED))) by (repeat constructor).
  pose proof (load_unload_round_trip import_module "sample" None manager0 []
                (hooked sample "sample" LOADED) sample_loaded.1 sample_loaded.2
                tt _ _ built_init eq_refl eq_refl Hnone eq_refl eq_refl Hown eq_refl)
    as (Hok & Hr & Hl & Hs & _).
  split; [exact Hok|]. split; [exact Hr|]. split; [exact Hl|]. split; [reflexivity|].
  unfold owners. rewrite (Hs "before_request"). reflexivity.
Defined.

Lemma reload_unloads_then_imports_witness :
  PluginManager_reload import_module "sample" manager0 []
  = PluginManager_load import_module "sample" None manager0 []
  /\ ((PluginManager_unload "sample" sample_loaded.1 sample_loaded.2).1.1 = true
      /\ PluginManager_reload import_module "sample" sample_loaded.1 sample_loaded.2
         = PluginManager_load import_module "sample" None
             (PluginManager_unload "sample" sample_loaded.1 sample_loaded.2).1.2
             (PluginManager_unload "sample" sample_loaded.1 sample_loaded.2).2)
  /\ ((PluginManager_unload "other" other_enabled.1 other_enabled.2).1.1 = true
      /\ PluginManager_reload import_module "other" other_enabled.1 other_enabled.2
         = (None, (PluginManager_unload "other" other_enabled.1 other_enabled.2).1.2,
            (PluginManager_unload "other" other_enabled.1 other_enabled.2).2
            ++ ["Failed to load plugin other: No module named other"])).
Proof.
  split; [|split].
  - exact (proj1 (reload_unloads_then_imports import_module "sample" manager0 []) eq_refl).
  - split; [reflexivity|].
    exact (proj1 (proj2 (reload_unloads_then_imports import_module "sample"
                           sample_loaded.1 sample_loaded.2) eq_refl)).
  - split; [reflexivity|].
    exact (proj2 (proj2 (proj2 (proj2 (reload_unloads_then_imports import_module "other"
                                         other_enabled.1 other_enabled.2) eq_refl)))).
Defined.

Lemma discover_returns_witness :
  PluginLoader_discover fs (loader manager_two_dirs) = Return ["sample"; "pkg"]
  /\ exists d items item,
       d ∈ plugin_dirs (loader manager_two_dirs) /\ path_exists fs d = true
       /\ listdir fs d = Return items /\ item ∈ items
       /\ ((path_isdir fs (path_join fs d item)
             && path_exists fs (path_join fs (path_join fs d item) "__init__.py") = true
            /\ "sample" = item)
           \/ (path_isdir fs (path_join fs d item)
                && path_exists fs (path_join fs (path_join fs d item) "__init__.py") = false
               /\ endswith ".py" item = true /\ startswith "_" item = false
               /\ "sample" = drop_last 3 item /\ item = "sample" +:+ ".py")).
Proof.
  split; [reflexivity|].
  apply (proj1 (discover_returns fs (loader manager_two_dirs) ["sample"; "pkg"]
                  eq_refl "sample")).
  apply list_elem_of_In. left. reflexivity.
Defined.

Lemma discover_raises_witness :
  PluginLoader_discover fs (loader manager_file_dir)
  = Raise "cannot list ./plugins/pkg/__init__.py"
  /\ (exists d, d ∈ plugin_dirs (loader manager_file_dir) /\ path_exists fs d = true
                /\ listdir fs d = Raise "cannot list ./plugins/pkg/__init__.py")
  /\ exists names, PluginLoader_discover fs (loader manager_two_dirs) = Return names.
Proof.
  split; [reflexivity|]. split.
  - exact (proj1 (discover_raises fs (loader manager_file_dir)) _ eq_refl).
  - apply (proj2 (discover_raises fs (loader manager_two_dirs))).
    intros d Hd Hex. apply list_elem_of_In in Hd.
    destruct Hd as [<-|[<-|[]]]; [by eexists|discriminate Hex].
Defined.

Lemma discover_module_file_witness :
  path_isdir fs (path_join fs "./plugins" ("sample" +:+ ".py"))
    && path_exists fs (path_join fs (path_join fs "./plugins" ("sample" +:+ ".py"))
                         "__init__.py") = false
  /\ discover_item fs "./plugins" ("sample" +:+ ".py") = ["sample"]
  /\ discover_item fs "./plugins" ("_private" +:+ ".py") = [].
Proof.
  split; [reflexivity|]. split.
  - exact (discover_module_file fs "./plugins" "sample" eq_refl).
  - exact (discover_module_file fs "./plugins" "_private" eq_refl).
Defined.

(** Two failures first, two plugins loaded after them. *)
Example load_all_goes_on_after_failures :
  PluginManager_discover fs_batch manager0 = Return ["empty"; "broken"; "flaky"; "sample"]
  /\ (PluginManager_load_all import_module fs_batch manager0 []).1.1 = Return 2%nat
  /\ state_of "flaky" (PluginManager_load_all import_module fs_batch manager0 []).1.2
     = Some LOADED
  /\ state_of "sample" (PluginManager_load_all import_module fs_batch manager0 []).1.2
     = Some LOADED
  /\ (PluginManager_load_all import_module fs_batch manager0 []).2 =
     ["No Plugin class found in empty";
      "Failed to instantiate plugin broken: broken.on_load";
      "Loaded plugin: flaky"; "sample.on_load"; "Loaded plugin: sample"].
Proof. vm_compute. done. Qed.

Lemma load_all_counts_witness :
  PluginManager_discover fs_batch manager0 = Return ["empty"; "broken"; "flaky"; "sample"]
  /\ (exists count self' w',
        PluginManager_load_all import_module fs_batch manager0 [] = (Return count, self', w')
        /\ (exists c1 s1 w1 loaded s2 w2,
              load_each import_module ["empty"; "broken"] 0%nat manager0 [] = (c1, s1, w1)
              /\ PluginManager_load import_module "flaky" None s1 w1 = (loaded, s2, w2)
              /\ load_each import_module ["sample"]
                   (match loaded with Some _ => S c1 | None => c1 end) s2 w2
                 = (count, self', w'))
        /\ (count <= 4)%nat)
  /\ PluginManager_load_all import_module fs manager_file_dir []
     = (Raise "cannot list ./plugins/pkg/__init__.py", manager_file_dir, []).
Proof.
  split; [reflexivity|]. split.
  - destruct (proj2 (load_all_counts import_module fs_batch manager0 [])
                ["empty"; "broken"; "flaky"; "sample"] eq_refl)
      as (count & self' & w' & Hall & Hsplit & Hc & _).
    exists count, self', w'. split; [exact Hall|]. split; [|exact Hc].
    exact (Hsplit ["empty"; "broken"] "flaky" ["sample"] eq_refl).
  - exact (proj1 (load_all_counts import_module fs manager_file_dir []) _ eq_refl).
Defined.

Lemma demo_classes_own_their_hooks name0 path w0 classes w1 :
  import_module name0 path w0 = (Return classes, w1) -> Forall owns_its_hooks classes.
Proof.
  unfold import_module.
  repeat case_decide; intros [= <- <-]; repeat constructor;
    intros c w q w2 u a3 w3 Hi Ho; unfold instantiate in Hi; simpl in Hi;
    injection Hi as <- <-; simpl in Ho; try discriminate Ho;
    injection Ho as <- <-; repeat constructor.
Qed.

Lemma hooks_keep_their_owners_witness :
  (hooks_have_owners manager0 /\ cache_owns_its_hooks manager0)
  /\ hooks_have_owners (perform import_module (Load "sample" None) manager0 []).1
  /\ cache_owns_its_hooks (perform import_module (Load "sample" None) manager0 []).1.
Proof.
  assert (Hinit : hooks_have_owners manager0 /\ cache_owns_its_hooks manager0).
  { split.
    - intros n h Hh. simpl in Hh. rewrite lookup_empty in Hh. by apply elem_of_nil in Hh.
    - intros n cls Hn. simpl in Hn. rewrite lookup_empty in Hn. discriminate. }
  split; [exact Hinit|].
  exact (hooks_keep_their_owners import_module (Load "sample" None) manager0 []
           demo_classes_own_their_hooks Hinit).
Defined.

End MoreScenarios.
